(** * Change detection and notification pipeline of the Allahabad HC monitor

    A shallow embedding of
      - [src/services/changeDetectionService.js]  (module [ChangeDetectionService]),
      - the [generateDataHash] method of the Case model (module [CaseModel]),
      - [src/services/whatsappService.js]         (module [WhatsAppService]),
      - [src/services/monitoringService.js]       (module [MonitoringService]),
    together with the fragment of the JavaScript runtime these files rely on
    (module [JS]) and the MD5 digest behind [crypto.createHash('md5')]
    (module [MD5]).

    Conventions.  A JavaScript string is represented by the byte string of its
    UTF-8 encoding.  Numbers are the integer-valued ones.  An exception is an
    explicit [Throw]; asynchronous code is sequential inside one cycle, so
    [await] is ordinary sequencing in a state-and-exception monad whose state
    holds the service's own fields, the external world and a trace of every
    log line and external call. *)

From Stdlib Require Import ZArith List String Ascii Bool Lia DecimalString.
From Stdlib Require Import Sorting Permutation.
Import ListNotations.
#[local] Set Warnings "-register-all".
Local Open Scope list_scope.
Local Open Scope string_scope.

(* ================================================================= *)
(** ** The JavaScript fragment *)

Module JS.

(** An exception value: the constructor name and the [message]. *)
Record Exn : Type := mkExn { ename : string; emessage : string }.

Inductive Result (A : Type) : Type :=
| Ok (a : A)
| Throw (e : Exn).
Arguments Ok {A} a.
Arguments Throw {A} e.

Definition TypeError (msg : string) : Exn := mkExn "TypeError" msg.
Definition RangeError (msg : string) : Exn := mkExn "RangeError" msg.
Definition Error (msg : string) : Exn := mkExn "Error" msg.

(** Values.  [JDate t] is a Date object with time value [t] in milliseconds
    since the epoch, [None] being the NaN time value of an Invalid Date.
    [JObj] lists the own enumerable properties in insertion order. *)
Inductive jsval : Type :=
| JUndefined
| JNull
| JBool (b : bool)
| JNum (n : Z)
| JStr (s : string)
| JDate (t : option Z)
| JArr (items : list jsval)
| JObj (props : list (string * jsval)).

(** ToBoolean. *)
Definition truthy (v : jsval) : bool :=
  match v with
  | JUndefined | JNull => false
  | JBool b => b
  | JNum n => negb (n =? 0)%Z
  | JStr s => negb (String.eqb s EmptyString)
  | JDate _ | JArr _ | JObj _ => true
  end.

Definition nullish (v : jsval) : bool :=
  match v with JUndefined | JNull => true | _ => false end.

(** [typeof v === 'object'] (which holds of [null]). *)
Definition typeof_object (v : jsval) : bool :=
  match v with JNull | JDate _ | JArr _ | JObj _ => true | _ => false end.

(** A non-null value whose [typeof] is ['object']. *)
Definition object_like (v : jsval) : bool :=
  match v with JDate _ | JArr _ | JObj _ => true | _ => false end.

Definition isArray (v : jsval) : bool :=
  match v with JArr _ => true | _ => false end.

Definition instanceof_Date (v : jsval) : bool :=
  match v with JDate _ => true | _ => false end.

Fixpoint lookup {A : Type} (k : string) (ps : list (string * A)) : option A :=
  match ps with
  | [] => None
  | (k', x) :: r => if String.eqb k k' then Some x else lookup k r
  end.

(** [o[k]] for one of the data property names read by the services: a
    TypeError on [null] and [undefined], the property (or [undefined]) on a
    plain object, [undefined] on every other value. *)
Definition getField (o : jsval) (k : string) : Result jsval :=
  match o with
  | JUndefined =>
      Throw (TypeError ("Cannot read properties of undefined (reading '" ++ k ++ "')"))
  | JNull =>
      Throw (TypeError ("Cannot read properties of null (reading '" ++ k ++ "')"))
  | JObj ps => Ok (match lookup k ps with Some x => x | None => JUndefined end)
  | _ => Ok JUndefined
  end.

(** *** Strings *)

Definition dquote : string := String (ascii_of_nat 34) EmptyString.
Definition newline : string := String (ascii_of_nat 10) EmptyString.

Definition Z_to_string (n : Z) : string := NilZero.string_of_int (Z.to_int n).

Definition pad_start (width : nat) (s : string) : string :=
  string_of_list_ascii (repeat "0"%char (width - String.length s)) ++ s.

Definition pad2 (n : Z) : string := pad_start 2 (Z_to_string n).

Definition code (c : ascii) : Z := Z.of_N (N_of_ascii c).

(** The runtime's builtins whose result is given by locale, time zone or
    Unicode tables of the host rather than by the program. *)
Class Engine : Type := {
  (** [Date.parse]; [None] is NaN. *)
  Date_parse : string -> option Z;
  (** [Date.prototype.toString] of a valid date. *)
  Date_toString : Z -> string;
  (** [toLocaleDateString('en-IN', {day:'2-digit', month:'2-digit',
      year:'numeric'})] of a valid date. *)
  Date_toLocaleDateString : Z -> string;
  (** [toLocaleString('en-IN', {timeZone: 'Asia/Kolkata'})] of a valid date. *)
  Date_toLocaleString : Z -> string;
  (** [String.prototype.trim] and [String.prototype.toLowerCase]. *)
  trim : string -> string;
  toLowerCase : string -> string
}.

Section WithEngine.
Context {E : Engine}.

(** ToString, which is also what [v.toString()] returns on these values. *)
Fixpoint ToString (v : jsval) : string :=
  match v with
  | JUndefined => "undefined"
  | JNull => "null"
  | JBool b => if b then "true" else "false"
  | JNum n => Z_to_string n
  | JStr s => s
  | JDate None => "Invalid Date"
  | JDate (Some t) => Date_toString t
  | JArr l =>
      String.concat ","
        (map (fun x => match x with
                       | JUndefined | JNull => EmptyString
                       | _ => ToString x
                       end) l)
  | JObj _ => "[object Object]"
  end.

(** The time value of [new Date(v)] for a value that is not a Date. *)
Definition TimeClip (n : Z) : option Z :=
  if (Z.abs n <=? 8640000000000000)%Z then Some n else None.

Definition new_Date (v : jsval) : option Z :=
  match v with
  | JUndefined => None
  | JNull => Some 0%Z
  | JBool b => Some (if b then 1 else 0)%Z
  | JNum n => TimeClip n
  | JStr s => Date_parse s
  | JDate t => t
  | JArr _ | JObj _ => Date_parse (ToString v)
  end.

End WithEngine.

(** *** Calendar arithmetic (proleptic Gregorian, UTC) *)

Section Calendar.
Local Open Scope Z_scope.

Definition msPerDay : Z := 86400000.

Definition days_from_civil (y m d : Z) : Z :=
  let y' := if m <=? 2 then y - 1 else y in
  let era := y' / 400 in
  let yoe := y' - era * 400 in
  let doy := (153 * (if 2 <? m then m - 3 else m + 9) + 2) / 5 + d - 1 in
  let doe := yoe * 365 + yoe / 4 - yoe / 100 + doy in
  era * 146097 + doe - 719468.

Definition civil_from_days (days : Z) : Z * Z * Z :=
  let z := days + 719468 in
  let era := z / 146097 in
  let doe := z - era * 146097 in
  let yoe := (doe - doe / 1460 + doe / 36524 - doe / 146096) / 365 in
  let doy := doe - (365 * yoe + yoe / 4 - yoe / 100) in
  let mp := (5 * doy + 2) / 153 in
  let d := doy - (153 * mp + 2) / 5 + 1 in
  let m := if mp <? 10 then mp + 3 else mp - 9 in
  ((if m <=? 2 then yoe + era * 400 + 1 else yoe + era * 400), m, d).

Definition year_string (y : Z) : string :=
  let sign : string := if y <? 0 then "-" else "+" in
  if (0 <=? y) && (y <=? 9999) then pad_start 4 (Z_to_string y)
  else String.append sign (pad_start 6 (Z_to_string (Z.abs y))).

(** [Date.prototype.toISOString] of a valid time value. *)
Definition toISOString (t : Z) : string :=
  let '(y, m, d) := civil_from_days (t / msPerDay) in
  let ms := t mod msPerDay in
  (year_string y ++ "-" ++ pad2 m ++ "-" ++ pad2 d ++ "T"
   ++ pad2 (ms / 3600000) ++ ":" ++ pad2 (ms / 60000 mod 60) ++ ":"
   ++ pad2 (ms / 1000 mod 60) ++ "." ++ pad_start 3 (Z_to_string (ms mod 1000))
   ++ "Z")%string.

End Calendar.

(** *** JSON.stringify *)

Definition hexdigit (n : Z) : string :=
  String.substring (Z.to_nat n) 1 "0123456789abcdef".

Definition hex2 (n : Z) : string := hexdigit (n / 16) ++ hexdigit (n mod 16).

Definition quote_char (c : ascii) : string :=
  let n := code c in
  if (n =? 34)%Z then "\" ++ dquote
  else if (n =? 92)%Z then "\\"
  else if (n =? 8)%Z then "\b"
  else if (n =? 12)%Z then "\f"
  else if (n =? 10)%Z then "\n"
  else if (n =? 13)%Z then "\r"
  else if (n =? 9)%Z then "\t"
  else if (n <? 32)%Z then "\u00" ++ hex2 n
  else String c EmptyString.

Fixpoint quote_body (s : string) : string :=
  match s with
  | EmptyString => EmptyString
  | String c r => quote_char c ++ quote_body r
  end.

(** QuoteJSONString. *)
Definition quote (s : string) : string := dquote ++ quote_body s ++ dquote.

Fixpoint dedup (seen : list string) (ks : list string) : list string :=
  match ks with
  | [] => []
  | k :: r =>
      if existsb (String.eqb k) seen then dedup seen r
      else k :: dedup (k :: seen) r
  end.

(** [JSON.stringify(v, allow)], where [allow] is the optional array replacer
    (a property allowlist that applies at every depth).  [None] is the
    [undefined] result.  A Date is serialised through its [toJSON]. *)
Fixpoint stringify (allow : option (list string)) (v : jsval) : option string :=
  match v with
  | JUndefined => None
  | JNull => Some "null"
  | JBool b => Some (if b then "true" else "false")
  | JNum n => Some (Z_to_string n)
  | JStr s => Some (quote s)
  | JDate None => Some "null"
  | JDate (Some t) => Some (quote (toISOString t))
  | JArr l =>
      Some ("[" ++ String.concat ","
                     (map (fun x => match stringify allow x with
                                    | Some s => s
                                    | None => "null"
                                    end) l) ++ "]")
  | JObj ps =>
      let rendered :=
        (fix go (ps : list (string * jsval)) : list (string * option string) :=
           match ps with
           | [] => []
           | (k, x) :: r => (k, stringify allow x) :: go r
           end) ps in
      let keys :=
        match allow with
        | Some ks => dedup [] ks
        | None => dedup [] (map fst ps)
        end in
      let member k :=
        match lookup k rendered with
        | Some (Some s) => [quote k ++ ":" ++ s]
        | _ => []
        end in
      Some ("{" ++ String.concat "," (flat_map member keys) ++ "}")
  end.

(** *** Array helpers *)

(** [a.slice(-n)]. *)
Definition slice_last {A : Type} (n : nat) (l : list A) : list A :=
  skipn (List.length l - n) l.

(** [a.slice(start, stop)]; a negative index counts from the end. *)
Definition slice {A : Type} (start stop : Z) (l : list A) : list A :=
  let len := Z.of_nat (List.length l) in
  let k := if (start <? 0)%Z then Z.max (len + start) 0 else Z.min start len in
  let final := if (stop <? 0)%Z then Z.max (len + stop) 0 else Z.min stop len in
  firstn (Z.to_nat (final - k)) (skipn (Z.to_nat k) l).

(** [s.split(c)] for a one-character separator. *)
Fixpoint split_on (c : ascii) (s : string) : list string :=
  match s with
  | EmptyString => [EmptyString]
  | String x r =>
      if Ascii.eqb x c then EmptyString :: split_on c r
      else match split_on c r with
           | [] => [String x EmptyString]
           | part :: parts => String x part :: parts
           end
  end.

Section WithEngine2.
Context {E : Engine}.

(** The default comparator of [Array.prototype.sort] on two values that are
    not [undefined]: is [x] allowed to stay in front of [y]. *)
Definition sort_le (x y : jsval) : bool :=
  match x, y with
  | JUndefined, JUndefined => true
  | JUndefined, _ => false
  | _, JUndefined => true
  | _, _ => String.leb (ToString x) (ToString y)
  end.

Fixpoint sort_insert (x : jsval) (l : list jsval) : list jsval :=
  match l with
  | [] => [x]
  | y :: r => if sort_le y x then y :: sort_insert x r else x :: l
  end.

(** [a.sort()]: stable, by the string conversions, [undefined] last. *)
Definition sort (l : list jsval) : list jsval :=
  fold_left (fun acc x => sort_insert x acc) l [].

End WithEngine2.

End JS.

(* ================================================================= *)
(** ** MD5 (RFC 1321), as computed by [crypto.createHash('md5')] *)

Module MD5.
Local Open Scope Z_scope.

Definition wrap (x : Z) : Z := x mod 4294967296.
Definition add32 (a b : Z) : Z := wrap (a + b).
Definition not32 (a : Z) : Z := Z.lxor a 4294967295.
Definition rotl32 (x c : Z) : Z :=
  Z.lor (wrap (Z.shiftl x c)) (Z.shiftr x (32 - c)).

Definition K : list Z :=
  [ 0xd76aa478; 0xe8c7b756; 0x242070db; 0xc1bdceee;
    0xf57c0faf; 0x4787c62a; 0xa8304613; 0xfd469501;
    0x698098d8; 0x8b44f7af; 0xffff5bb1; 0x895cd7be;
    0x6b901122; 0xfd987193; 0xa679438e; 0x49b40821;
    0xf61e2562; 0xc040b340; 0x265e5a51; 0xe9b6c7aa;
    0xd62f105d; 0x02441453; 0xd8a1e681; 0xe7d3fbc8;
    0x21e1cde6; 0xc33707d6; 0xf4d50d87; 0x455a14ed;
    0xa9e3e905; 0xfcefa3f8; 0x676f02d9; 0x8d2a4c8a;
    0xfffa3942; 0x8771f681; 0x6d9d6122; 0xfde5380c;
    0xa4beea44; 0x4bdecfa9; 0xf6bb4b60; 0xbebfbc70;
    0x289b7ec6; 0xeaa127fa; 0xd4ef3085; 0x04881d05;
    0xd9d4d039; 0xe6db99e5; 0x1fa27cf8; 0xc4ac5665;
    0xf4292244; 0x432aff97; 0xab9423a7; 0xfc93a039;
    0x655b59c3; 0x8f0ccc92; 0xffeff47d; 0x85845dd1;
    0x6fa87e4f; 0xfe2ce6e0; 0xa3014314; 0x4e0811a1;
    0xf7537e82; 0xbd3af235; 0x2ad7d2bb; 0xeb86d391 ].

Definition shifts : list Z :=
  [ 7; 12; 17; 22; 7; 12; 17; 22; 7; 12; 17; 22; 7; 12; 17; 22;
    5; 9; 14; 20; 5; 9; 14; 20; 5; 9; 14; 20; 5; 9; 14; 20;
    4; 11; 16; 23; 4; 11; 16; 23; 4; 11; 16; 23; 4; 11; 16; 23;
    6; 10; 15; 21; 6; 10; 15; 21; 6; 10; 15; 21; 6; 10; 15; 21 ].

Record state : Type := mkState { sA : Z; sB : Z; sC : Z; sD : Z }.

Definition init : state :=
  mkState 0x67452301 0xefcdab89 0x98badcfe 0x10325476.

(** One of the 64 operations on the block [M] of sixteen words. *)
Definition step (M : list Z) (st : state) (i : nat) : state :=
  let '(mkState a b c d) := st in
  let iz := Z.of_nat i in
  let '(f, g) :=
    if iz <? 16 then (Z.lor (Z.land b c) (Z.land (not32 b) d), iz)
    else if iz <? 32 then
      (Z.lor (Z.land d b) (Z.land (not32 d) c), (5 * iz + 1) mod 16)
    else if iz <? 48 then (Z.lxor b (Z.lxor c d), (3 * iz + 5) mod 16)
    else (Z.lxor c (Z.lor b (not32 d)), (7 * iz) mod 16) in
  let f' := add32 (add32 (add32 f a) (nth i K 0)) (nth (Z.to_nat g) M 0) in
  mkState d (add32 b (rotl32 f' (nth i shifts 0))) b c.

Definition block (st : state) (M : list Z) : state :=
  let st' := fold_left (step M) (seq 0 64) st in
  mkState (add32 (sA st) (sA st')) (add32 (sB st) (sB st'))
          (add32 (sC st) (sC st')) (add32 (sD st) (sD st')).

(** Little-endian bytes of a number. *)
Fixpoint le_bytes (n : nat) (x : Z) : list Z :=
  match n with
  | O => []
  | S n' => (x mod 256) :: le_bytes n' (x / 256)
  end.

Definition padding (len : nat) : list Z :=
  let zeros := Z.to_nat ((55 - Z.of_nat len) mod 64) in
  ((128 :: repeat 0 zeros)
   ++ le_bytes 8 ((8 * Z.of_nat len) mod 18446744073709551616))%list.

Fixpoint words (fuel : nat) (bs : list Z) : list Z :=
  match fuel, bs with
  | S f, b0 :: b1 :: b2 :: b3 :: r =>
      (b0 + 256 * b1 + 65536 * b2 + 16777216 * b3) :: words f r
  | _, _ => []
  end.

Fixpoint blocks (fuel : nat) (ws : list Z) : list (list Z) :=
  match fuel, ws with
  | S f, _ :: _ => firstn 16 ws :: blocks f (skipn 16 ws)
  | _, _ => []
  end.

Definition digest_bytes (msg : list Z) : list Z :=
  let padded := (msg ++ padding (List.length msg))%list in
  let ws := words (List.length padded) padded in
  let st := fold_left block (blocks (List.length ws) ws) init in
  (le_bytes 4 (sA st) ++ le_bytes 4 (sB st)
   ++ le_bytes 4 (sC st) ++ le_bytes 4 (sD st))%list.

(** [crypto.createHash('md5').update(s).digest('hex')]. *)
Definition md5_hex (s : string) : string :=
  String.concat EmptyString
    (map JS.hex2 (digest_bytes (map JS.code (list_ascii_of_string s)))).

End MD5.

(* ================================================================= *)
(** ** The logger *)

Module Logger.

Inductive Level : Type := Log_info | Log_warn | Log_error.

(** One call [logger.<level>(arg1, arg2, ...)] with its arguments as text. *)
Record Line : Type := mkLine { level : Level; args : list string }.

Definition info (msg : string) : Line := mkLine Log_info [msg].
Definition warn (msg : string) : Line := mkLine Log_warn [msg].
Definition error (msg detail : string) : Line := mkLine Log_error [msg; detail].

End Logger.

(* ================================================================= *)
(** ** src/services/changeDetectionService.js *)

Module ChangeDetectionService.
Import JS.

Inductive Priority : Type := none | low | medium | high | urgent.

Inductive ChangeType : Type :=
| date_change | array_change | status_change | general_change.

(** The object built by [compareField]. *)
Record FieldChange : Type := mkFieldChange {
  hasChange : bool;
  oldValue : jsval;
  newValue : jsval;
  changeType : option ChangeType;
  description : string
}.

(** The object built by [detectChanges]. *)
Record ChangeSet : Type := mkChangeSet {
  hasChanges : bool;
  hasCriticalChanges : bool;
  changedFields : list string;
  criticalChanges : list string;
  detailedChanges : list (string * FieldChange);
  changesSummary : string;
  notificationPriority : Priority;
  newDataHash : jsval;
  oldDataHash : jsval
}.

Definition significantFields : list string :=
  [ "caseStatus"; "nextHearingDate"; "firstHearingDate"; "stageOfCase";
    "coram"; "orderDetails"; "listingHistory"; "iaApplications" ].

Definition criticalFields : list string :=
  [ "caseStatus"; "nextHearingDate"; "stageOfCase" ].

(** [a.includes(x)] on an array of strings. *)
Definition includes (a : list string) (x : string) : bool :=
  existsb (String.eqb x) a.

Section WithEngine.
Context {E : Engine}.

(** [normalizeDate]: [None] is [null], [Some t] a Date with time value [t]. *)
Definition normalizeDate (date : jsval) : option (option Z) :=
  if negb (truthy date) then None
  else if instanceof_Date date then
    match date with JDate t => Some t | _ => None end
  else
    match new_Date date with
    | None => None
    | Some t => Some (Some t)
    end.

Definition compareDates (oldDate newDate : jsval) : bool :=
  let old := normalizeDate oldDate in
  let newD := normalizeDate newDate in
  match old, newD with
  | None, None => false
  | None, Some _ | Some _, None => true
  | Some a, Some b =>
      (* [old.getTime() !== newD.getTime()], NaN being unequal to itself *)
      match a, b with
      | Some x, Some y => negb (x =? y)%Z
      | _, _ => true
      end
  end.

Definition compareStrings (oldStr newStr : jsval) : bool :=
  let old := toLowerCase (trim (ToString (if truthy oldStr then oldStr else JStr EmptyString))) in
  let newS := toLowerCase (trim (ToString (if truthy newStr then newStr else JStr EmptyString))) in
  negb (String.eqb old newS).

Definition compareArrays (oldArray newArray : jsval) : bool :=
  let oldArray := match oldArray with JArr l => l | _ => [] end in
  let newArray := match newArray with JArr l => l | _ => [] end in
  if negb (List.length oldArray =? List.length newArray)%nat then true
  else (List.length oldArray <? List.length newArray)%nat.

Definition formatDate (date : jsval) : string :=
  match normalizeDate date with
  | None => "Not set"
  | Some None => "Invalid Date"
  | Some (Some t) => Date_toLocaleDateString t
  end.

Definition compareField (fieldName : string) (oldValue newValue : jsval)
  : FieldChange :=
  let result (c : bool) (ty : ChangeType) (d : string) :=
    if c then mkFieldChange true oldValue newValue (Some ty) d
    else mkFieldChange false oldValue newValue None EmptyString in
  let oldValue := if nullish oldValue then JStr EmptyString else oldValue in
  let newValue := if nullish newValue then JStr EmptyString else newValue in
  if String.eqb fieldName "nextHearingDate"
     || String.eqb fieldName "firstHearingDate" then
    result (compareDates oldValue newValue) date_change
      (fieldName ++ " changed from " ++ formatDate oldValue
       ++ " to " ++ formatDate newValue)
  else if String.eqb fieldName "listingHistory" then
    result (compareArrays oldValue newValue) array_change
      "New entries added to listing history"
  else if String.eqb fieldName "iaApplications" then
    result (compareArrays oldValue newValue) array_change
      "IA applications updated"
  else if String.eqb fieldName "caseStatus"
          || String.eqb fieldName "stageOfCase"
          || String.eqb fieldName "coram" then
    result (compareStrings oldValue newValue) status_change
      (fieldName ++ " changed from " ++ dquote ++ ToString oldValue ++ dquote
       ++ " to " ++ dquote ++ ToString newValue ++ dquote)
  else
    result (compareStrings oldValue newValue) general_change
      (fieldName ++ " has been updated").

Definition determineNotificationPriority (changes : ChangeSet) : Priority :=
  if negb (hasChanges changes) then none
  else if hasCriticalChanges changes then
    if includes (criticalChanges changes) "nextHearingDate" then urgent
    else if includes (criticalChanges changes) "caseStatus" then high
    else high
  else if includes (changedFields changes) "listingHistory" then medium
  else low.

Definition describe (changes : ChangeSet) (field : string) : string :=
  match lookup field (detailedChanges changes) with
  | Some change => description change
  | None => EmptyString
  end.

Definition generateChangesSummary (changes : ChangeSet) : string :=
  if negb (hasChanges changes) then "No changes detected"
  else
    let critical :=
      if hasCriticalChanges changes
      then map (fun field => "🔴 " ++ describe changes field)
               (criticalChanges changes)
      else [] in
    let others :=
      map (fun field => "🔵 " ++ describe changes field)
          (filter (fun field => negb (includes (criticalChanges changes) field))
                  (changedFields changes)) in
    String.concat newline (critical ++ others)%list.

(** The value stored under a significant field before hashing. *)
Definition normalizeValue (value : jsval) : Result jsval :=
  match value with
  | JDate None => Throw (RangeError "Invalid time value")
  | JDate (Some t) => Ok (JStr (toISOString t))
  | JArr items =>
      Ok (JArr (sort (map (fun item =>
                             if typeof_object item then
                               match stringify None item with
                               | Some s => JStr s
                               | None => JUndefined
                               end
                             else item) items)))
  | JStr s => Ok (JStr (toLowerCase (trim s)))
  | _ => Ok value
  end.

Fixpoint normalizeFields (caseData : jsval) (fields : list string)
  : Result (list (string * jsval)) :=
  match fields with
  | [] => Ok []
  | field :: rest =>
      match getField caseData field with
      | Throw e => Throw e
      | Ok value =>
          match normalizeValue value with
          | Throw e => Throw e
          | Ok value' =>
              match normalizeFields caseData rest with
              | Throw e => Throw e
              | Ok r => Ok ((field, value') :: r)
              end
          end
      end
  end.

(** [Object.keys(o).sort()]. *)
Definition sorted_keys (props : list (string * jsval)) : list string :=
  map ToString (sort (map (fun p => JStr (fst p)) props)).

(** The string handed to the digest, or the exception that is caught. *)
Definition dataString (caseData : jsval) : Result string :=
  match normalizeFields caseData significantFields with
  | Throw e => Throw e
  | Ok normalizedData =>
      match stringify (Some (sorted_keys normalizedData)) (JObj normalizedData) with
      | Some s => Ok s
      | None => Throw (TypeError "The data argument must be of type string")
      end
  end.

(** [generateDataHash], with the line it logs when it catches. *)
Definition generateDataHash (caseData : jsval) : list Logger.Line * string :=
  match dataString caseData with
  | Ok s => ([], MD5.md5_hex s)
  | Throw e =>
      ([Logger.error "Error generating data hash:" (emessage e)], EmptyString)
  end.

(** The body of the [for] loop of [detectChanges] for one field. *)
Definition recordField (changes : ChangeSet) (field : string)
  (fieldChange : FieldChange) : ChangeSet :=
  if hasChange fieldChange then
    let critical := includes criticalFields field in
    mkChangeSet true
      (if critical then true else hasCriticalChanges changes)
      (changedFields changes ++ [field])%list
      (if critical then (criticalChanges changes ++ [field])%list
       else criticalChanges changes)
      (detailedChanges changes ++ [(field, fieldChange)])%list
      (changesSummary changes) (notificationPriority changes)
      (newDataHash changes) (oldDataHash changes)
  else changes.

Fixpoint compareFields (oldCaseData newCaseData : jsval)
  (fields : list string) (changes : ChangeSet) : Result ChangeSet :=
  match fields with
  | [] => Ok changes
  | field :: rest =>
      match getField oldCaseData field with
      | Throw e => Throw e
      | Ok oldValue =>
          match getField newCaseData field with
          | Throw e => Throw e
          | Ok newValue =>
              compareFields oldCaseData newCaseData rest
                (recordField changes field
                   (compareField field oldValue newValue))
          end
      end
  end.

Definition initialChanges : ChangeSet :=
  mkChangeSet false false [] [] [] EmptyString low JUndefined JUndefined.

Definition bool_text (b : bool) : string := if b then "true" else "false".

(** [detectChanges]: the lines it logs and its result. *)
Definition detectChanges (oldCaseData newCaseData : jsval)
  : list Logger.Line * Result ChangeSet :=
  match compareFields oldCaseData newCaseData significantFields initialChanges with
  | Throw e => ([Logger.error "Error in change detection:" (emessage e)], Throw e)
  | Ok changes =>
      let priority := determineNotificationPriority changes in
      let changes1 :=
        mkChangeSet (hasChanges changes) (hasCriticalChanges changes)
          (changedFields changes) (criticalChanges changes)
          (detailedChanges changes) (changesSummary changes) priority
          JUndefined JUndefined in
      let summary := generateChangesSummary changes1 in
      let '(log_new, hash_new) := generateDataHash newCaseData in
      match getField oldCaseData "dataHash" with
      | Throw e =>
          (log_new ++ [Logger.error "Error in change detection:" (emessage e)],
           Throw e)%list
      | Ok stored =>
          let '(log_old, hash_old) :=
            if truthy stored then ([], stored)
            else let '(l, h) := generateDataHash oldCaseData in (l, JStr h) in
          (log_new ++ log_old
           ++ [Logger.info ("Change detection completed for case. Changes found: "
                            ++ bool_text (hasChanges changes))],
           Ok (mkChangeSet (hasChanges changes) (hasCriticalChanges changes)
                 (changedFields changes) (criticalChanges changes)
                 (detailedChanges changes) summary priority
                 (JStr hash_new) hash_old))%list
      end
  end.

(** [validateInput], with the line it logs; no function of the repository
    calls it. *)
Definition validateInput (oldData newData : jsval) : list Logger.Line * bool :=
  if negb (truthy oldData) || negb (truthy newData) then
    ([Logger.warn "Invalid input for change detection: missing data"], false)
  else if negb (typeof_object oldData) || negb (typeof_object newData) then
    ([Logger.warn "Invalid input for change detection: data must be objects"],
     false)
  else ([], true).

Definition requiresImmediateNotification (changes : ChangeSet) : bool :=
  match notificationPriority changes with
  | urgent | high => true
  | _ => false
  end.

(** [getNotificationDelay], in minutes, on the priorities [detectChanges]
    produces. *)
Definition getNotificationDelay (priority : Priority) : Z :=
  match priority with
  | urgent => 0
  | high => 5
  | medium => 30
  | low => 120
  | none => 0
  end.

End WithEngine.

End ChangeDetectionService.

(* ================================================================= *)
(** ** The Case model's [generateDataHash] method *)

Module CaseModel.
Import JS.

(** [v?.slice(-5)]. *)
Definition optional_slice_last5 (v : jsval) : Result jsval :=
  match v with
  | JUndefined | JNull => Ok JUndefined
  | JArr items => Ok (JArr (slice_last 5 items))
  | JStr s =>
      Ok (JStr (string_of_list_ascii (slice_last 5 (list_ascii_of_string s))))
  | _ => Throw (TypeError "this.listingHistory?.slice is not a function")
  end.

(** The object literal that is serialised. *)
Definition hashedObject (this : jsval) : Result jsval :=
  match getField this "caseStatus", getField this "nextHearingDate",
        getField this "stageOfCase", getField this "coram",
        getField this "iaApplications", getField this "listingHistory" with
  | Ok caseStatus, Ok nextHearingDate, Ok stageOfCase, Ok coram,
    Ok iaApplications, Ok listingHistory =>
      match optional_slice_last5 listingHistory with
      | Ok recent =>
          Ok (JObj [ ("caseStatus", caseStatus);
                     ("nextHearingDate", nextHearingDate);
                     ("stageOfCase", stageOfCase);
                     ("coram", coram);
                     ("iaApplications", iaApplications);
                     ("listingHistory", recent) ])
      | Throw e => Throw e
      end
  | Throw e, _, _, _, _, _ => Throw e
  | _, Throw e, _, _, _, _ => Throw e
  | _, _, Throw e, _, _, _ => Throw e
  | _, _, _, Throw e, _, _ => Throw e
  | _, _, _, _, Throw e, _ => Throw e
  | _, _, _, _, _, Throw e => Throw e
  end.

Definition generateDataHash (this : jsval) : Result string :=
  match hashedObject this with
  | Throw e => Throw e
  | Ok o =>
      match stringify None o with
      | Some s => Ok (MD5.md5_hex s)
      | None => Throw (TypeError "The data argument must be of type string")
      end
  end.

(** *** [detectAndRecordChanges] *)

(** One element of [changeHistory]. *)
Record HistoryEntry : Type := mkHistoryEntry {
  field : string;
  oldValue : jsval;
  newValue : jsval;
  changedAt : Z
}.

(** The parts of a Case document that the method reads or writes: the data
    fields (read as [this[field]]), [changeHistory], [dataHash] and
    [previousDataHash]. *)
Record Document : Type := mkDocument {
  data : jsval;
  changeHistory : list HistoryEntry;
  dataHash : jsval;
  previousDataHash : jsval
}.

Definition fieldsToCheck : list string :=
  [ "caseStatus"; "nextHearingDate"; "stageOfCase"; "coram";
    "iaApplications"; "listingHistory" ].

(** [JSON.stringify(a) !== JSON.stringify(b)]. *)
Definition serialised_differently (a b : jsval) : bool :=
  match stringify None a, stringify None b with
  | Some s, Some t => negb (String.eqb s t)
  | None, None => false
  | _, _ => true
  end.

(** The [forEach] over [fieldsToCheck]; [t] is the time of [new Date()]. *)
Fixpoint collectChanges (this newData : jsval) (t : Z) (fields : list string)
  (changes : list HistoryEntry) : Result (list HistoryEntry) :=
  match fields with
  | [] => Ok changes
  | f :: rest =>
      match getField this f with
      | Throw e => Throw e
      | Ok old =>
          match getField newData f with
          | Throw e => Throw e
          | Ok new =>
              collectChanges this newData t rest
                (if serialised_differently old new
                 then (changes ++ [mkHistoryEntry f old new t])%list
                 else changes)
          end
      end
  end.

(** [detectAndRecordChanges(newData)]: the returned changes and the
    document afterwards. *)
Definition detectAndRecordChanges (this : Document) (newData : jsval) (t : Z)
  : Result (list HistoryEntry * Document) :=
  match collectChanges (data this) newData t fieldsToCheck [] with
  | Throw e => Throw e
  | Ok changes =>
      if (0 <? List.length changes)%nat then
        let history := (changeHistory this ++ changes)%list in
        let history :=
          if (50 <? List.length history)%nat then slice_last 50 history
          else history in
        Ok (changes, mkDocument (data this) history (dataHash this) (dataHash this))
      else Ok (changes, this)
  end.

End CaseModel.

(* ================================================================= *)
(** ** A reference engine

    One concrete host: time zone UTC, [Date.parse] restricted to the two
    ISO 8601 shapes every engine must accept ([YYYY-MM-DD] and
    [YYYY-MM-DDTHH:mm:ss.sssZ]), and [trim] and [toLowerCase] on ASCII text.
    It instantiates the general statements at concrete inputs. *)

Module ReferenceEngine.
Import JS.
Local Open Scope Z_scope.

Definition is_digit (c : ascii) : bool := (48 <=? code c) && (code c <=? 57).

Fixpoint number_of (cs : list ascii) (acc : Z) : option Z :=
  match cs with
  | [] => Some acc
  | c :: r => if is_digit c then number_of r (10 * acc + (code c - 48)) else None
  end.

Definition field (i n : nat) (cs : list ascii) : option Z :=
  let part := firstn n (skipn i cs) in
  if (List.length part =? n)%nat then number_of part 0 else None.

Definition char_is (i : nat) (c : ascii) (cs : list ascii) : bool :=
  match nth_error cs i with
  | Some c' => Ascii.eqb c c'
  | None => false
  end.

Definition is_leap (y : Z) : bool :=
  ((y mod 4 =? 0) && negb (y mod 100 =? 0)) || (y mod 400 =? 0).

Definition days_in_month (y m : Z) : Z :=
  if m =? 2 then (if is_leap y then 29 else 28)
  else if (m =? 4) || (m =? 6) || (m =? 9) || (m =? 11) then 30
  else 31.

Definition parse_date (cs : list ascii) : option Z :=
  match field 0 4 cs, field 5 2 cs, field 8 2 cs with
  | Some y, Some m, Some d =>
      if char_is 4 "-" cs && char_is 7 "-" cs
         && (1 <=? m) && (m <=? 12) && (1 <=? d) && (d <=? days_in_month y m)
      then Some (days_from_civil y m d * msPerDay)
      else None
  | _, _, _ => None
  end.

Definition parse_time (cs : list ascii) : option Z :=
  match field 11 2 cs, field 14 2 cs, field 17 2 cs, field 20 3 cs with
  | Some h, Some mi, Some s, Some ms =>
      if char_is 10 "T" cs && char_is 13 ":" cs && char_is 16 ":" cs
         && char_is 19 "." cs && char_is 23 "Z" cs
         && (h <=? 23) && (mi <=? 59) && (s <=? 59)
      then Some (h * 3600000 + mi * 60000 + s * 1000 + ms)
      else None
  | _, _, _, _ => None
  end.

Definition parse (s : string) : option Z :=
  let cs := list_ascii_of_string s in
  if (List.length cs =? 10)%nat then parse_date cs
  else if (List.length cs =? 24)%nat then
    match parse_date (firstn 10 cs), parse_time cs with
    | Some d, Some t => Some (d + t)
    | _, _ => None
    end
  else None.

Definition weekdays : list string :=
  [ "Sun"; "Mon"; "Tue"; "Wed"; "Thu"; "Fri"; "Sat" ].

Definition months : list string :=
  [ "Jan"; "Feb"; "Mar"; "Apr"; "May"; "Jun";
    "Jul"; "Aug"; "Sep"; "Oct"; "Nov"; "Dec" ].

Definition date_toString (t : Z) : string :=
  let days := t / msPerDay in
  let ms := t mod msPerDay in
  let '(y, m, d) := civil_from_days days in
  String.concat " "
    [ nth (Z.to_nat ((days + 4) mod 7)) weekdays EmptyString;
      nth (Z.to_nat (m - 1)) months EmptyString;
      pad2 d;
      year_string y;
      String.concat ":" [ pad2 (ms / 3600000); pad2 (ms / 60000 mod 60);
                          pad2 (ms / 1000 mod 60) ];
      "GMT+0000 (Coordinated Universal Time)" ].

Definition date_toLocaleDateString (t : Z) : string :=
  let '(y, m, d) := civil_from_days (t / msPerDay) in
  String.concat "/" [ pad2 d; pad2 m; Z_to_string y ].

(** Indian Standard Time is UTC+05:30. *)
Definition date_toLocaleString (t : Z) : string :=
  let local := t + 19800000 in
  let ms := local mod msPerDay in
  let h := ms / 3600000 in
  let '(y, m, d) := civil_from_days (local / msPerDay) in
  String.concat EmptyString
    [ String.concat "/" [ Z_to_string d; Z_to_string m; Z_to_string y ]; ", ";
      String.concat ":" [ Z_to_string (if h mod 12 =? 0 then 12 else h mod 12);
                          pad2 (ms / 60000 mod 60); pad2 (ms / 1000 mod 60) ];
      if h <? 12 then " am" else " pm" ].

Definition is_space (c : ascii) : bool :=
  ((9 <=? code c) && (code c <=? 13)) || (code c =? 32).

Fixpoint drop_spaces (cs : list ascii) : list ascii :=
  match cs with
  | c :: r => if is_space c then drop_spaces r else cs
  | [] => []
  end.

Definition ascii_trim (s : string) : string :=
  string_of_list_ascii
    (rev (drop_spaces (rev (drop_spaces (list_ascii_of_string s))))).

Definition lower_char (c : ascii) : ascii :=
  if (65 <=? code c) && (code c <=? 90)
  then ascii_of_N (Z.to_N (code c + 32)) else c.

Definition ascii_toLowerCase (s : string) : string :=
  string_of_list_ascii (map lower_char (list_ascii_of_string s)).

Definition utc_engine : Engine :=
  {| Date_parse := parse;
     Date_toString := date_toString;
     Date_toLocaleDateString := date_toLocaleDateString;
     Date_toLocaleString := date_toLocaleString;
     trim := ascii_trim;
     toLowerCase := ascii_toLowerCase |}.

End ReferenceEngine.

(* ================================================================= *)
(** ** Computations: state, exceptions and divergence *)

Module Comp.
Import JS.

(** A computation over a state [S]: [None] when it does not terminate,
    otherwise its result (a value or an exception) and the final state. *)
Definition M (S A : Type) : Type := S -> option (Result A * S).

Definition ret {S A} (a : A) : M S A := fun s => Some (Ok a, s).
Definition throw {S A} (e : Exn) : M S A := fun s => Some (Throw e, s).
Definition diverge {S A} : M S A := fun _ => None.

Definition bind {S A B} (m : M S A) (k : A -> M S B) : M S B :=
  fun s =>
    match m s with
    | None => None
    | Some (Ok a, s') => k a s'
    | Some (Throw e, s') => Some (Throw e, s')
    end.

(** [try { m } catch (error) { handler(error) }]. *)
Definition try_catch {S A} (m : M S A) (handler : Exn -> M S A) : M S A :=
  fun s =>
    match m s with
    | None => None
    | Some (Ok a, s') => Some (Ok a, s')
    | Some (Throw e, s') => handler e s'
    end.

(** [try { m } finally { final }]: [final] runs on every exit of [m]; an
    exception of [final] replaces the result of [m]. *)
Definition try_finally {S A} (m : M S A) (final : M S unit) : M S A :=
  fun s =>
    match m s with
    | None => None
    | Some (r, s') =>
        match final s' with
        | None => None
        | Some (Ok _, s'') => Some (r, s'')
        | Some (Throw e, s'') => Some (Throw e, s'')
        end
    end.

Definition get {S} : M S S := fun s => Some (Ok s, s).
Definition modify {S} (f : S -> S) : M S unit := fun s => Some (Ok tt, f s).

Definition of_result {S A} (r : Result A) : M S A :=
  match r with Ok a => ret a | Throw e => throw e end.

(** A block with a local mutable variable of type [L]. *)
Definition lift {S L A} (m : M S A) : M (L * S) A :=
  fun ls =>
    match m (snd ls) with
    | None => None
    | Some (r, s') => Some (r, (fst ls, s'))
    end.

Definition local {S L} : M (L * S) L := fun ls => Some (Ok (fst ls), ls).

Definition set_local {S L} (f : L -> L) : M (L * S) unit :=
  fun ls => Some (Ok tt, (f (fst ls), snd ls)).

Definition with_local {S L A} (init : L) (m : M (L * S) A) : M S A :=
  fun s =>
    match m (init, s) with
    | None => None
    | Some (r, ls) => Some (r, snd ls)
    end.

Declare Scope comp_scope.
Delimit Scope comp_scope with comp.
Notation "x <- m ;; k" := (bind m (fun x => k))
  (at level 61, m at next level, right associativity) : comp_scope.
Notation "m ;; k" := (bind m (fun _ => k))
  (at level 61, right associativity) : comp_scope.

End Comp.

(* ================================================================= *)
(** ** Documents, external calls and the world *)

Module Domain.
Import JS.

Definition Id : Type := string.

(** A Case document as [getCasesToCheck] returns it. *)
Record CaseDoc : Type := mkCaseDoc {
  _id : Id;
  cino : string;
  caseNumber : jsval;
  dataHash : jsval;
  (** the result of [caseDoc.toObject()] *)
  toObject : jsval
}.

Record User : Type := mkUser {
  user_id : Id;
  name : jsval;
  mobileNumber : string;
  isActive : bool
}.

(** A UserCase document with [userId] populated ([None] is [null]). *)
Record Subscription : Type := mkSubscription {
  subscription_id : Id;
  userId : option User;
  alias : jsval
}.

(** The object returned by [processCase] for a changed case. *)
Record ChangeData : Type := mkChangeData {
  caseId : Id;
  changed_cino : string;
  changed_caseNumber : jsval;
  changes : ChangeDetectionService.ChangeSet;
  updatedCase : jsval
}.

(** The update document of [updateCaseWithChanges]. *)
Record UpdateData : Type := mkUpdateData {
  newCaseData : jsval;
  previousDataHash : jsval;
  new_dataHash : jsval;
  lastUpdated : Z;
  history_timestamp : Z;
  history_changes : list string;
  history_summary : string;
  history_priority : ChangeDetectionService.Priority
}.

(** The object returned by [whatsappService.sendMessage]. *)
Record SendResult : Type := mkSendResult {
  send_success : bool;
  send_error : option string;
  recipients : list string;
  response : jsval
}.

(** The object returned by [sendPersonalizedNotification]. *)
Record NotificationOutcome : Type := mkOutcome {
  outcome_userId : Id;
  outcome_mobileNumber : string;
  outcome_cino : string;
  success : bool;
  messageId : jsval;
  error : option string;
  timestamp : Z
}.

(** The calls that leave the process, indexed by what they return:
    Mongoose queries and updates, the court API client and the HTTP client. *)
Inductive Call : Type -> Type :=
| Case_find_due (cutoffTime : Z) : Call (list CaseDoc)
| UserCase_distinct_cino : Call (list string)
| Case_find_subscribed (activeCinos : list string) (excluded : list Id)
  : Call (list CaseDoc)
| fetchSingleCase (cino : string) : Call jsval
| Case_recordApiCheck (id : Id) (lastApiCheck : Z) : Call unit
| Case_applyChanges (id : Id) (updateData : UpdateData) : Call jsval
| UserCase_find_active (cino : string) : Call (list Subscription)
| UserCase_recordNotification (id : Id) (lastNotificationSent : Z) (inc : Z)
  : Call unit
| Case_recordNotification (id : Id) (lastNotificationSent : Z) (inc : Z)
  : Call unit
| axios_post (url : string) (apiKey : string) (numbers : list string)
    (message : string) : Call jsval.

Inductive Event : Type :=
| Logged (line : Logger.Line)
| Delayed (ms : Z)
| Called {R : Type} (c : Call R).

Inductive RunStatus : Type := run_success | run_error.

(** The fields of the MonitoringService instance that a cycle reads or
    writes. *)
Record Service : Type := mkService {
  isRunning : bool;
  lastRunTime : option Z;
  lastRunStatus : option RunStatus;
  runCount : Z;
  errorCount : Z;
  batchSize : Z;
  apiDelay : Z
}.

(** The environment variables read by the two services. *)
Record Env : Type := mkEnv {
  WHATSAPP_API_KEY : option string;
  ADMIN_WHATSAPP_NUMBERS : option string
}.

(** What lies outside the process, over a state [Ext] of its own: the answer
    to every call (which may be an exception), the clock and the
    environment. *)
Record Collaborators (Ext : Type) : Type := mkCollaborators {
  answer : forall R, Call R -> Ext -> Result R * Ext;
  clock : Ext -> Z;
  env : Env
}.
Arguments answer {Ext} _ {R} _ _.
Arguments clock {Ext} _ _.
Arguments env {Ext} _.

Record World (Ext : Type) : Type := mkWorld {
  service : Service;
  ext : Ext;
  trace : list Event
}.
Arguments mkWorld {Ext} _ _ _.
Arguments service {Ext} _.
Arguments ext {Ext} _.
Arguments trace {Ext} _.

Section Primitives.
Context {Ext : Type} (C : Collaborators Ext).
Import Comp.

Definition emit (e : Event) : M (World Ext) unit :=
  modify (fun w => mkWorld (service w) (ext w) (trace w ++ [e])).

Definition log (line : Logger.Line) : M (World Ext) unit := emit (Logged line).

(** [await this.delay(ms)]. *)
Definition delay (ms : Z) : M (World Ext) unit := emit (Delayed ms).

(** [Date.now()], the time value of [new Date()]. *)
Definition now : M (World Ext) Z := fun w => Some (Ok (clock C (ext w)), w).

(** An awaited external call. *)
Definition call {R : Type} (c : Call R) : M (World Ext) R :=
  fun w =>
    let '(r, x) := answer C c (ext w) in
    Some (r, mkWorld (service w) x (trace w ++ [Called c])).

Definition this : M (World Ext) Service :=
  fun w => Some (Ok (service w), w).

Definition update_this (f : Service -> Service) : M (World Ext) unit :=
  modify (fun w => mkWorld (f (service w)) (ext w) (trace w)).

End Primitives.

End Domain.

(* ================================================================= *)
(** ** src/services/whatsappService.js *)

Module WhatsAppService.
Import JS Comp Domain.
Local Open Scope comp_scope.

Definition apiUrl : string := "http://198.38.87.182/api/whatsapp/send-bulk".

Definition is_digit (c : ascii) : bool :=
  ((48 <=? code c) && (code c <=? 57))%Z.

Definition starts_with (p s : string) : bool := String.prefix p s.

(** [/^91[6-9]\d{9}$/.test(s)] on a string of digits. *)
Definition indian_mobile (s : string) : bool :=
  (String.length s =? 12)%nat && starts_with "91" s
  && match String.get 2 s with
     | Some c => ((54 <=? code c) && (code c <=? 57))%Z
     | None => false
     end
  && forallb is_digit (list_ascii_of_string s).

Definition validatePhoneNumber (phoneNumber : string) : Result string :=
  if String.eqb phoneNumber EmptyString then
    Throw (Error "Phone number is required")
  else
    let cleanNumber :=
      string_of_list_ascii (filter is_digit (list_ascii_of_string phoneNumber)) in
    let cleanNumber :=
      if negb (starts_with "91" cleanNumber)
         && (String.length cleanNumber =? 10)%nat
      then "91" ++ cleanNumber else cleanNumber in
    if negb (indian_mobile cleanNumber) then
      Throw (Error ("Invalid phone number format: " ++ phoneNumber))
    else Ok cleanNumber.

(** [numbersArray.map(number => this.validatePhoneNumber(number))]. *)
Fixpoint validateAll (numbers : list string) : Result (list string) :=
  match numbers with
  | [] => Ok []
  | number :: rest =>
      match validatePhoneNumber number with
      | Throw e => Throw e
      | Ok clean =>
          match validateAll rest with
          | Throw e => Throw e
          | Ok r => Ok (clean :: r)
          end
      end
  end.

Section WithCollaborators.
Context {Ext : Type} (C : Collaborators Ext).

(** [sendMessage(numbers, message)] on an array of numbers. *)
Definition sendMessage (numbers : list string) (message : string)
  : M (World Ext) SendResult :=
  match WHATSAPP_API_KEY (env C) with
  | None => throw (Error "WhatsApp API key not configured")
  | Some apiKey =>
      if String.eqb apiKey EmptyString then
        throw (Error "WhatsApp API key not configured")
      else
        try_catch
          (if (List.length numbers =? 0)%nat then
             log (Logger.warn "Empty recipients array") ;;
             ret (mkSendResult false (Some "No recipients") [] JUndefined)
           else
             cleanNumbers <- of_result (validateAll numbers) ;;
             response <- call C (axios_post apiUrl apiKey cleanNumbers message) ;;
             log (Logger.info
                    ("WhatsApp bulk message sent successfully to "
                     ++ Z_to_string (Z.of_nat (List.length cleanNumbers))
                     ++ " recipients")) ;;
             ret (mkSendResult true None cleanNumbers response))
          (fun error =>
             log (Logger.error "Failed to send WhatsApp bulk message:"
                    (emessage error)) ;;
             ret (mkSendResult false (Some (emessage error)) numbers JUndefined))
  end.

End WithCollaborators.

Section WithEngine.
Context {E : Engine} {Ext : Type} (C : Collaborators Ext).

(** One element of the array returned by [sendToAllRecipients]. *)
Record Delivery : Type := mkDelivery {
  recipient : string;
  delivered : bool;
  delivery_messageId : jsval;
  delivery_error : option string;
  delivery_timestamp : Z
}.

(** The loop of [sendToAllRecipients] over [this.recipientNumbers];
    [results] is the local array. *)
Fixpoint sendToEach (recipientNumbers : list string) (message : string)
  : M (list Delivery * World Ext) unit :=
  match recipientNumbers with
  | [] => ret tt
  | recipientNumber :: rest =>
      try_catch
        (result <- lift (sendMessage C [trim recipientNumber] message) ;;
         t <- lift (now C) ;;
         set_local (fun results =>
                      results ++ [mkDelivery recipientNumber true JUndefined
                                    None t])%list ;;
         lift (log (Logger.info ("WhatsApp message sent to " ++ recipientNumber))) ;;
         lift (delay 1000))
        (fun error =>
           lift (log (Logger.error
                        ("Failed to send WhatsApp message to "
                         ++ recipientNumber ++ ":")
                        (emessage error))) ;;
           t <- lift (now C) ;;
           set_local (fun results =>
                        results ++ [mkDelivery recipientNumber false JUndefined
                                      (Some (emessage error)) t])%list) ;;
      sendToEach rest message
  end.

Definition sendToAllRecipients (recipientNumbers : list string)
  (message : string) : M (World Ext) (list Delivery) :=
  with_local [] (sendToEach recipientNumbers message ;; local).

(** The object returned by [sendTestMessage]. *)
Record TestResult : Type := mkTestResult {
  test_success : bool;
  test_recipients : list string;
  test_response : jsval;
  test_error : option string;
  test_timestamp : string
}.

Definition testMessage (t : Z) : string :=
  "🧪 Test Message from Allahabad HC Monitor" ++ newline ++ newline
  ++ "Time: " ++ Date_toLocaleString t ++ newline ++ newline
  ++ "If you receive this message, WhatsApp integration is working correctly! ✅".

(** [sendTestMessage(testNumber)]; [None] is the default [null]. *)
Definition sendTestMessage (recipientNumbers : list string)
  (testNumber : option string) : M (World Ext) TestResult :=
  try_catch
    (let target :=
       match testNumber with
       | Some n => if String.eqb n EmptyString then nth_error recipientNumbers 0
                   else Some n
       | None => nth_error recipientNumbers 0
       end in
     match target with
     | None =>
         throw (Error "No test number provided and no recipient numbers configured")
     | Some number =>
         if String.eqb number EmptyString then
           throw (Error "No test number provided and no recipient numbers configured")
         else
           t <- now C ;;
           result <- sendMessage C [number] (testMessage t) ;;
           if send_success result then
             log (Logger.info ("Test message sent successfully to " ++ number)) ;;
             t' <- now C ;;
             ret (mkTestResult true (recipients result) (response result) None
                    (toISOString t'))
           else
             throw (Error (match send_error result with
                           | Some text => text
                           | None => EmptyString
                           end))
     end)
    (fun error =>
       log (Logger.error "Failed to send test message:" (emessage error)) ;;
       t <- now C ;;
       ret (mkTestResult false [] JUndefined (Some (emessage error))
              (toISOString t))).

End WithEngine.

End WhatsAppService.

(* ================================================================= *)
(** ** src/services/monitoringService.js *)

Module MonitoringService.
Import JS Comp Domain.
Import ChangeDetectionService.
Local Open Scope comp_scope.

(** The object built by [generateSummary]. *)
Record Summary : Type := mkSummary {
  totalCasesChecked : Z;
  totalChanges : Z;
  summary_criticalChanges : Z;
  notificationsSent : Z;
  notificationsFailed : Z;
  count_urgent : Z;
  count_high : Z;
  count_medium : Z;
  count_low : Z
}.

(** The object returned by [runMonitoringCycle], by its [status]. *)
Inductive CycleResult : Type :=
| skipped (reason : string)
| completed_without_cases (message : string)
| completed (allChanges : list ChangeData) (summary : Summary)
    (notifications : list NotificationOutcome) (duration : Z)
| failed (error : string) (duration : Z).

Definition status (r : CycleResult) : string :=
  match r with
  | skipped _ => "skipped"
  | completed_without_cases _ | completed _ _ _ _ => "completed"
  | failed _ _ => "error"
  end.

Definition nat_text (n : nat) : string := Z_to_string (Z.of_nat n).

(** The [for] loop of [createBatches] from index [i]; [None] when the fuel
    runs out. *)
Fixpoint createBatches_from {A : Type} (fuel : nat) (cases : list A)
  (batchSize i : Z) (batches : list (list A)) : option (list (list A)) :=
  if (i <? Z.of_nat (List.length cases))%Z then
    match fuel with
    | O => None
    | S fuel' =>
        createBatches_from fuel' cases batchSize (i + batchSize)%Z
          (batches ++ [slice i (i + batchSize)%Z cases])%list
    end
  else Some batches.

(** [createBatches]: the loop runs at most once per case when it terminates
    at all, so [None] stands for a loop that never ends. *)
Definition createBatches {A : Type} (cases : list A) (batchSize : Z)
  : option (list (list A)) :=
  createBatches_from (S (List.length cases)) cases batchSize 0 [].

Definition count_priority (p : Priority) (allChanges : list ChangeData) : Z :=
  Z.of_nat (List.length
    (filter (fun change =>
               match notificationPriority (changes change), p with
               | urgent, urgent | high, high | medium, medium | low, low => true
               | _, _ => false
               end) allChanges)).

Definition generateSummary (allChanges : list ChangeData)
  (notificationResults : list NotificationOutcome) : Summary :=
  {| totalCasesChecked := 0;
     totalChanges := Z.of_nat (List.length allChanges);
     summary_criticalChanges :=
       Z.of_nat (List.length
         (filter (fun change => hasCriticalChanges (changes change))
                 allChanges));
     notificationsSent :=
       Z.of_nat (List.length (filter success notificationResults));
     notificationsFailed :=
       Z.of_nat (List.length
         (filter (fun result => negb (success result)) notificationResults));
     count_urgent := count_priority urgent allChanges;
     count_high := count_priority high allChanges;
     count_medium := count_priority medium allChanges;
     count_low := count_priority low allChanges |}.

Section WithCollaborators.
Context {E : Engine} {Ext : Type} (C : Collaborators Ext).

(** The text layout of a notification ([generatePersonalizedMessage] with
    [formatDetailedCaseInfo]): locale-dependent formatting of the updated
    case, read here only as a function of its arguments and of the clock
    that returns the text or throws. *)
Variable generatePersonalizedMessage :
  User -> Subscription -> ChangeData -> Z -> Result string.

#[local] Abbreviation Cycle := (M (World Ext)).

(** Log lines produced by a function of the change detection service. *)
Definition logged {A : Type} (r : list Logger.Line * A) : Cycle A :=
  fold_right (fun line k => log line ;; k) (ret (snd r)) (fst r).

(** The [try] block of [getCasesToCheck]: the three queries. *)
Definition findCandidates : Cycle (list CaseDoc) :=
  t <- now C ;;
  let cutoffTime := (t - 2 * 60 * 60 * 1000)%Z in
  cases <- call C (Case_find_due cutoffTime) ;;
  activeCinos <- call C UserCase_distinct_cino ;;
  subscribedCases <-
    call C (Case_find_subscribed activeCinos (map _id cases)) ;;
  ret (cases ++ subscribedCases)%list.

Definition getCasesToCheck : Cycle (list CaseDoc) :=
  try_catch findCandidates
    (fun error =>
       log (Logger.error "Error getting cases to check:" (emessage error)) ;;
       ret []).

Definition updateCaseWithChanges (caseDoc : CaseDoc) (newCaseData : jsval)
  (changeResult : ChangeSet) : Cycle jsval :=
  try_catch
    (lastUpdated <- now C ;;
     timestamp <- now C ;;
     let updateData :=
       mkUpdateData newCaseData (dataHash caseDoc) (newDataHash changeResult)
         lastUpdated timestamp (changedFields changeResult)
         (changesSummary changeResult) (notificationPriority changeResult) in
     updatedCase <- call C (Case_applyChanges (_id caseDoc) updateData) ;;
     log (Logger.info
            ("Updated case " ++ cino caseDoc ++ " with "
             ++ nat_text (List.length (changedFields changeResult))
             ++ " changes")) ;;
     ret updatedCase)
    (fun error =>
       log (Logger.error ("Error updating case " ++ cino caseDoc ++ ":")
              (emessage error)) ;;
       throw error).

Definition processCase (caseDoc : CaseDoc) : Cycle (option ChangeData) :=
  try_catch
    (newCaseData <- call C (fetchSingleCase (cino caseDoc)) ;;
     if negb (truthy newCaseData) then
       log (Logger.warn ("No data received for case " ++ cino caseDoc)) ;;
       ret None
     else
       t <- now C ;;
       call C (Case_recordApiCheck (_id caseDoc) t) ;;
       r <- logged (detectChanges (toObject caseDoc) newCaseData) ;;
       changeResult <- of_result r ;;
       if hasChanges changeResult then
         updatedCase <- updateCaseWithChanges caseDoc newCaseData changeResult ;;
         ret (Some (mkChangeData (_id caseDoc) (cino caseDoc)
                      (caseNumber caseDoc) changeResult updatedCase))
       else ret None)
    (fun error =>
       log (Logger.error ("Error processing case " ++ cino caseDoc ++ ":")
              (emessage error)) ;;
       throw error).

Fixpoint processBatch_from (batch : list CaseDoc)
  (batchChanges : list ChangeData) : Cycle (list ChangeData) :=
  match batch with
  | [] => ret batchChanges
  | caseDoc :: rest =>
      batchChanges' <-
        try_catch
          (found <- processCase caseDoc ;;
           match found with
           | Some c => ret (batchChanges ++ [c])%list
           | None => ret batchChanges
           end)
          (fun error =>
             log (Logger.error ("Error processing case " ++ cino caseDoc ++ ":")
                    (emessage error)) ;;
             ret batchChanges) ;;
      processBatch_from rest batchChanges'
  end.

Definition processBatch (batch : list CaseDoc) : Cycle (list ChangeData) :=
  processBatch_from batch [].

Definition sendPersonalizedNotification (user : User)
  (subscription : Subscription) (changeData : ChangeData)
  : Cycle NotificationOutcome :=
  try_catch
    (t <- now C ;;
     message <- of_result
                  (generatePersonalizedMessage user subscription changeData t) ;;
     result <- WhatsAppService.sendMessage C [mobileNumber user] message ;;
     sent <- now C ;;
     call C (UserCase_recordNotification (subscription_id subscription) sent 1) ;;
     timestamp <- now C ;;
     ret (mkOutcome (user_id user) (mobileNumber user)
            (changed_cino changeData) (send_success result) JUndefined None
            timestamp))
    (fun error =>
       log (Logger.error
              ("Error sending notification to " ++ mobileNumber user ++ ":")
              (emessage error)) ;;
       timestamp <- now C ;;
       ret (mkOutcome (user_id user) (mobileNumber user)
              (changed_cino changeData) false JUndefined
              (Some (emessage error)) timestamp)).

#[local] Abbreviation Notifying := (M (list NotificationOutcome * World Ext)).

(** The inner [for] loop of [processNotifications]; [notificationResults] is
    the local array. *)
Fixpoint notifySubscribers (subscriptions : list Subscription)
  (changeData : ChangeData) : Notifying unit :=
  match subscriptions with
  | [] => ret tt
  | subscription :: rest =>
      match userId subscription with
      | Some user =>
          if isActive user then
            notificationResult <-
              lift (sendPersonalizedNotification user subscription changeData) ;;
            set_local (fun results => results ++ [notificationResult])%list ;;
            notifySubscribers rest changeData
          else notifySubscribers rest changeData
      | None => notifySubscribers rest changeData
      end
  end.

Fixpoint notifyChanges (allChanges : list ChangeData) : Notifying unit :=
  match allChanges with
  | [] => ret tt
  | changeData :: rest =>
      try_catch
        (subscriptions <-
           lift (call C (UserCase_find_active (changed_cino changeData))) ;;
         if (List.length subscriptions =? 0)%nat then
           lift (log (Logger.info ("No active subscriptions for case "
                                   ++ changed_cino changeData)))
         else
           notifySubscribers subscriptions changeData ;;
           t <- lift (now C) ;;
           lift (call C (Case_recordNotification (caseId changeData) t
                           (Z.of_nat (List.length subscriptions)))))
        (fun error =>
           lift (log (Logger.error
                        ("Error processing notifications for case "
                         ++ changed_cino changeData ++ ":")
                        (emessage error)))) ;;
      notifyChanges rest
  end.

Definition processNotifications (allChanges : list ChangeData)
  : Cycle (list NotificationOutcome) :=
  with_local [] (notifyChanges allChanges ;; local).

Definition logCycleSummary (startTime : Z) (summary : Summary) : Cycle unit :=
  t <- now C ;;
  let duration := (t - startTime)%Z in
  svc <- this ;;
  log (Logger.info ("Monitoring cycle #" ++ Z_to_string (runCount svc)
                    ++ " completed in " ++ Z_to_string duration ++ "ms")) ;;
  log (Logger.info "Summary:") ;;
  log (Logger.info ("- Total changes: " ++ Z_to_string (totalChanges summary))) ;;
  log (Logger.info ("- Critical changes: "
                    ++ Z_to_string (summary_criticalChanges summary))) ;;
  log (Logger.info ("- Notifications sent: "
                    ++ Z_to_string (notificationsSent summary))) ;;
  log (Logger.info ("- Notifications failed: "
                    ++ Z_to_string (notificationsFailed summary))) ;;
  log (Logger.info
         ("- Changes by priority: "
          ++ match stringify None
                     (JObj [ ("urgent", JNum (count_urgent summary));
                             ("high", JNum (count_high summary));
                             ("medium", JNum (count_medium summary));
                             ("low", JNum (count_low summary)) ]) with
             | Some s => s
             | None => "undefined"
             end)).

Fixpoint sendToAdmins (adminNumbers : list string) (message : string)
  : Cycle unit :=
  match adminNumbers with
  | [] => ret tt
  | adminNumber :: rest =>
      WhatsAppService.sendMessage C [trim adminNumber] message ;;
      sendToAdmins rest message
  end.

Definition sendErrorNotification (error : Exn) : Cycle unit :=
  try_catch
    (let adminNumbers :=
       match ADMIN_WHATSAPP_NUMBERS (env C) with
       | Some s => if String.eqb s EmptyString then [] else split_on "," s
       | None => []
       end in
     if (List.length adminNumbers =? 0)%nat then ret tt
     else
       t <- now C ;;
       svc <- this ;;
       let message :=
         "🚨 *Allahabad HC Monitor Error*" ++ newline ++ newline
         ++ "⏰ *Time:* " ++ Date_toLocaleString t ++ newline
         ++ "🔄 *Cycle:* #" ++ Z_to_string (runCount svc) ++ newline
         ++ "❌ *Error:* " ++ emessage error ++ newline ++ newline
         ++ "Please check the system logs for more details." in
       sendToAdmins adminNumbers message)
    (fun notificationError =>
       log (Logger.error "Failed to send error notification:"
              (emessage notificationError))).

(** The batch loop of [runMonitoringCycle] from index [i] of [n] batches. *)
Fixpoint processBatches (remaining : list (list CaseDoc)) (i n : nat)
  (allChanges : list ChangeData) : Cycle (list ChangeData) :=
  match remaining with
  | [] => ret allChanges
  | batch :: rest =>
      log (Logger.info ("Processing batch " ++ nat_text (i + 1) ++ "/"
                        ++ nat_text n ++ " ("
                        ++ nat_text (List.length batch) ++ " cases)")) ;;
      batchChanges <- processBatch batch ;;
      (if (i <? n - 1)%nat then
         svc <- this ;; delay (apiDelay svc)
       else ret tt) ;;
      processBatches rest (S i) n (allChanges ++ batchChanges)%list
  end.

Definition set_isRunning (b : bool) (s : Service) : Service :=
  mkService b (lastRunTime s) (lastRunStatus s) (runCount s) (errorCount s)
    (batchSize s) (apiDelay s).

Definition increment_runCount (s : Service) : Service :=
  mkService (isRunning s) (lastRunTime s) (lastRunStatus s) (runCount s + 1)
    (errorCount s) (batchSize s) (apiDelay s).

Definition increment_errorCount (s : Service) : Service :=
  mkService (isRunning s) (lastRunTime s) (lastRunStatus s) (runCount s)
    (errorCount s + 1) (batchSize s) (apiDelay s).

Definition set_lastRunTime (t : Z) (s : Service) : Service :=
  mkService (isRunning s) (Some t) (lastRunStatus s) (runCount s)
    (errorCount s) (batchSize s) (apiDelay s).

Definition set_lastRunStatus (st : RunStatus) (s : Service) : Service :=
  mkService (isRunning s) (lastRunTime s) (Some st) (runCount s)
    (errorCount s) (batchSize s) (apiDelay s).

(** The [try] block of [runMonitoringCycle]. *)
Definition cycleBody (startTime : Z) : Cycle CycleResult :=
  casesToCheck <- getCasesToCheck ;;
  if (List.length casesToCheck =? 0)%nat then
    log (Logger.info "No cases to check") ;;
    ret (completed_without_cases "No cases to monitor")
  else
    log (Logger.info ("Found " ++ nat_text (List.length casesToCheck)
                      ++ " cases to check")) ;;
    svc <- this ;;
    match createBatches casesToCheck (batchSize svc) with
    | None => diverge
    | Some batches =>
        allChanges <- processBatches batches 0 (List.length batches) [] ;;
        notificationResults <- processNotifications allChanges ;;
        let summary := generateSummary allChanges notificationResults in
        logCycleSummary startTime summary ;;
        update_this (set_lastRunTime startTime) ;;
        update_this (set_lastRunStatus run_success) ;;
        t <- now C ;;
        ret (completed allChanges summary notificationResults (t - startTime)%Z)
    end.

(** The [catch] block of [runMonitoringCycle]. *)
Definition cycleFailed (startTime : Z) (error : Exn) : Cycle CycleResult :=
  update_this increment_errorCount ;;
  update_this (set_lastRunStatus run_error) ;;
  svc <- this ;;
  log (Logger.error ("Monitoring cycle #" ++ Z_to_string (runCount svc)
                     ++ " failed:") (emessage error)) ;;
  sendErrorNotification error ;;
  t <- now C ;;
  ret (failed (emessage error) (t - startTime)%Z).

Definition runMonitoringCycle : Cycle CycleResult :=
  svc <- this ;;
  if isRunning svc then
    log (Logger.warn "Monitoring cycle already in progress, skipping...") ;;
    ret (skipped "already_running")
  else
    update_this (set_isRunning true) ;;
    update_this increment_runCount ;;
    startTime <- now C ;;
    svc <- this ;;
    log (Logger.info ("Starting monitoring cycle #" ++ Z_to_string (runCount svc))) ;;
    try_finally
      (try_catch (cycleBody startTime) (cycleFailed startTime))
      (update_this (set_isRunning false)).

End WithCollaborators.

End MonitoringService.

(* ================================================================= *)
(** ** A reference world

    One concrete outside world: a database that is up or down, the court
    API as a table, the subscriptions with their delivery bookkeeping, and
    a transport that is up or down.  It instantiates the general statements
    at concrete inputs. *)

Module ReferenceWorld.
Import JS Domain.

(** The delivery bookkeeping of one UserCase document. *)
Record Bookkeeping : Type := mkBookkeeping {
  notificationCount : Z;
  lastNotificationSent : option Z
}.

Record Store : Type := mkStore {
  database_up : bool;
  (** the cases matched by the candidate query *)
  due : list CaseDoc;
  (** the court API, by cino; an absent cino is answered with [null] *)
  court : list (string * jsval);
  (** the active subscriptions, by cino *)
  subscriptions : list (string * list Subscription);
  (** the UserCase bookkeeping, by subscription id *)
  bookkeeping : list (Id * Bookkeeping);
  transport_up : bool;
  time : Z
}.

Definition unreachable : Exn := Error "connect ECONNREFUSED 127.0.0.1:27017".
Definition refused : Exn := Error "connect ECONNREFUSED 198.38.87.182:80".

Fixpoint bump (id : Id) (t inc : Z) (l : list (Id * Bookkeeping))
  : list (Id * Bookkeeping) :=
  match l with
  | [] => []
  | (id', b) :: r =>
      if String.eqb id id'
      then (id', mkBookkeeping (notificationCount b + inc) (Some t)) :: r
      else (id', b) :: bump id t inc r
  end.

Definition set_bookkeeping (b : list (Id * Bookkeeping)) (s : Store) : Store :=
  mkStore (database_up s) (due s) (court s) (subscriptions s) b
    (transport_up s) (time s).

Definition query {R : Type} (s : Store) (r : R) : Result R * Store :=
  if database_up s then (Ok r, s) else (Throw unreachable, s).

Definition respond {R : Type} (c : Call R) : Store -> Result R * Store :=
  match c in Call R return Store -> Result R * Store with
  | Case_find_due _ => fun s => query s (due s)
  | UserCase_distinct_cino => fun s => query s (map fst (subscriptions s))
  | Case_find_subscribed _ _ => fun s => query s []
  | fetchSingleCase cino =>
      fun s => (Ok (match lookup cino (court s) with
                    | Some data => data
                    | None => JNull
                    end), s)
  | Case_recordApiCheck _ _ => fun s => query s tt
  | Case_applyChanges _ updateData => fun s => query s (newCaseData updateData)
  | UserCase_find_active cino =>
      fun s => query s (match lookup cino (subscriptions s) with
                        | Some l => l
                        | None => []
                        end)
  | UserCase_recordNotification id t inc =>
      fun s =>
        if database_up s
        then (Ok tt, set_bookkeeping (bump id t inc (bookkeeping s)) s)
        else (Throw unreachable, s)
  | Case_recordNotification _ _ _ => fun s => query s tt
  | axios_post _ _ _ _ =>
      fun s =>
        if transport_up s then (Ok (JObj [("success", JBool true)]), s)
        else (Throw refused, s)
  end.

Definition collaborators : Collaborators Store :=
  mkCollaborators Store (@respond) time
    (mkEnv (Some "secret-key") (Some "9876543210")).

(** A plain rendering of the notification text. *)
Definition plain_message (user : User) (subscription : Subscription)
  (changeData : ChangeData) (t : Z) : Result string :=
  Ok ("Case " ++ changed_cino changeData ++ ": "
      ++ ChangeDetectionService.changesSummary (changes changeData)).

Definition idle : Service := mkService false None None 0 0 3 2000.

Definition start (s : Store) : World Store := mkWorld idle s [].

End ReferenceWorld.

(* ================================================================= *)
(** ** Vocabulary of the statements *)

Module Spec.
Import JS Domain ChangeDetectionService.
Local Open Scope list_scope.

(** The value of [o[k]] on a value that is neither [null] nor [undefined]. *)
Definition read (o : jsval) (k : string) : jsval :=
  match getField o k with
  | Ok v => v
  | Throw _ => JUndefined
  end.

(** Does [compareField] report the field as changed between two snapshots. *)
Definition fieldChanged {E : Engine} (old new : jsval) (field : string) : bool :=
  hasChange (compareField field (read old field) (read new field)).

(** The precedence of priorities, top down, over the changed fields. *)
Definition expectedPriority (changed : string -> bool) : Priority :=
  if changed "nextHearingDate" then urgent
  else if changed "caseStatus" || changed "stageOfCase" then high
  else if changed "listingHistory" then medium
  else if changed "firstHearingDate" || changed "coram"
          || changed "orderDetails" || changed "iaApplications" then low
  else none.

Definition is_delay (e : Event) : bool :=
  match e with Delayed _ => true | _ => false end.

(** How many times the inter-batch delay was invoked. *)
Definition delays (t : list Event) : nat := List.length (filter is_delay t).

Definition is_post (e : Event) : bool :=
  match e with Called (axios_post _ _ _ _) => true | _ => false end.

(** How many times the messaging transport was asked to send. *)
Definition posts (t : list Event) : nat := List.length (filter is_post t).

(** The world in which the [try] block of [runMonitoringCycle] starts, for
    a cycle entered in the world [w]. *)
Definition entered {Ext : Type} (w : World Ext) : World Ext :=
  let svc :=
    MonitoringService.increment_runCount
      (MonitoringService.set_isRunning true (service w)) in
  mkWorld svc (ext w)
    (trace w
     ++ [Logged (Logger.info ("Starting monitoring cycle #"
                              ++ Z_to_string (runCount svc)))]).

(** The length of the array stored under a field ([0] when it is not one). *)
Definition list_length (v : jsval) : nat :=
  match v with JArr l => List.length l | _ => 0 end.

(** The loop of [detectChanges] over the fields, once both snapshots can be
    read. *)
Definition fieldLoop {E : Engine} (old new : jsval) (fields : list string)
  (changes : ChangeSet) : ChangeSet :=
  fold_left
    (fun c field =>
       recordField c field (compareField field (read old field) (read new field)))
    fields changes.

(** The ChangeSet of two readable snapshots before the summary and the
    hashes are filled in. *)
Definition compared {E : Engine} (old new : jsval) : ChangeSet :=
  fieldLoop old new significantFields initialChanges.

(** Consecutive chunks of [size] elements, the last one possibly shorter. *)
Fixpoint chunks {A : Type} (fuel size : nat) (l : list A) : list (list A) :=
  match fuel, l with
  | S fuel', _ :: _ => firstn size l :: chunks fuel' size (skipn size l)
  | _, _ => []
  end.

(** The cases for which the court's server was asked, in order. *)
Definition fetched (t : list Event) : list string :=
  flat_map (fun e => match e with
                     | Called (fetchSingleCase cino) => [cino]
                     | _ => []
                     end) t.

(** An event that is neither a delay nor a request to the court's server. *)
Definition housekeeping (e : Event) : bool :=
  match e with
  | Delayed _ => false
  | Called (fetchSingleCase _) => false
  | _ => true
  end.

(** The lists one after the other with [sep] between every two of them,
    and none after the last. *)
Fixpoint join {A : Type} (sep : list A) (ls : list (list A)) : list A :=
  match ls with
  | [] => []
  | l :: rest =>
      match rest with
      | [] => l
      | _ :: _ => l ++ sep ++ join sep rest
      end
  end.

(** The computation terminates, leaves the fields of the service as they
    are and appends nothing to the trace but events that are neither a
    delay nor a request to the court's server. *)
Definition discreet {Ext A : Type} (m : Comp.M (World Ext) A) : Prop :=
  forall w, exists r w',
    m w = Some (r, w')
    /\ service w' = service w
    /\ exists added,
         trace w' = trace w ++ added
         /\ forallb housekeeping added = true.

Section Computations.
Context {Ext S A : Type} (view : S -> World Ext).

(** The computation terminates, leaves the fields of the service as they
    are and does not invoke the delay. *)
Definition quiet (m : Comp.M S A) : Prop :=
  forall s, exists r s',
    m s = Some (r, s')
    /\ service (view s') = service (view s)
    /\ delays (trace (view s')) = delays (trace (view s)).

(** The same, and it does not throw. *)
Definition safe (m : Comp.M S A) : Prop :=
  forall s, exists a s',
    m s = Some (Ok a, s')
    /\ service (view s') = service (view s)
    /\ delays (trace (view s')) = delays (trace (view s)).

End Computations.

End Spec.

(* ================================================================= *)
(** ** Sample snapshots and worlds *)

Module Samples.
Import JS Domain ReferenceWorld.

Definition listing (justice date order : string) : jsval :=
  JObj [ ("causeListType", JStr "Daily Cause List");
         ("justice", JStr justice);
         ("listingDate", JStr date);
         ("shortOrder", JStr order) ].

Definition entry1 : jsval := listing "Justice A" "2024-01-10" "Notice issued".
Definition entry2 : jsval := listing "Justice B" "2024-02-12" "List after two weeks".
Definition entry3 : jsval := listing "Justice C" "2024-03-15" "Counter affidavit filed".
Definition entry4 : jsval := listing "Justice D" "2024-04-18" "Adjourned".
Definition entry5 : jsval := listing "Justice E" "2024-05-20" "Heard in part".
Definition entry6 : jsval := listing "Justice F" "2024-06-24" "Put up tomorrow".
Definition amended_entry1 : jsval := listing "Justice A" "2024-01-11" "Notice issued".

Definition snapshot (history : list jsval) : jsval :=
  JObj [ ("cino", JStr "804692");
         ("caseStatus", JStr "Pending");
         ("nextHearingDate", JNull);
         ("stageOfCase", JStr "Admission");
         ("coram", JStr "Justice F");
         ("iaApplications", JArr []);
         ("listingHistory", JArr history) ].

(** Three listing-history entries, then two of them. *)
Definition three_entries : jsval := snapshot [entry1; entry2; entry3].
Definition two_entries : jsval := snapshot [entry1; entry2].
Definition reordered_entries : jsval := snapshot [entry3; entry1; entry2].

(** Six entries, and the same with the oldest one amended. *)
Definition six_entries : jsval :=
  snapshot [entry1; entry2; entry3; entry4; entry5; entry6].
Definition six_entries_amended : jsval :=
  snapshot [amended_entry1; entry2; entry3; entry4; entry5; entry6].

(** The pair of the priority scenario. *)
Definition hearing_unset : jsval :=
  JObj [ ("status", JStr "A"); ("nextHearingDate", JNull) ].
Definition hearing_set : jsval :=
  JObj [ ("status", JStr "A"); ("nextHearingDate", JStr "2025-01-01") ].

Definition case_doc (c : string) : CaseDoc :=
  mkCaseDoc ("id-" ++ c) c (JStr ("WRIT - A No. " ++ c)) JUndefined
    (JObj [ ("cino", JStr c) ]).

Definition seven_cases : list CaseDoc :=
  map case_doc ["101"; "102"; "103"; "104"; "105"; "106"; "107"].

(** A document of case 103 whose [toObject()] is [null]. *)
Definition unreadable_case : CaseDoc :=
  mkCaseDoc "id-900" "103" JUndefined JUndefined JNull.

Definition subscriber : User := mkUser "u1" (JStr "Asha") "9876543210" true.
Definition subscription : Subscription :=
  mkSubscription "s1" (Some subscriber) JUndefined.

Definition changed_case : ChangeData :=
  mkChangeData "id-103" "103" (JStr "WRIT - A No. 103")
    ChangeDetectionService.initialChanges JNull.

(** Everything up, seven candidate cases, court data for one of them. *)
Definition healthy : Store :=
  mkStore true seven_cases
    [ ("103", JObj [ ("caseStatus", JStr "Listed") ]) ]
    [ ("103", [subscription]) ]
    [ ("s1", mkBookkeeping 0 None) ]
    true 1735689600000.

(** The same with the messaging transport refusing connections. *)
Definition transport_down : Store :=
  mkStore true seven_cases
    [ ("103", JObj [ ("caseStatus", JStr "Listed") ]) ]
    [ ("103", [subscription]) ]
    [ ("s1", mkBookkeeping 0 None) ]
    false 1735689600000.

(** The database refusing connections. *)
Definition database_down : Store :=
  mkStore false seven_cases [] [] [] true 1735689600000.

(** A database with no case due for a check. *)
Definition nothing_due : Store :=
  mkStore true [] [] [] [] true 1735689600000.

(** A service whose previous cycle failed. *)
Definition after_failure : Service :=
  mkService false None (Some run_error) 1 1 3 2000.

(** A cycle in the reference world, with the reference engine. *)
Definition run_in (w : World Store)
  : option (Result MonitoringService.CycleResult * World Store) :=
  MonitoringService.runMonitoringCycle (E := ReferenceEngine.utc_engine)
    collaborators plain_message w.

End Samples.

(* ================================================================= *)
(** ** The court API client ([ApiService], in src/routes/admin.js) *)

Module ApiService.
Import JS Comp.
Local Open Scope comp_scope.

Definition retryAttempts : Z := 3.
Definition requestDelay : Z := 1000.

Inductive Event : Type :=
| Requested (cino : string)
| Waited (ms : Z)
| Noted (line : Logger.Line).

(** The network as the client sees it, and what the client did. *)
Record Net (Ext : Type) : Type := mkNet {
  server : Ext;
  history : list Event
}.
Arguments mkNet {Ext} _ _.
Arguments server {Ext} _.
Arguments history {Ext} _.

Section WithServer.
Context {Ext : Type}.

(** [makeRequest]: the response object of the HTTP POST, or its failure. *)
Variable makeRequest : string -> Ext -> Result jsval * Ext.

(** The extraction of the case record from the HTML of a response (the
    cheerio selectors of [parseHtmlToJson] and its helpers), read as a
    function of the HTML and the cino that returns the record or throws. *)
Variable extract : jsval -> string -> Result jsval.

#[local] Abbreviation Client := (M (Net Ext)).

Definition note (line : Logger.Line) : Client unit :=
  modify (fun n => mkNet (server n) (history n ++ [Noted line])).

Definition delay (ms : Z) : Client unit :=
  modify (fun n => mkNet (server n) (history n ++ [Waited ms])).

Definition request (cino : string) : Client jsval :=
  fun n =>
    let '(r, x) := makeRequest cino (server n) in
    Some (r, mkNet x (history n ++ [Requested cino])).

(** The [try] and [catch] of [parseHtmlToJson] around the extraction. *)
Definition parseHtmlToJson (htmlData : jsval) (cino : string) : Client jsval :=
  try_catch
    (caseData <- of_result (extract htmlData cino) ;;
     note (Logger.info ("Successfully parsed case data for CINO: " ++ cino)) ;;
     ret caseData)
    (fun error =>
       note (Logger.error ("Error parsing HTML for CINO " ++ cino ++ ":")
               (emessage error)) ;;
       throw error).

Definition data_of (response : jsval) : jsval :=
  match getField response "data" with
  | Ok v => v
  | Throw _ => JUndefined
  end.

(** The [for] loop of [fetchSingleCase] from [attempt], with [remaining]
    iterations left before [attempt] exceeds [retryAttempts].  The [try]
    block yields [Some] of the value it returns, or [None] when control
    falls through to the next iteration. *)
Fixpoint attemptFrom (remaining : nat) (attempt : Z) (cino : string)
  : Client jsval :=
  match remaining with
  | O => ret JNull
  | S remaining' =>
      outcome <-
        try_catch
          (response <- request cino ;;
           if truthy response && truthy (data_of response) then
             caseData <- parseHtmlToJson (data_of response) cino ;;
             ret (Some caseData)
           else ret None)
          (fun error =>
             note (Logger.mkLine Logger.Log_warn
                     [ "Attempt " ++ Z_to_string attempt ++ " failed for CINO "
                       ++ cino ++ ":"; emessage error ]) ;;
             if (attempt =? retryAttempts)%Z then throw error
             else
               delay (1000 * 2 ^ (attempt - 1))%Z ;;
               ret None) ;;
      match outcome with
      | Some caseData => ret caseData
      | None => attemptFrom remaining' (attempt + 1)%Z cino
      end
  end.

Definition fetchSingleCase (cino : string) : Client jsval :=
  attemptFrom (Z.to_nat retryAttempts) 1 cino.

(** [a.indexOf(x)] on an array of strings that contains [x]. *)
Fixpoint indexOf (a : list string) (x : string) : Z :=
  match a with
  | [] => (-1)
  | y :: r =>
      if String.eqb y x then 0
      else let i := indexOf r x in if (i <? 0)%Z then (-1) else (i + 1)%Z
  end.

(** The loop of [fetchCaseData] over the elements [todo] of [cinos];
    [results] is the local array. *)
Fixpoint fetchEach (cinos todo : list string)
  : M (list jsval * Net Ext) unit :=
  match todo with
  | [] => ret tt
  | cino :: rest =>
      try_catch
        (lift (note (Logger.info ("Fetching data for CINO: " ++ cino))) ;;
         caseData <- lift (fetchSingleCase cino) ;;
         (if truthy caseData
          then set_local (fun results => results ++ [caseData])%list
          else ret tt) ;;
         if (indexOf cinos cino <? Z.of_nat (List.length cinos) - 1)%Z
         then lift (delay requestDelay)
         else ret tt)
        (fun error =>
           lift (note (Logger.error ("Error fetching case " ++ cino ++ ":")
                         (emessage error)))) ;;
      fetchEach cinos rest
  end.

Definition fetchCaseData (cinos : list string) : Client (list jsval) :=
  with_local [] (fetchEach cinos cinos ;; local).

End WithServer.

Definition is_digit (c : ascii) : bool :=
  ((48 <=? code c) && (code c <=? 57))%Z.

(** [validateCino] on a string; every other value is rejected. *)
Definition validateCino {E : Engine} (cino : jsval) : bool :=
  match cino with
  | JStr s =>
      if String.eqb s EmptyString then false
      else
        let cleanCino := trim s in
        (6 <=? String.length cleanCino)%nat
        && (String.length cleanCino <=? 12)%nat
        && forallb is_digit (list_ascii_of_string cleanCino)
  | _ => false
  end.

End ApiService.

(* ================================================================= *)
(** ** src/services/dataComparisonService.js *)

Module DataComparisonService.
Import JS.

(** [compareDates(date1, date2)]: [getTime] is called on both arguments
    once both are truthy, and only a Date has it. *)
Definition compareDates (date1 date2 : jsval) : Result bool :=
  if negb (truthy date1) && negb (truthy date2) then Ok false
  else if negb (truthy date1) || negb (truthy date2) then Ok true
  else
    match date1, date2 with
    | JDate a, JDate b =>
        Ok (match a, b with
            | Some x, Some y => negb (x =? y)%Z
            | _, _ => true
            end)
    | JDate _, _ => Throw (TypeError "date2.getTime is not a function")
    | _, _ => Throw (TypeError "date1.getTime is not a function")
    end.

(** What [getChangesSummary] reads of a change object. *)
Record Change : Type := mkChange {
  type : string;
  caseNumber : string;
  caseId : string;
  message : string
}.

Record Summary : Type := mkSummary {
  totalChanges : Z;
  newCases : Z;
  statusChanges : Z;
  hearingDateChanges : Z;
  orderUpdates : Z;
  generalUpdates : Z;
  caseNumbers : list string
}.

(** The body of the [forEach] of [getChangesSummary]. *)
Definition count (summary : Summary) (change : Change) : Summary :=
  let s :=
    mkSummary (totalChanges summary) (newCases summary)
      (statusChanges summary) (hearingDateChanges summary)
      (orderUpdates summary) (generalUpdates summary)
      (caseNumbers summary ++ [caseNumber change])%list in
  if String.eqb (type change) "NEW_CASE" then
    mkSummary (totalChanges s) (newCases s + 1) (statusChanges s)
      (hearingDateChanges s) (orderUpdates s) (generalUpdates s) (caseNumbers s)
  else if String.eqb (type change) "STATUS_CHANGE" then
    mkSummary (totalChanges s) (newCases s) (statusChanges s + 1)
      (hearingDateChanges s) (orderUpdates s) (generalUpdates s) (caseNumbers s)
  else if String.eqb (type change) "HEARING_DATE_CHANGE" then
    mkSummary (totalChanges s) (newCases s) (statusChanges s)
      (hearingDateChanges s + 1) (orderUpdates s) (generalUpdates s)
      (caseNumbers s)
  else if String.eqb (type change) "ORDER_UPDATE" then
    mkSummary (totalChanges s) (newCases s) (statusChanges s)
      (hearingDateChanges s) (orderUpdates s + 1) (generalUpdates s)
      (caseNumbers s)
  else if String.eqb (type change) "GENERAL_UPDATE" then
    mkSummary (totalChanges s) (newCases s) (statusChanges s)
      (hearingDateChanges s) (orderUpdates s) (generalUpdates s + 1)
      (caseNumbers s)
  else s.

Definition getChangesSummary (changes : list Change) : Summary :=
  let summary :=
    fold_left count changes
      (mkSummary (Z.of_nat (List.length changes)) 0 0 0 0 0 []) in
  mkSummary (totalChanges summary) (newCases summary) (statusChanges summary)
    (hearingDateChanges summary) (orderUpdates summary)
    (generalUpdates summary) (dedup [] (caseNumbers summary)).

End DataComparisonService.

(* ================================================================= *)
(** ** Further vocabulary and samples *)

Module Measures.
Import JS Domain.

Definition is_request (e : ApiService.Event) : bool :=
  match e with ApiService.Requested _ => true | _ => false end.

(** The requests of a history of the API client. *)
Definition requests (h : list ApiService.Event) : nat :=
  List.length (filter is_request h).

(** The waits of a history of the API client, in order. *)
Fixpoint waits (h : list ApiService.Event) : list Z :=
  match h with
  | [] => []
  | ApiService.Waited ms :: r => ms :: waits r
  | _ :: r => waits r
  end.

Definition known_type (t : string) : bool :=
  existsb (String.eqb t)
    [ "NEW_CASE"; "STATUS_CHANGE"; "HEARING_DATE_CHANGE"; "ORDER_UPDATE";
      "GENERAL_UPDATE" ].

(** The hearing-date fields of a snapshot hold no Invalid Date object. *)
Definition hearing_dates_valid (x : jsval) : bool :=
  negb (match Spec.read x "nextHearingDate" with JDate None => true | _ => false end)
  && negb (match Spec.read x "firstHearingDate" with JDate None => true | _ => false end).

Definition invalid_date (v : jsval) : bool :=
  match v with JDate None => true | _ => false end.

(** The record can be read and none of its significant fields holds an
    Invalid Date object. *)
Definition hashable (x : jsval) : bool :=
  negb (nullish x)
  && forallb (fun f => negb (invalid_date (Spec.read x f)))
       ChangeDetectionService.significantFields.

(** A string value. *)
Definition is_text (v : jsval) : Prop := exists s, v = JStr s.

(** The order in which [sort] leaves two values. *)
Definition le {E : Engine} (x y : jsval) : Prop := sort_le x y = true.

(** The history entry of a field, and whether the field is recorded. *)
Definition entry_of (this newData : jsval) (t : Z) (f : string)
  : CaseModel.HistoryEntry :=
  CaseModel.mkHistoryEntry f (Spec.read this f) (Spec.read newData f) t.

Definition differs (this newData : jsval) (f : string) : bool :=
  CaseModel.serialised_differently (Spec.read this f) (Spec.read newData f).

(** Is every character a decimal digit. *)
Definition all_digits (s : string) : bool :=
  forallb WhatsAppService.is_digit (list_ascii_of_string s).

(** Does the string begin with one of the digits 6 to 9. *)
Definition mobile_lead (s : string) : bool :=
  match String.get 0 s with
  | Some c => ((54 <=? code c) && (code c <=? 57))%Z
  | None => false
  end.

(** A document with forty-nine recorded changes, and new data that differ
    from it in three of the checked fields. *)
Definition busy_document : CaseModel.Document :=
  CaseModel.mkDocument Samples.three_entries
    (repeat (CaseModel.mkHistoryEntry "coram" (JStr "Justice A")
               (JStr "Justice F") 1704067200000) 49)
    (JStr "0f343b0931126a20f133d67c2b018a3b") JUndefined.

Definition changed_data : jsval :=
  JObj [ ("caseStatus", JStr "Listed");
         ("nextHearingDate", JStr "2025-03-10");
         ("stageOfCase", JStr "Admission");
         ("coram", JStr "Justice F");
         ("iaApplications", JArr []);
         ("listingHistory", JArr [Samples.entry1; Samples.entry2]) ].

(** The API key of the messaging service is set to [key], which is not
    empty; or it is not set at all. *)
Definition configured {Ext : Type} (C : Collaborators Ext) (key : string)
  : Prop :=
  WHATSAPP_API_KEY (env C) = Some key /\ String.eqb key EmptyString = false.


(** A change that [detectChanges] reported between two snapshots. *)
Definition detected {E : Engine} (c : ChangeData) : Prop :=
  exists old new,
    snd (ChangeDetectionService.detectChanges old new) = Ok (changes c)
    /\ ChangeDetectionService.hasChanges (changes c) = true.

(** The subscription has nobody to notify: its user is missing or not
    active. *)
Definition nobody_to_notify (s : Subscription) : bool :=
  match userId s with
  | Some user => negb (isActive user)
  | None => true
  end.

(** The reference store with two subscriptions to case 103, one of a user
    that is not active and one without a user. *)
Definition dormant : ReferenceWorld.Store :=
  ReferenceWorld.mkStore true Samples.seven_cases
    [ ("103", JObj [ ("caseStatus", JStr "Listed") ]) ]
    [ ("103", [ mkSubscription "s2"
                  (Some (mkUser "u2" (JStr "Ravi") "9876500000" false))
                  JUndefined;
                mkSubscription "s3" None JUndefined ]) ]
    [ ("s2", ReferenceWorld.mkBookkeeping 0 None);
      ("s3", ReferenceWorld.mkBookkeeping 0 None) ]
    true 1735689600000.

(** A Date object, or a value that is falsy. *)
Definition date_or_missing (v : jsval) : bool :=
  match v with JDate _ => true | _ => negb (truthy v) end.

(** The sum of the counts by type of a summary of changes. *)
Definition counted (s : DataComparisonService.Summary) : Z :=
  DataComparisonService.newCases s + DataComparisonService.statusChanges s
  + DataComparisonService.hearingDateChanges s
  + DataComparisonService.orderUpdates s
  + DataComparisonService.generalUpdates s.

(** The number that [sendTestMessage] writes to: the test number when one
    is given, the first recipient otherwise. *)
Definition test_target (recipientNumbers : list string)
  (testNumber : option string) : option string :=
  match testNumber with
  | Some n => if String.eqb n EmptyString then nth_error recipientNumbers 0
              else Some n
  | None => nth_error recipientNumbers 0
  end.



(** The outcome of an attempt of [fetchSingleCase] made in the server state
    [x]: it returned when the response carries data that the parser
    accepts, it threw when the request failed or the parser threw on the
    data; an attempt that did neither received an empty response. *)
Definition attempt_returned {Ext : Type}
  (makeRequest : string -> Ext -> Result jsval * Ext)
  (extract : jsval -> string -> Result jsval) (cino : string) (x : Ext)
  : bool :=
  match makeRequest cino x with
  | (Ok response, _) =>
      truthy response && truthy (ApiService.data_of response)
      && match extract (ApiService.data_of response) cino with
         | Ok _ => true
         | Throw _ => false
         end
  | (Throw _, _) => false
  end.

Definition attempt_threw {Ext : Type}
  (makeRequest : string -> Ext -> Result jsval * Ext)
  (extract : jsval -> string -> Result jsval) (cino : string) (x : Ext)
  : bool :=
  match makeRequest cino x with
  | (Ok response, _) =>
      truthy response && truthy (ApiService.data_of response)
      && match extract (ApiService.data_of response) cino with
         | Ok _ => false
         | Throw _ => true
         end
  | (Throw _, _) => true
  end.

(** A server that fails every request, with the number of the request in
    the error. *)
Definition failing (cino : string) (x : Z) : Result jsval * Z :=
  (Throw (Error ("request " ++ Z_to_string (x + 1) ++ " timed out")),
   (x + 1)%Z).

(** A server that refuses every connection. *)
Definition refusing (cino : string) (x : unit) : Result jsval * unit :=
  (Throw (Error "connect ETIMEDOUT"), x).

(** A server that answers every request with the same page. *)
Definition serving (cino : string) (x : unit) : Result jsval * unit :=
  (Ok (JObj [ ("status", JNum 200); ("data", JStr "<html></html>") ]), x).

(** A server that answers every request with an empty body. *)
Definition blank (cino : string) (x : unit) : Result jsval * unit :=
  (Ok (JObj [ ("status", JNum 200); ("data", JStr EmptyString) ]), x).

(** An extraction that only keeps the cino. *)
Definition cino_only (html : jsval) (cino : string) : Result jsval :=
  Ok (JObj [ ("cino", JStr cino) ]).

End Measures.

(* ================================================================= *)
(** ** Properties of the change detector *)

Module ChangeDetectionFacts.
Import JS ChangeDetectionService Spec.

Section WithEngine.
Context {E : Engine}.

Lemma getField_read (o : jsval) (k : string) :
  nullish o = false -> getField o k = Ok (read o k).
Proof.
  unfold read; destruct o; simpl; intros H; try discriminate; reflexivity.
Qed.

Lemma object_like_not_nullish (o : jsval) :
  object_like o = true -> nullish o = false.
Proof. destruct o; simpl; congruence. Qed.

Lemma compareFields_fieldLoop (old new : jsval) :
  nullish old = false -> nullish new = false ->
  forall fields changes,
    compareFields old new fields changes
    = Ok (fieldLoop old new fields changes).
Proof.
  intros Ho Hn fields.
  induction fields as [|field rest IH]; intros changes; simpl.
  - reflexivity.
  - rewrite (getField_read _ _ Ho), (getField_read _ _ Hn). apply IH.
Qed.

(** What the loop accumulates, field by field. *)
Lemma fieldLoop_spec (old new : jsval) (fields : list string) :
  forall c,
    let c' := fieldLoop old new fields c in
    changedFields c'
    = (changedFields c ++ filter (fieldChanged old new) fields)%list
    /\ criticalChanges c'
       = (criticalChanges c
          ++ filter (includes criticalFields)
               (filter (fieldChanged old new) fields))%list
    /\ hasChanges c' = hasChanges c || existsb (fieldChanged old new) fields
    /\ hasCriticalChanges c'
       = hasCriticalChanges c
         || existsb (includes criticalFields)
              (filter (fieldChanged old new) fields).
Proof.
  induction fields as [|field rest IH]; intros c.
  - cbn. rewrite !app_nil_r, !orb_false_r. repeat split.
  - change (fieldLoop old new (field :: rest) c)
      with (fieldLoop old new rest
              (recordField c field
                 (compareField field (read old field) (read new field)))).
    destruct (IH (recordField c field
                    (compareField field (read old field) (read new field))))
      as (H1 & H2 & H3 & H4).
    cbv zeta in *. rewrite H1, H2, H3, H4. clear H1 H2 H3 H4 IH.
    cbn [filter existsb]. unfold recordField.
    fold (fieldChanged old new field).
    destruct (fieldChanged old new field); cbn [filter existsb].
    + destruct (includes criticalFields field);
        cbn [changedFields criticalChanges hasChanges hasCriticalChanges
             filter existsb];
        rewrite <- ?app_assoc; cbn [app]; rewrite ?orb_true_r; repeat split.
    + repeat split.
Qed.

Lemma includes_filter (p : string -> bool) (l : list string) (x : string) :
  includes (filter p l) x = p x && includes l x.
Proof.
  unfold includes. induction l as [|y l IH]; simpl.
  - now rewrite andb_false_r.
  - destruct (p y) eqn:Hy; simpl; rewrite IH.
    + destruct (String.eqb x y) eqn:Hxy; simpl.
      * apply String.eqb_eq in Hxy. subst. now rewrite Hy.
      * reflexivity.
    + destruct (String.eqb x y) eqn:Hxy; simpl.
      * apply String.eqb_eq in Hxy. subst. now rewrite Hy.
      * reflexivity.
Qed.

Lemma nonempty_existsb {A : Type} (p : A -> bool) (l : list A) :
  existsb p l = true <-> filter p l <> [].
Proof.
  induction l as [|x l IH]; simpl.
  - split; [discriminate | congruence].
  - destruct (p x); simpl.
    + split; [discriminate | reflexivity].
    + exact IH.
Qed.

Lemma existsb_filter {A : Type} (p q : A -> bool) (l : list A) :
  existsb q (filter p l) = true <-> filter q (filter p l) <> [].
Proof. apply nonempty_existsb. Qed.

Lemma detectChanges_ok (old new : jsval) :
  nullish old = false -> nullish new = false ->
  exists cs,
    snd (detectChanges old new) = Ok cs
    /\ hasChanges cs = hasChanges (compared old new)
    /\ hasCriticalChanges cs = hasCriticalChanges (compared old new)
    /\ changedFields cs = changedFields (compared old new)
    /\ criticalChanges cs = criticalChanges (compared old new)
    /\ detailedChanges cs = detailedChanges (compared old new)
    /\ notificationPriority cs
       = determineNotificationPriority (compared old new).
Proof.
  intros Ho Hn. unfold detectChanges.
  rewrite (compareFields_fieldLoop old new Ho Hn). fold (compared old new).
  destruct (generateDataHash new) as [log_new hash_new].
  rewrite (getField_read _ _ Ho).
  destruct (truthy (read old "dataHash")); [|destruct (generateDataHash old)];
    simpl; eexists; (split; [reflexivity|]); simpl; repeat split.
Qed.

Lemma compared_spec (old new : jsval) :
  let ch := fieldChanged old new in
  changedFields (compared old new) = filter ch significantFields
  /\ criticalChanges (compared old new)
     = filter (includes criticalFields) (filter ch significantFields)
  /\ hasChanges (compared old new) = existsb ch significantFields
  /\ hasCriticalChanges (compared old new)
     = existsb (includes criticalFields) (filter ch significantFields).
Proof.
  destruct (fieldLoop_spec old new significantFields initialChanges)
    as (H1 & H2 & H3 & H4).
  unfold compared. cbv zeta. rewrite H1, H2, H3, H4. repeat split.
Qed.

Lemma priority_precedence (old new : jsval) :
  determineNotificationPriority (compared old new)
  = expectedPriority (fieldChanged old new).
Proof.
  destruct (compared_spec old new) as (H1 & H2 & H3 & H4).
  unfold determineNotificationPriority, expectedPriority.
  rewrite H1, H2, H3, H4, !includes_filter. clear H1 H2 H3 H4.
  cbn [significantFields criticalFields existsb filter includes].
  set (ch := fieldChanged old new).
  cbn.
  destruct (ch "caseStatus"), (ch "nextHearingDate"), (ch "firstHearingDate"),
    (ch "stageOfCase"), (ch "coram"), (ch "orderDetails"),
    (ch "listingHistory"), (ch "iaApplications"); reflexivity.
Qed.

Lemma compareArrays_lengths (old new : list jsval) :
  compareArrays (JArr old) (JArr new)
  = negb (List.length old =? List.length new)%nat.
Proof.
  unfold compareArrays.
  destruct (List.length old =? List.length new)%nat eqn:H; simpl.
  - apply Nat.eqb_eq in H. rewrite H. apply Nat.ltb_irrefl.
  - reflexivity.
Qed.


Lemma same_length_not_flagged (field : string) (old new : list jsval) :
  field = "listingHistory" \/ field = "iaApplications" ->
  List.length old = List.length new ->
  hasChange (compareField field (JArr old) (JArr new)) = false.
Proof.
  intros [-> | ->] H; unfold compareField; cbn -[compareArrays];
    rewrite compareArrays_lengths, H, Nat.eqb_refl; reflexivity.
Qed.

Lemma different_length_flagged (field : string) (old new : list jsval) :
  field = "listingHistory" \/ field = "iaApplications" ->
  List.length old <> List.length new ->
  hasChange (compareField field (JArr old) (JArr new)) = true.
Proof.
  intros [-> | ->] H; unfold compareField; cbn -[compareArrays];
    rewrite compareArrays_lengths;
    apply Nat.eqb_neq in H; rewrite H; reflexivity.
Qed.

End WithEngine.

Import Samples ReferenceEngine.

(** C1 (the code departs from the claim).  Claim: a list field is flagged
    only when the new list is strictly longer than the old one.
    [compareArrays] returns [true] as soon as the two lengths differ, so the
    comparison for growth below it is never reached with different lengths:
    with a listing history of three entries before and the first two of them
    after, [detectChanges] reports [listingHistory] as changed, with the
    description of added entries and priority [medium]; with the same three
    entries reordered it reports nothing. *)
Theorem C1_shrunk_listing_history_is_flagged :
  list_length (read three_entries "listingHistory") = 3
  /\ list_length (read two_entries "listingHistory") = 2
  /\ (exists cs,
        snd (detectChanges (E := utc_engine) three_entries two_entries) = Ok cs
        /\ hasChanges cs = true
        /\ changedFields cs = ["listingHistory"]
        /\ option_map description (lookup "listingHistory" (detailedChanges cs))
           = Some "New entries added to listing history"
        /\ notificationPriority cs = medium)
  /\ (exists cs,
        snd (detectChanges (E := utc_engine) three_entries reordered_entries)
        = Ok cs
        /\ hasChanges cs = false).
Proof.
  split; [reflexivity|]. split; [reflexivity|].
  split; eexists; (split; [vm_compute; reflexivity|]); repeat split.
Qed.

(** C5, counterexample.  Claim: an argument that is not object-like makes
    [detectChanges] fail.  A string and a number are not object-like, and
    the call returns an empty ChangeSet. *)
Lemma C5_primitive_arguments_are_accepted :
  object_like (JStr "not a record") = false
  /\ object_like (JNum 42) = false
  /\ exists cs,
       snd (detectChanges (E := utc_engine) (JStr "not a record") (JNum 42))
       = Ok cs
       /\ hasChanges cs = false.
Proof.
  split; [reflexivity|]. split; [reflexivity|].
  eexists; split; [vm_compute; reflexivity | reflexivity].
Qed.

(** [validateInput] rejects the pair that [detectChanges] accepts. *)
Example validateInput_rejects_primitives :
  validateInput (JStr "not a record") (JNum 42)
  = ([Logger.warn "Invalid input for change detection: data must be objects"],
     false).
Proof. reflexivity. Qed.

(** C7.  For object-like snapshots [detectChanges] returns a ChangeSet whose
    priority follows the precedence: [urgent] when nextHearingDate changed,
    else [high] when caseStatus or stageOfCase changed, else [medium] when
    listingHistory changed, else [low] when another significant field
    changed, else [none].  And with a hearing date going from [null] to
    ["2025-01-01"], a date every engine parses, the priority is [urgent]. *)
Theorem C7_priority_precedence {E : Engine} (old new : jsval) :
  object_like old = true ->
  object_like new = true ->
  (exists cs,
     snd (detectChanges old new) = Ok cs
     /\ notificationPriority cs = expectedPriority (fieldChanged old new))
  /\ (forall t,
        Date_parse "2025-01-01" = Some t ->
        exists cs,
          snd (detectChanges hearing_unset hearing_set) = Ok cs
          /\ notificationPriority cs = urgent).
Proof.
  intros Ho Hn.
  assert (G : forall a b, nullish a = false -> nullish b = false ->
              exists cs, snd (detectChanges a b) = Ok cs
                         /\ notificationPriority cs
                            = expectedPriority (fieldChanged a b)).
  { intros a b Ha Hb.
    destruct (detectChanges_ok a b Ha Hb) as (cs & Hcs & _ & _ & _ & _ & _ & Hp).
    exists cs. split; [exact Hcs|]. rewrite Hp. apply priority_precedence. }
  split.
  - apply G; now apply object_like_not_nullish.
  - intros t Ht.
    destruct (G hearing_unset hearing_set eq_refl eq_refl) as (cs & Hcs & Hp).
    exists cs. split; [exact Hcs|]. rewrite Hp.
    unfold expectedPriority, fieldChanged, compareField, compareDates,
      normalizeDate.
    cbn. rewrite Ht. reflexivity.
Qed.

(** C7 at the pair of the scenario, with the reference engine. *)
Lemma C7_priority_precedence_witness :
  exists cs,
    snd (detectChanges (E := utc_engine) hearing_unset hearing_set) = Ok cs
    /\ notificationPriority cs = urgent.
Proof.
  exact (proj2 (C7_priority_precedence (E := utc_engine)
                  hearing_unset hearing_set eq_refl eq_refl)
           1735689600000%Z eq_refl).
Defined.

(** C10.  For object-like inputs the ChangeSet returned by [detectChanges]
    is consistent: [hasChanges] holds exactly when [changedFields] is not
    empty; [criticalChanges] is [changedFields] restricted to the critical
    fields, in the same order; [hasCriticalChanges] holds exactly when
    [criticalChanges] is not empty; and the priority is [none] exactly when
    [hasChanges] is false. *)
Theorem C10_changeset_consistent {E : Engine} (old new : jsval) :
  object_like old = true ->
  object_like new = true ->
  exists cs,
    snd (detectChanges old new) = Ok cs
    /\ (hasChanges cs = true <-> changedFields cs <> [])
    /\ criticalChanges cs = filter (includes criticalFields) (changedFields cs)
    /\ (hasCriticalChanges cs = true <-> criticalChanges cs <> [])
    /\ (notificationPriority cs = none <-> hasChanges cs = false).
Proof.
  intros Ho Hn.
  destruct (detectChanges_ok old new (object_like_not_nullish _ Ho)
              (object_like_not_nullish _ Hn))
    as (cs & Hcs & H1 & H2 & H3 & H4 & _ & Hp).
  destruct (compared_spec old new) as (S1 & S2 & S3 & S4).
  exists cs. split; [exact Hcs|].
  rewrite H1, H2, H3, H4, Hp, S2.
  unfold determineNotificationPriority.
  rewrite S1, S3, S4.
  split; [apply nonempty_existsb|].
  split; [reflexivity|].
  split; [apply nonempty_existsb|].
  destruct (existsb (fieldChanged old new) significantFields); cbn [negb].
  - split; [intros H | discriminate].
    repeat match type of H with
           | context [if ?b then _ else _] => destruct b
           end; discriminate H.
  - split; reflexivity.
Qed.

(** C10 at the listing history going from three entries to two. *)
Lemma C10_changeset_consistent_witness :
  exists cs,
    snd (detectChanges (E := utc_engine) three_entries two_entries) = Ok cs
    /\ (hasChanges cs = true <-> changedFields cs <> [])
    /\ criticalChanges cs = filter (includes criticalFields) (changedFields cs)
    /\ (hasCriticalChanges cs = true <-> criticalChanges cs <> [])
    /\ (notificationPriority cs = none <-> hasChanges cs = false).
Proof.
  exact (C10_changeset_consistent (E := utc_engine) three_entries two_entries
           eq_refl eq_refl).
Defined.

End ChangeDetectionFacts.

(* ================================================================= *)
(** ** Properties of the fingerprints *)

Module FingerprintFacts.
Import JS Spec Samples ReferenceEngine.

Example md5_of_the_empty_string :
  MD5.md5_hex EmptyString = "d41d8cd98f00b204e9800998ecf8427e".
Proof. vm_compute. reflexivity. Qed.

Example md5_of_abc : MD5.md5_hex "abc" = "900150983cd24fb0d6963f7d28e17f72".
Proof. vm_compute. reflexivity. Qed.

Example md5_of_eighty_digits :
  MD5.md5_hex
    "12345678901234567890123456789012345678901234567890123456789012345678901234567890"
  = "57edf4a22be3c955ac49da2e2107b67a".
Proof. vm_compute. reflexivity. Qed.

Example epoch_in_iso : toISOString 0 = "1970-01-01T00:00:00.000Z".
Proof. vm_compute. reflexivity. Qed.

Example leap_day_in_iso :
  toISOString 951782400001 = "2000-02-29T00:00:00.001Z".
Proof. vm_compute. reflexivity. Qed.

(** C6, counterexample.  Claim: the fingerprint function keeps only the
    last five listing-history entries.  Two snapshots with six entries that
    agree on every significant field and on the last five entries, and
    differ in the oldest entry only, get different fingerprints from the
    change detection service's [generateDataHash]. *)
Lemma C6_service_hash_reads_old_entries :
  (forall field,
      In field [ "caseStatus"; "nextHearingDate"; "firstHearingDate";
                 "stageOfCase"; "coram"; "orderDetails"; "iaApplications" ] ->
      read six_entries field = read six_entries_amended field)
  /\ (exists l l',
        read six_entries "listingHistory" = JArr l
        /\ read six_entries_amended "listingHistory" = JArr l'
        /\ slice_last 5 l = slice_last 5 l'
        /\ l <> l')
  /\ snd (ChangeDetectionService.generateDataHash (E := utc_engine) six_entries)
     <> snd (ChangeDetectionService.generateDataHash (E := utc_engine)
               six_entries_amended).
Proof.
  split.
  { intros field H. cbn in H.
    repeat (destruct H as [<- | H]; [reflexivity|]). contradiction. }
  split.
  { do 2 eexists. split; [reflexivity|]. split; [reflexivity|].
    split; [reflexivity | discriminate]. }
  vm_compute. discriminate.
Qed.

(** C6, as amended.  The Case model's [generateDataHash] method keeps only
    the last five listing-history entries before hashing: two documents
    that agree on caseStatus, nextHearingDate, stageOfCase, coram,
    iaApplications and on the last five entries of listingHistory get the
    same fingerprint, whatever the older entries are. *)
Theorem C6_model_hash_ignores_old_entries (a b : jsval) (la lb : list jsval) :
  read a "caseStatus" = read b "caseStatus" ->
  read a "nextHearingDate" = read b "nextHearingDate" ->
  read a "stageOfCase" = read b "stageOfCase" ->
  read a "coram" = read b "coram" ->
  read a "iaApplications" = read b "iaApplications" ->
  getField a "listingHistory" = Ok (JArr la) ->
  getField b "listingHistory" = Ok (JArr lb) ->
  slice_last 5 la = slice_last 5 lb ->
  exists h,
    CaseModel.generateDataHash a = Ok h /\ CaseModel.generateDataHash b = Ok h.
Proof.
  intros H1 H2 H3 H4 H5 Ha Hb Hl.
  assert (Na : nullish a = false) by (destruct a; simpl in *; congruence).
  assert (Nb : nullish b = false) by (destruct b; simpl in *; congruence).
  unfold CaseModel.generateDataHash, CaseModel.hashedObject.
  rewrite Ha, Hb.
  rewrite !(ChangeDetectionFacts.getField_read a), !(ChangeDetectionFacts.getField_read b)
    by assumption.
  rewrite H1, H2, H3, H4, H5.
  cbn [CaseModel.optional_slice_last5]. rewrite Hl.
  destruct (stringify None _) as [s|] eqn:Hs.
  - exists (MD5.md5_hex s). split; reflexivity.
  - discriminate Hs.
Qed.

(** C6, as amended, at the two snapshots of six entries. *)
Lemma C6_model_hash_ignores_old_entries_witness :
  exists h,
    CaseModel.generateDataHash six_entries = Ok h
    /\ CaseModel.generateDataHash six_entries_amended = Ok h.
Proof.
  apply (C6_model_hash_ignores_old_entries six_entries six_entries_amended
           [entry1; entry2; entry3; entry4; entry5; entry6]
           [amended_entry1; entry2; entry3; entry4; entry5; entry6]);
    reflexivity.
Defined.

End FingerprintFacts.

(* ================================================================= *)
(** ** Rules for computations *)

Module CompFacts.
Import JS Comp Domain Spec.

Lemma delays_app (t u : list Event) : delays (t ++ u) = delays t + delays u.
Proof. unfold delays. now rewrite filter_app, length_app. Qed.

Section Rules.
Context {Ext S : Type} (view : S -> World Ext).

Lemma safe_quiet {A} (m : M S A) : safe view m -> quiet view m.
Proof.
  intros H s. destruct (H s) as (a & s' & Hm & Hs & Hd).
  exists (Ok a), s'. auto.
Qed.

Lemma safe_ret {A} (a : A) : safe view (ret a).
Proof. intros s. exists a, s. auto. Qed.

Lemma quiet_throw {A} (e : Exn) : quiet view (@throw S A e).
Proof. intros s. exists (Throw e), s. auto. Qed.

Lemma quiet_of_result {A} (r : Result A) : quiet view (of_result r).
Proof. destruct r; [apply safe_quiet, safe_ret | apply quiet_throw]. Qed.

Lemma quiet_bind {A B} (m : M S A) (k : A -> M S B) :
  quiet view m -> (forall a, quiet view (k a)) -> quiet view (bind m k).
Proof.
  intros Hm Hk s. unfold bind.
  destruct (Hm s) as ([a|e] & s1 & -> & Hs & Hd).
  - destruct (Hk a s1) as (r & s2 & -> & Hs2 & Hd2).
    exists r, s2. repeat split; congruence.
  - exists (Throw e), s1. auto.
Qed.

Lemma safe_bind {A B} (m : M S A) (k : A -> M S B) :
  safe view m -> (forall a, safe view (k a)) -> safe view (bind m k).
Proof.
  intros Hm Hk s. unfold bind.
  destruct (Hm s) as (a & s1 & -> & Hs & Hd).
  destruct (Hk a s1) as (b & s2 & -> & Hs2 & Hd2).
  exists b, s2. repeat split; congruence.
Qed.

Lemma quiet_try_catch {A} (m : M S A) (h : Exn -> M S A) :
  quiet view m -> (forall e, quiet view (h e)) -> quiet view (try_catch m h).
Proof.
  intros Hm Hh s. unfold try_catch.
  destruct (Hm s) as ([a|e] & s1 & -> & Hs & Hd).
  - exists (Ok a), s1. auto.
  - destruct (Hh e s1) as (r & s2 & -> & Hs2 & Hd2).
    exists r, s2. repeat split; congruence.
Qed.

(** A handler that does not throw makes the whole [try] safe. *)
Lemma safe_try_catch {A} (m : M S A) (h : Exn -> M S A) :
  quiet view m -> (forall e, safe view (h e)) -> safe view (try_catch m h).
Proof.
  intros Hm Hh s. unfold try_catch.
  destruct (Hm s) as ([a|e] & s1 & -> & Hs & Hd).
  - exists a, s1. auto.
  - destruct (Hh e s1) as (b & s2 & -> & Hs2 & Hd2).
    exists b, s2. repeat split; congruence.
Qed.

End Rules.

Section WorldRules.
Context {Ext : Type} (C : Collaborators Ext).

#[local] Abbreviation whole := (fun w : World Ext => w).

Lemma safe_log (line : Logger.Line) : safe whole (log (Ext := Ext) line).
Proof.
  intros w. unfold log, emit, modify. eexists tt, _.
  split; [reflexivity|]. cbn [service trace]. rewrite delays_app.
  split; [reflexivity|]. cbn. lia.
Qed.

Lemma safe_now : safe whole (now C).
Proof. intros w. exists (clock C (ext w)), w. auto. Qed.

Lemma safe_this : safe whole (this (Ext := Ext)).
Proof. intros w. exists (service w), w. auto. Qed.

Lemma quiet_call {R} (c : Call R) : quiet whole (call C c).
Proof.
  intros w. unfold call. destruct (answer C c (ext w)) as [r x].
  eexists _, _. split; [reflexivity|]. cbn [service trace].
  rewrite delays_app. split; [reflexivity|]. cbn. lia.
Qed.

Lemma safe_logged {A} (r : list Logger.Line * A) :
  safe whole (MonitoringService.logged (Ext := Ext) r).
Proof.
  destruct r as [lines a]. unfold MonitoringService.logged. cbn [fst snd].
  induction lines as [|line lines IH]; cbn [fold_right].
  - apply safe_ret.
  - apply safe_bind; [apply safe_log | intros _; exact IH].
Qed.

(** *** Blocks with a local variable *)

Lemma quiet_lift {L A} (m : M (World Ext) A) :
  quiet whole m -> quiet (@snd L _) (lift m).
Proof.
  intros H [l w]. unfold lift. cbn [fst snd].
  destruct (H w) as (r & w' & -> & Hs & Hd).
  exists r, (l, w'). auto.
Qed.

Lemma safe_lift {L A} (m : M (World Ext) A) :
  safe whole m -> safe (@snd L _) (lift m).
Proof.
  intros H [l w]. unfold lift. cbn [fst snd].
  destruct (H w) as (a & w' & -> & Hs & Hd).
  exists a, (l, w'). auto.
Qed.

Lemma safe_local {L} : safe (@snd L (World Ext)) local.
Proof. intros s. exists (fst s), s. auto. Qed.

Lemma safe_set_local {L} (f : L -> L) :
  safe (@snd L (World Ext)) (set_local f).
Proof. intros s. exists tt. eexists. split; [reflexivity|]. auto. Qed.

Lemma safe_with_local {L A} (init : L) (m : M (L * World Ext) A) :
  safe (@snd L _) m -> safe whole (with_local init m).
Proof.
  intros H w. unfold with_local.
  destruct (H (init, w)) as (a & [l w'] & -> & Hs & Hd).
  exists a, w'. auto.
Qed.

End WorldRules.

(** Decompose a computation by the rules above. *)
Ltac quiet_step :=
  lazymatch goal with
  | |- safe _ (bind _ _) => apply safe_bind; [|intro]
  | |- quiet _ (bind _ _) => apply quiet_bind; [|intro]
  | |- safe _ (try_catch _ _) => apply safe_try_catch; [|intro]
  | |- quiet _ (try_catch _ _) => apply quiet_try_catch; [|intro]
  | |- safe _ (ret _) => apply safe_ret
  | |- quiet _ (ret _) => apply safe_quiet, safe_ret
  | |- quiet _ (throw _) => apply quiet_throw
  | |- quiet _ (of_result _) => apply quiet_of_result
  | |- safe _ (log _) => apply safe_log
  | |- quiet _ (log _) => apply safe_quiet, safe_log
  | |- safe _ (now _) => apply safe_now
  | |- quiet _ (now _) => apply safe_quiet, safe_now
  | |- safe _ this => apply safe_this
  | |- quiet _ this => apply safe_quiet, safe_this
  | |- quiet _ (call _ _) => apply quiet_call
  | |- safe _ (MonitoringService.logged _) => apply safe_logged
  | |- quiet _ (MonitoringService.logged _) => apply safe_quiet, safe_logged
  | |- safe _ (lift _) => apply safe_lift
  | |- quiet _ (lift _) => apply quiet_lift
  | |- safe _ local => apply safe_local
  | |- safe _ (set_local _) => apply safe_set_local
  | |- safe _ (with_local _ _) => apply safe_with_local
  | |- _ _ (if ?b then _ else _) => destruct b
  | |- _ _ (match ?x with _ => _ end) => destruct x
  end.

Ltac quiet_steps := repeat quiet_step.

(** *** Where the events fall *)

Lemma fetched_app (t u : list Event) :
  fetched (t ++ u) = (fetched t ++ fetched u)%list.
Proof. unfold fetched. apply flat_map_app. Qed.

Lemma housekeeping_events (t : list Event) :
  forallb housekeeping t = true -> delays t = 0 /\ fetched t = [].
Proof.
  induction t as [|e t IH]; [now split|].
  cbn [forallb]. intros H. apply andb_prop in H as (He & Ht).
  destruct (IH Ht) as (D & F).
  change (e :: t) with ([e] ++ t)%list. rewrite delays_app, fetched_app, D, F.
  destruct e as [line|ms|R c]; [now split | discriminate He |].
  destruct c; try discriminate He; now split.
Qed.

Section Discreet.
Context {Ext : Type} (C : Collaborators Ext).

Lemma discreet_ret {A} (a : A) : discreet (Ext := Ext) (ret a).
Proof.
  intros w. exists (Ok a), w. split; [reflexivity|]. split; [reflexivity|].
  exists []. now rewrite app_nil_r.
Qed.

Lemma discreet_throw {A} (e : Exn) : discreet (Ext := Ext) (@throw _ A e).
Proof.
  intros w. exists (Throw e), w. split; [reflexivity|]. split; [reflexivity|].
  exists []. now rewrite app_nil_r.
Qed.

Lemma discreet_of_result {A} (r : Result A) :
  discreet (Ext := Ext) (of_result r).
Proof. destruct r; [apply discreet_ret | apply discreet_throw]. Qed.

Lemma discreet_bind {A B} (m : M (World Ext) A) (k : A -> M (World Ext) B) :
  discreet m -> (forall a, discreet (k a)) -> discreet (bind m k).
Proof.
  intros Hm Hk w. unfold bind.
  destruct (Hm w) as ([a|e] & w1 & -> & S1 & t1 & T1 & H1).
  - destruct (Hk a w1) as (r & w2 & -> & S2 & t2 & T2 & H2).
    exists r, w2. split; [reflexivity|]. split; [congruence|].
    exists (t1 ++ t2)%list. rewrite T2, T1, <- app_assoc, forallb_app, H1, H2.
    now split.
  - exists (Throw e), w1. split; [reflexivity|]. split; [exact S1|].
    now exists t1.
Qed.

Lemma discreet_try_catch {A} (m : M (World Ext) A)
  (h : Exn -> M (World Ext) A) :
  discreet m -> (forall e, discreet (h e)) -> discreet (try_catch m h).
Proof.
  intros Hm Hh w. unfold try_catch.
  destruct (Hm w) as ([a|e] & w1 & -> & S1 & t1 & T1 & H1).
  - exists (Ok a), w1. split; [reflexivity|]. split; [exact S1|].
    now exists t1.
  - destruct (Hh e w1) as (r & w2 & -> & S2 & t2 & T2 & H2).
    exists r, w2. split; [reflexivity|]. split; [congruence|].
    exists (t1 ++ t2)%list. rewrite T2, T1, <- app_assoc, forallb_app, H1, H2.
    now split.
Qed.

Lemma discreet_log (line : Logger.Line) : discreet (log (Ext := Ext) line).
Proof.
  intros w. unfold log, emit, modify. eexists (Ok tt), _.
  split; [reflexivity|]. split; [reflexivity|]. now eexists [_].
Qed.

Lemma discreet_now : discreet (now C).
Proof.
  intros w. exists (Ok (clock C (ext w))), w. split; [reflexivity|].
  split; [reflexivity|]. exists []. now rewrite app_nil_r.
Qed.

Lemma discreet_call {R} (c : Call R) :
  housekeeping (Called c) = true -> discreet (call C c).
Proof.
  intros H w. unfold call. destruct (answer C c (ext w)) as [r x].
  eexists _, _. split; [reflexivity|]. split; [reflexivity|].
  exists [Called c]. cbn [trace forallb]. now rewrite H.
Qed.

Lemma discreet_logged {A} (r : list Logger.Line * A) :
  discreet (MonitoringService.logged (Ext := Ext) r).
Proof.
  destruct r as [lines a]. unfold MonitoringService.logged. cbn [fst snd].
  induction lines as [|line lines IH]; cbn [fold_right].
  - apply discreet_ret.
  - apply discreet_bind; [apply discreet_log | intros _; exact IH].
Qed.

End Discreet.

Ltac discreet_step :=
  lazymatch goal with
  | |- discreet (bind _ _) => apply discreet_bind; [|intro]
  | |- discreet (try_catch _ _) => apply discreet_try_catch; [|intro]
  | |- discreet (ret _) => apply discreet_ret
  | |- discreet (throw _) => apply discreet_throw
  | |- discreet (of_result _) => apply discreet_of_result
  | |- discreet (log _) => apply discreet_log
  | |- discreet (now _) => apply discreet_now
  | |- discreet (call _ _) => apply discreet_call; reflexivity
  | |- discreet (MonitoringService.logged _) => apply discreet_logged
  | |- discreet (if ?b then _ else _) => destruct b
  | |- discreet (match ?x with _ => _ end) => destruct x
  end.

Ltac discreet_steps := repeat discreet_step.

Lemma try_bind {S A B : Type} (m : M S A) (k : A -> M S B)
  (h : Exn -> M S B) (s : S) :
  try_catch (bind m k) h s
  = match m s with
    | None => None
    | Some (Ok a, s1) => try_catch (k a) h s1
    | Some (Throw e, s1) => h e s1
    end.
Proof.
  unfold try_catch, bind. destruct (m s) as [[[a|e] s1]|]; reflexivity.
Qed.

End CompFacts.

(* ================================================================= *)
(** ** Properties of the monitoring cycle *)

Module MonitoringFacts.
Import JS Comp Domain ChangeDetectionService Spec CompFacts.
Import WhatsAppService MonitoringService.
Local Open Scope comp_scope.

(** *** Batches *)

Section Batches.
Context {A : Type}.

Lemma slice_chunk (cases : list A) (i size : Z) :
  (0 <= i)%Z -> (0 < size)%Z ->
  slice i (i + size) cases
  = firstn (Z.to_nat size) (skipn (Z.to_nat i) cases).
Proof.
  intros Hi Hs. unfold slice.
  destruct (Z.ltb_spec i 0); [lia|].
  destruct (Z.ltb_spec (i + size) 0); [lia|].
  set (len := Z.of_nat (List.length cases)).
  destruct (Z.le_gt_cases len i) as [Hle | Hlt].
  - rewrite skipn_all2 by (fold len; lia).
    rewrite (Z.min_r i len) by lia.
    rewrite skipn_all2 by lia. now rewrite !firstn_nil.
  - rewrite (Z.min_l i len) by lia.
    destruct (Z.le_gt_cases (i + size) len).
    + rewrite Z.min_l by lia. f_equal. lia.
    + rewrite Z.min_r by lia.
      rewrite !firstn_all2; [reflexivity | |];
        rewrite length_skipn; fold len; lia.
Qed.

Lemma createBatches_from_chunks (cases : list A) (size : Z) :
  (0 < size)%Z ->
  forall fuel i batches,
    (0 <= i)%Z ->
    (Z.of_nat (List.length cases) - i <= Z.of_nat fuel)%Z ->
    createBatches_from fuel cases size i batches
    = Some (batches
            ++ chunks fuel (Z.to_nat size) (skipn (Z.to_nat i) cases))%list.
Proof.
  intros Hs fuel.
  induction fuel as [|fuel IH]; intros i batches Hi Hfuel;
    cbn [createBatches_from].
  - destruct (Z.ltb_spec i (Z.of_nat (List.length cases))); [lia|].
    cbn. now rewrite app_nil_r.
  - destruct (Z.ltb_spec i (Z.of_nat (List.length cases))) as [Hlt | Hge].
    + rewrite IH by lia.
      rewrite slice_chunk by lia.
      replace (Z.to_nat (i + size)) with (Z.to_nat size + Z.to_nat i)%nat by lia.
      rewrite <- skipn_skipn.
      destruct (skipn (Z.to_nat i) cases) as [|x rest] eqn:Hskip.
      * apply (f_equal (@List.length A)) in Hskip.
        rewrite length_skipn in Hskip. cbn in Hskip. lia.
      * cbn [chunks]. now rewrite <- app_assoc.
    + rewrite skipn_all2 by lia. cbn. now rewrite app_nil_r.
Qed.

(** [createBatches] is the chunking of the list. *)
Lemma createBatches_chunks (cases : list A) (size : Z) :
  (0 < size)%Z ->
  createBatches cases size
  = Some (chunks (S (List.length cases)) (Z.to_nat size) cases).
Proof.
  intros Hs. unfold createBatches.
  rewrite createBatches_from_chunks by lia. reflexivity.
Qed.

Lemma concat_chunks (size : nat) :
  0 < size ->
  forall fuel (l : list A),
    List.length l <= fuel -> List.concat (chunks fuel size l) = l.
Proof.
  intros Hs fuel.
  induction fuel as [|fuel IH]; intros l Hl.
  - destruct l; [reflexivity | cbn in Hl; lia].
  - destruct l as [|x r]; [reflexivity|].
    cbn [chunks List.concat]. rewrite IH.
    + apply firstn_skipn.
    + rewrite length_skipn. cbn [List.length] in *. lia.
Qed.

Lemma chunks_sizes (size : nat) :
  0 < size ->
  forall fuel (l : list A),
    Forall (fun b => 1 <= List.length b <= size) (chunks fuel size l).
Proof.
  intros Hs fuel.
  induction fuel as [|fuel IH]; intros l; [constructor|].
  destruct l as [|x r]; [constructor|].
  cbn [chunks]. constructor; [|apply IH].
  rewrite length_firstn. cbn [List.length]. lia.
Qed.

Lemma chunks_full (size : nat) :
  forall fuel (l : list A) k,
    S k < List.length (chunks fuel size l) ->
    List.length (nth k (chunks fuel size l) []) = size.
Proof.
  intros fuel.
  induction fuel as [|fuel IH]; intros l k Hk; [cbn in Hk; lia|].
  destruct l as [|x r]; [cbn in Hk; lia|].
  cbn [chunks] in *. cbn [List.length] in Hk.
  destruct k as [|k].
  - cbn [nth]. rewrite length_firstn.
    destruct fuel as [|fuel']; [cbn in Hk; lia|].
    destruct (skipn size (x :: r)) as [|y t] eqn:Hskip; [cbn in Hk; lia|].
    apply (f_equal (@List.length A)) in Hskip.
    rewrite length_skipn in Hskip. cbn [List.length] in *. lia.
  - cbn [nth]. apply IH. lia.
Qed.

Lemma seven_by_three (l : list A) :
  List.length l = 7 -> map (@List.length A) (chunks 8 3 l) = [3; 3; 1].
Proof.
  intros H.
  destruct l as [|a1 [|a2 [|a3 [|a4 [|a5 [|a6 [|a7 [|a8 l]]]]]]]];
    cbn in H; try discriminate H.
  reflexivity.
Qed.

End Batches.

Section WithCollaborators.
Context {E : Engine} {Ext : Type} (C : Collaborators Ext).
Variable render : User -> Subscription -> ChangeData -> Z -> Result string.

#[local] Abbreviation whole := (fun w : World Ext => w).

Lemma bind_ok {S A B} (m : M S A) (k : A -> M S B) s a s' :
  m s = Some (Ok a, s') -> bind m k s = k a s'.
Proof. intros H. unfold bind. now rewrite H. Qed.

Lemma quiet_sendMessage numbers message :
  quiet whole (sendMessage C numbers message).
Proof. unfold sendMessage. quiet_steps. Qed.

Lemma safe_sendPersonalizedNotification user subscription changeData :
  safe whole (sendPersonalizedNotification C render user subscription changeData).
Proof.
  unfold sendPersonalizedNotification. quiet_steps.
  apply quiet_sendMessage.
Qed.

Lemma safe_notifySubscribers subscriptions changeData :
  safe (@snd _ _) (notifySubscribers C render subscriptions changeData).
Proof.
  induction subscriptions as [|s rest IH]; cbn [notifySubscribers].
  - apply safe_ret.
  - quiet_steps; try exact IH.
    apply safe_sendPersonalizedNotification.
Qed.

Lemma safe_notifyChanges allChanges :
  safe (@snd _ _) (notifyChanges C render allChanges).
Proof.
  induction allChanges as [|c rest IH]; cbn [notifyChanges].
  - apply safe_ret.
  - quiet_steps; try exact IH.
    apply safe_quiet, safe_notifySubscribers.
Qed.

Lemma safe_processNotifications allChanges :
  safe whole (processNotifications C render allChanges).
Proof.
  unfold processNotifications. quiet_steps. apply safe_notifyChanges.
Qed.

Lemma quiet_updateCaseWithChanges caseDoc newCaseData changeResult :
  quiet whole (updateCaseWithChanges C caseDoc newCaseData changeResult).
Proof. unfold updateCaseWithChanges. quiet_steps. Qed.

Lemma quiet_processCase caseDoc : quiet whole (processCase C caseDoc).
Proof.
  unfold processCase. quiet_steps. apply quiet_updateCaseWithChanges.
Qed.

(** [processBatch] contains every failure of a case. *)
Lemma safe_processBatch_from batch batchChanges :
  safe whole (processBatch_from C batch batchChanges).
Proof.
  revert batchChanges.
  induction batch as [|caseDoc rest IH]; intros batchChanges;
    cbn [processBatch_from].
  - apply safe_ret.
  - quiet_steps; try apply IH. apply quiet_processCase.
Qed.

Lemma safe_getCasesToCheck : safe whole (getCasesToCheck C).
Proof. unfold getCasesToCheck, findCandidates. quiet_steps. Qed.

Lemma safe_logCycleSummary startTime summary :
  safe whole (logCycleSummary C startTime summary).
Proof. unfold logCycleSummary. quiet_steps. Qed.

Lemma safe_sendToAdmins adminNumbers message :
  quiet whole (sendToAdmins C adminNumbers message).
Proof.
  induction adminNumbers as [|n rest IH]; cbn [sendToAdmins].
  - quiet_steps.
  - quiet_steps; [apply quiet_sendMessage | exact IH].
Qed.

Lemma safe_sendErrorNotification error :
  safe whole (sendErrorNotification C error).
Proof.
  unfold sendErrorNotification. quiet_steps; apply safe_sendToAdmins.
Qed.


(** The batch loop: it returns, leaves the service fields alone and invokes
    the delay once after every batch but the last. *)
Lemma processBatches_delays remaining :
  forall i n allChanges w,
    i + List.length remaining = n ->
    exists a w',
      processBatches C remaining i n allChanges w = Some (Ok a, w')
      /\ service w' = service w
      /\ delays (trace w') = delays (trace w) + (List.length remaining - 1).
Proof.
  induction remaining as [|batch rest IH]; intros i n allChanges w Hn.
  - exists allChanges, w. cbn. repeat split. lia.
  - cbn [processBatches List.length] in *.
    match goal with
    | |- context [bind (log ?l) _] =>
        destruct (safe_log l w) as (u & w1 & H1 & S1 & D1)
    end.
    rewrite (bind_ok _ _ _ _ _ H1).
    destruct (safe_processBatch_from batch [] w1) as (bc & w2 & H2 & S2 & D2).
    unfold processBatch. rewrite (bind_ok _ _ _ _ _ H2).
    destruct (Nat.ltb_spec i (n - 1)) as [Hlt | Hge].
    + destruct rest as [|b' rest']; [cbn in Hn; lia|].
      unfold bind at 1. cbn [bind this delay emit modify].
      match goal with
      | |- context [processBatches C ?r ?j ?m ?acc ?w3] =>
          destruct (IH j m acc w3) as (a & w' & H3 & S3 & D3); [lia|]
      end.
      exists a, w'. split; [exact H3|].
      cbn [service trace] in *. rewrite delays_app in D3. cbn in D3.
      split; [congruence|]. cbn [List.length] in *. lia.
    + destruct rest as [|b' rest']; [|cbn in Hn; lia].
      unfold bind at 1. cbn [ret].
      exists (allChanges ++ bc)%list, w2. cbn.
      repeat split; [congruence | lia].
Qed.

(** *** The trace of the batch loop *)

Lemma discreet_updateCaseWithChanges caseDoc newCaseData changeResult :
  discreet (updateCaseWithChanges C caseDoc newCaseData changeResult).
Proof. unfold updateCaseWithChanges. discreet_steps. Qed.

(** [processCase] asks the court's server once, before anything else, for
    the case it is given, and takes no delay. *)
Lemma processCase_trace (caseDoc : CaseDoc) (w : World Ext) :
  exists r w' added,
    processCase C caseDoc w = Some (r, w')
    /\ service w' = service w
    /\ trace w'
       = (trace w ++ Called (fetchSingleCase (cino caseDoc)) :: added)%list
    /\ forallb housekeeping added = true.
Proof.
  unfold processCase.
  match goal with
  | |- context [try_catch (bind (call C ?c) ?k) ?h] =>
      assert (Hk : forall a, discreet (try_catch (k a) h))
        by (intros a; cbv beta; discreet_steps;
            apply discreet_updateCaseWithChanges);
      assert (Hh : forall e, discreet (h e)) by (intros e; discreet_steps)
  end.
  rewrite try_bind.
  unfold call at 1.
  destruct (answer C (fetchSingleCase (cino caseDoc)) (ext w)) as [[a|e] x].
  - destruct (Hk a (mkWorld (service w) x
                      (trace w ++ [Called (fetchSingleCase (cino caseDoc))])))
      as (r & w' & H & S1 & added & T & F).
    exists r, w', added. split; [exact H|]. split; [exact S1|].
    split; [|exact F]. rewrite T. cbn [trace]. now rewrite <- app_assoc.
  - destruct (Hh e (mkWorld (service w) x
                      (trace w ++ [Called (fetchSingleCase (cino caseDoc))])))
      as (r & w' & H & S1 & added & T & F).
    exists r, w', added. split; [exact H|]. split; [exact S1|].
    split; [|exact F]. rewrite T. cbn [trace]. now rewrite <- app_assoc.
Qed.

Lemma processBatch_from_trace (batch : list CaseDoc) :
  forall batchChanges (w : World Ext),
    exists found w' added,
      processBatch_from C batch batchChanges w = Some (Ok found, w')
      /\ service w' = service w
      /\ trace w' = (trace w ++ added)%list
      /\ delays added = 0
      /\ fetched added = map cino batch.
Proof.
  induction batch as [|caseDoc rest IH]; intros batchChanges w.
  - exists batchChanges, w, []. cbn. now rewrite app_nil_r.
  - cbn [processBatch_from]. unfold bind at 1. rewrite try_bind.
    destruct (processCase_trace caseDoc w)
      as (r & w1 & t1 & -> & S1 & T1 & F1).
    apply housekeeping_events in F1 as (D1 & F1).
    assert (Hstep : exists acc w2 t2,
               match r with
               | Ok found =>
                   try_catch
                     (match found with
                      | Some c => ret (batchChanges ++ [c])%list
                      | None => ret batchChanges
                      end)
                     (fun error =>
                        log (Logger.error
                               ("Error processing case " ++ cino caseDoc ++ ":")
                               (emessage error)) ;;
                        ret batchChanges) w1
               | Throw e =>
                   (log (Logger.error
                           ("Error processing case " ++ cino caseDoc ++ ":")
                           (emessage e)) ;;
                    ret batchChanges) w1
               end = Some (Ok acc, w2)
               /\ service w2 = service w1
               /\ trace w2 = (trace w1 ++ t2)%list
               /\ delays t2 = 0 /\ fetched t2 = []).
    { destruct r as [[c|]|e].
      - exists (batchChanges ++ [c])%list, w1, []. rewrite app_nil_r.
        now repeat split.
      - exists batchChanges, w1, []. rewrite app_nil_r. now repeat split.
      - eexists batchChanges, _, [_]. split; [reflexivity|]. now repeat split. }
    destruct Hstep as (acc & w2 & t2 & -> & S2 & T2 & D2 & F2).
    destruct (IH acc w2) as (found & w' & t3 & H3 & S3 & T3 & D3 & F3).
    exists found, w', (Called (fetchSingleCase (cino caseDoc)) :: t1 ++ t2 ++ t3)%list.
    split; [exact H3|]. split; [congruence|].
    split; [rewrite T3, T2, T1, <- !app_assoc; reflexivity|].
    change (Called (fetchSingleCase (cino caseDoc)) :: t1 ++ t2 ++ t3)%list
      with ([Called (fetchSingleCase (cino caseDoc))] ++ t1 ++ t2 ++ t3)%list.
    rewrite !delays_app, !fetched_app, D1, D2, D3, F1, F2, F3.
    split; reflexivity.
Qed.

Lemma join_cons {A : Type} (sep l : list A) (ls : list (list A)) :
  ls <> [] -> join sep (l :: ls) = (l ++ sep ++ join sep ls)%list.
Proof. destruct ls; [congruence | reflexivity]. Qed.

(** The batch loop: the events of the batches, each with the requests for
    its own cases and without a delay, and the delay between every two of
    them. *)
Lemma processBatches_trace (remaining : list (list CaseDoc)) :
  forall i n allChanges (w : World Ext),
    i + List.length remaining = n ->
    exists a w' segments,
      processBatches C remaining i n allChanges w = Some (Ok a, w')
      /\ service w' = service w
      /\ trace w'
         = (trace w ++ join [Delayed (apiDelay (service w))] segments)%list
      /\ Forall2 (fun batch segment =>
                    delays segment = 0 /\ fetched segment = map cino batch)
           remaining segments.
Proof.
  induction remaining as [|batch rest IH]; intros i n allChanges w Hn.
  - exists allChanges, w, []. cbn. rewrite app_nil_r.
    repeat split. constructor.
  - cbn [processBatches List.length] in *.
    unfold bind at 1, log, emit, modify.
    unfold bind at 1, processBatch.
    match goal with
    | |- context [processBatch_from C batch [] ?w1] =>
        destruct (processBatch_from_trace batch [] w1)
          as (bc & w2 & t2 & -> & S2 & T2 & D2 & F2)
    end.
    cbn [service trace] in S2, T2.
    destruct (Nat.ltb_spec i (n - 1)) as [Hlt | Hge].
    + destruct rest as [|b' rest']; [cbn in Hn; lia|].
      unfold bind at 1, bind at 1, this, delay, emit, modify.
      match goal with
      | |- context [processBatches C ?r ?j ?m ?acc ?w3] =>
          destruct (IH j m acc w3) as (a & w' & segs & H3 & S3 & T3 & F3);
            [cbn [List.length] in *; lia|]
      end.
      cbn [service trace] in S3, T3.
      eexists a, w', ((_ :: t2) :: segs).
      split; [exact H3|]. split; [congruence|]. split.
      * rewrite join_cons by (inversion F3; discriminate).
        rewrite T3, T2, S2, <- !app_assoc. reflexivity.
      * constructor; [|exact F3]. split.
        -- change (?e :: t2) with ([e] ++ t2)%list. now rewrite delays_app, D2.
        -- exact F2.
    + destruct rest as [|b' rest']; [|cbn in Hn; lia].
      unfold bind at 1, ret. cbn [processBatches].
      eexists (allChanges ++ bc)%list, w2, [_ :: t2].
      split; [reflexivity|]. split; [exact S2|]. split.
      * cbn [join]. rewrite T2, <- app_assoc. reflexivity.
      * constructor; [|constructor]. split.
        -- change (?e :: t2) with ([e] ++ t2)%list. now rewrite delays_app, D2.
        -- exact F2.
Qed.

(** *** The cycle *)

Lemma run_entered (w : World Ext) :
  isRunning (service w) = false ->
  runMonitoringCycle C render w
  = try_finally
      (try_catch (cycleBody C render (clock C (ext w)))
                 (cycleFailed C (clock C (ext w))))
      (update_this (set_isRunning false))
      (entered w).
Proof.
  intros H. unfold runMonitoringCycle, bind at 1, this. rewrite H. reflexivity.
Qed.

(** The three queries only query. *)
Lemma findCandidates_frame (w : World Ext) :
  exists r w',
    findCandidates C w = Some (r, w')
    /\ service w' = service w
    /\ posts (trace w') = posts (trace w).
Proof.
  unfold findCandidates, bind, now, call, ret. cbn [service ext trace].
  repeat match goal with
         | |- context [answer C ?c ?x] =>
             destruct (answer C c x) as [[?|?] ?]; cbn [service ext trace]
         end;
    eexists _, _; (split; [reflexivity|]); cbn [service trace];
    (split; [reflexivity|]);
    unfold posts; rewrite <- ?app_assoc, filter_app; cbn;
    now rewrite app_nil_r.
Qed.

(** Every outcome of a cycle entered with a positive batch size: it
    returns normally, counts the run and no error, and records the success
    and the start time exactly when at least one candidate was found. *)
Lemma cycle_outcomes (w : World Ext) :
  isRunning (service w) = false ->
  (0 < batchSize (service w))%Z ->
  exists r w',
    runMonitoringCycle C render w = Some (Ok r, w')
    /\ isRunning (service w') = false
    /\ runCount (service w') = (runCount (service w) + 1)%Z
    /\ errorCount (service w') = errorCount (service w)
    /\ ((exists message,
           r = completed_without_cases message
           /\ lastRunStatus (service w') = lastRunStatus (service w)
           /\ lastRunTime (service w') = lastRunTime (service w))
        \/ (exists allChanges summary notifications duration,
              r = completed allChanges summary notifications duration
              /\ lastRunStatus (service w') = Some run_success
              /\ lastRunTime (service w') = Some (clock C (ext w)))).
Proof.
  intros Hidle Hsize. rewrite (run_entered w Hidle).
  unfold try_finally, try_catch, cycleBody.
  destruct (safe_getCasesToCheck (entered w)) as (cases & w1 & H1 & S1 & _).
  rewrite (bind_ok _ _ _ _ _ H1).
  destruct (List.length cases =? 0)%nat.
  - cbn. eexists _, _. split; [reflexivity|]. cbn [service]. rewrite S1.
    cbn. repeat split. left. eexists. repeat split.
  - match goal with
    | |- context [bind (log ?l) _] =>
        destruct (safe_log l w1) as (u & w2 & H2 & S2 & _)
    end.
    rewrite (bind_ok _ _ _ _ _ H2).
    unfold bind at 1, this. rewrite S2, S1.
    change (batchSize (service (entered w))) with (batchSize (service w)).
    rewrite (createBatches_chunks cases _ Hsize).
    match goal with
    | |- context [processBatches C ?bs 0 ?n []] =>
        destruct (processBatches_delays bs 0 n [] w2 eq_refl)
          as (allChanges & w3 & H3 & S3 & _)
    end.
    rewrite (bind_ok _ _ _ _ _ H3).
    destruct (safe_processNotifications allChanges w3)
      as (results & w4 & H4 & S4 & _).
    rewrite (bind_ok _ _ _ _ _ H4).
    match goal with
    | |- context [logCycleSummary C ?st ?sm] =>
        destruct (safe_logCycleSummary st sm w4) as (u' & w5 & H5 & S5 & _)
    end.
    rewrite (bind_ok _ _ _ _ _ H5).
    cbn. eexists _, _. split; [reflexivity|]. cbn [service].
    rewrite S5, S4, S3, S2, S1. cbn.
    repeat split. right. do 4 eexists. repeat split.
Qed.

(** A transport failure behind [sendMessage] does not reach the [catch] of
    [sendPersonalizedNotification]: the subscription is still counted. *)
Lemma transport_failure_still_counted user subscription changeData
  (w : World Ext) key message clean e x x' :
  WHATSAPP_API_KEY (env C) = Some key ->
  String.eqb key EmptyString = false ->
  render user subscription changeData (clock C (ext w)) = Ok message ->
  validatePhoneNumber (mobileNumber user) = Ok clean ->
  answer C (axios_post apiUrl key [clean] message) (ext w) = (Throw e, x) ->
  answer C (UserCase_recordNotification (subscription_id subscription)
              (clock C x) 1) x = (Ok tt, x') ->
  exists outcome w',
    sendPersonalizedNotification C render user subscription changeData w
    = Some (Ok outcome, w')
    /\ success outcome = false
    /\ error outcome = None
    /\ ext w' = x'
    /\ In (Called (UserCase_recordNotification
                     (subscription_id subscription) (clock C x) 1))
          (trace w').
Proof.
  intros Hkey Hne Hmsg Hclean Hpost Hcount.
  unfold sendPersonalizedNotification, try_catch, bind at 1, now.
  rewrite Hmsg. unfold of_result, bind at 1, ret.
  unfold sendMessage. rewrite Hkey, Hne. cbn [List.length Nat.eqb].
  unfold validateAll. rewrite Hclean.
  unfold bind, try_catch, of_result, ret, call, log, emit, modify.
  cbn [ext service trace]. rewrite Hpost. cbn [ext service trace].
  rewrite Hcount. cbn [ext service trace send_success].
  eexists _, _. split; [reflexivity|]. cbn. split; [reflexivity|].
  split; [reflexivity|]. split; [reflexivity|].
  rewrite in_app_iff. right. left. reflexivity.
Qed.

(** When [sendMessage] throws, as it does without an API key, the [catch]
    of [sendPersonalizedNotification] builds the failed outcome with the
    error text and nothing is written to the subscription. *)
Lemma thrown_failure_is_not_counted user subscription changeData
  (w : World Ext) message :
  WHATSAPP_API_KEY (env C) = None ->
  render user subscription changeData (clock C (ext w)) = Ok message ->
  exists outcome w',
    sendPersonalizedNotification C render user subscription changeData w
    = Some (Ok outcome, w')
    /\ success outcome = false
    /\ error outcome = Some "WhatsApp API key not configured"
    /\ ext w' = ext w
    /\ trace w'
       = (trace w
          ++ [ Logged (Logger.error
                         ("Error sending notification to "
                          ++ mobileNumber user ++ ":")
                         "WhatsApp API key not configured") ])%list.
Proof.
  intros Hkey Hmsg.
  unfold sendPersonalizedNotification, try_catch, bind at 1, now.
  rewrite Hmsg. unfold of_result, bind at 1, ret.
  unfold sendMessage. rewrite Hkey.
  eexists _, _. split; [reflexivity|]. repeat split.
Qed.

(** C3, as amended.  When the candidate selection fails (one of the three
    queries of [getCasesToCheck] throws), the failure is not fatal to the
    cycle: [getCasesToCheck] logs the error and returns no case, the cycle
    returns a result of status ['completed'] with the message
    ['No cases to monitor'], [errorCount] is as before, and after the
    failed queries the cycle only writes two log lines, so that no alert is
    sent. *)
Theorem C3_failed_selection_completes_empty (w : World Ext) e w1 :
  isRunning (service w) = false ->
  findCandidates C (entered w) = Some (Throw e, w1) ->
  exists w',
    runMonitoringCycle C render w
    = Some (Ok (completed_without_cases "No cases to monitor"), w')
    /\ status (completed_without_cases "No cases to monitor") = "completed"
    /\ trace w'
       = (trace w1
          ++ [ Logged (Logger.error "Error getting cases to check:"
                         (emessage e));
               Logged (Logger.info "No cases to check") ])%list
    /\ ext w' = ext w1
    /\ errorCount (service w') = errorCount (service w)
    /\ posts (trace w') = posts (trace w).
Proof.
  intros Hidle Hfail. rewrite (run_entered w Hidle).
  destruct (findCandidates_frame (entered w)) as (r & w1' & H1 & S1 & P1).
  rewrite Hfail in H1. injection H1 as <- <-.
  unfold try_finally, try_catch, cycleBody, getCasesToCheck.
  unfold bind at 1. unfold try_catch. rewrite Hfail.
  cbn. eexists. split; [reflexivity|]. cbn [service ext trace].
  rewrite S1. cbn.
  repeat split.
  - now rewrite <- app_assoc.
  - unfold posts in *. rewrite !filter_app, !length_app. cbn.
    rewrite P1. unfold entered. cbn [trace]. rewrite filter_app, length_app.
    cbn. lia.
Qed.

(** C9.  A cycle invoked while one is in flight returns at once with status
    ['skipped']: the service fields ([runCount], [errorCount], [lastRunTime],
    [lastRunStatus], [isRunning]) and the outside world are as before, and
    the only trace of the call is the warning it logs: nothing is fetched,
    compared or sent. *)
Theorem C9_reentrant_call_is_skipped (w : World Ext) :
  isRunning (service w) = true ->
  exists r w',
    runMonitoringCycle C render w = Some (Ok r, w')
    /\ r = skipped "already_running"
    /\ status r = "skipped"
    /\ service w' = service w
    /\ ext w' = ext w
    /\ trace w'
       = (trace w
          ++ [ Logged (Logger.warn
                         "Monitoring cycle already in progress, skipping...") ])%list.
Proof.
  intros H. unfold runMonitoringCycle, bind at 1, this. rewrite H.
  eexists _, _. split; [reflexivity|]. repeat split.
Qed.

(** C8.  With a positive batch size, [createBatches] returns consecutive
    chunks whose concatenation is the list of candidates, each of at least
    one and at most [batchSize] cases, every one but the last of exactly
    [batchSize] cases.  The batch loop over them returns, and what it
    appends to the trace are the events of the batches one after the other,
    with the delay of [apiDelay] milliseconds between every two consecutive
    batches and none after the last: the events of a batch hold the
    requests to the court's server for the cases of that batch, in order,
    and no delay.  So the delay is invoked after every batch but the last,
    once.  Seven candidates with a batch size of three make batches of 3, 3
    and 1 cases, and two delays. *)
Theorem C8_batches_and_delays (cases : list CaseDoc) (size : Z) (w : World Ext) :
  (0 < size)%Z ->
  exists batches,
    createBatches cases size = Some batches
    /\ List.concat batches = cases
    /\ Forall (fun b => (1 <= Z.of_nat (List.length b) <= size)%Z) batches
    /\ (forall k, S k < List.length batches ->
                  Z.of_nat (List.length (nth k batches [])) = size)
    /\ (exists allChanges w' segments,
          processBatches C batches 0 (List.length batches) [] w
          = Some (Ok allChanges, w')
          /\ delays (trace w')
             = delays (trace w) + (List.length batches - 1)
          /\ trace w'
             = (trace w
                ++ join [Delayed (apiDelay (service w))] segments)%list
          /\ Forall2 (fun batch segment =>
                        delays segment = 0
                        /\ fetched segment = map cino batch)
               batches segments)
    /\ (List.length cases = 7 -> size = 3%Z ->
        map (@List.length CaseDoc) batches = [3; 3; 1]
        /\ List.length batches - 1 = 2).
Proof.
  intros Hs. eexists. split; [apply createBatches_chunks, Hs|].
  assert (Hsize : 0 < Z.to_nat size) by lia.
  split; [apply concat_chunks; [exact Hsize | lia]|].
  split.
  { eapply Forall_impl; [|apply (chunks_sizes _ Hsize)]. cbn. lia. }
  split.
  { intros k Hk. rewrite chunks_full by exact Hk. lia. }
  split.
  { destruct (processBatches_delays
                (chunks (S (List.length cases)) (Z.to_nat size) cases)
                0 _ [] w eq_refl) as (a & w' & H & _ & D).
    destruct (processBatches_trace
                (chunks (S (List.length cases)) (Z.to_nat size) cases)
                0 _ [] w eq_refl) as (a' & w'' & segments & H' & _ & T & F).
    rewrite H in H'. injection H' as <- <-.
    exists a, w', segments. repeat split; assumption. }
  intros H7 ->. rewrite H7.
  change (Z.to_nat 3) with 3.
  pose proof (seven_by_three cases H7) as Hm.
  split; [exact Hm|].
  apply (f_equal (@List.length nat)) in Hm. rewrite length_map in Hm.
  rewrite Hm. reflexivity.
Qed.

(** C5, as amended.  When either argument of [detectChanges] is [null] or
    [undefined], the call logs the error and throws a TypeError.  An
    exception thrown while a case is processed is caught by [processBatch],
    which logs it and goes on with the next case, with the changes found so
    far; and [processBatch] itself never throws. *)
Theorem C5_null_argument_is_contained (old new : jsval) :
  nullish old = true \/ nullish new = true ->
  (exists e,
      detectChanges old new
      = ([Logger.error "Error in change detection:" (emessage e)], Throw e)
      /\ ename e = "TypeError")
  /\ (forall caseDoc rest batchChanges (w w1 : World Ext) e,
        processCase C caseDoc w = Some (Throw e, w1) ->
        processBatch_from C (caseDoc :: rest) batchChanges w
        = processBatch_from C rest batchChanges
            (mkWorld (service w1) (ext w1)
               (trace w1
                ++ [ Logged (Logger.error
                               ("Error processing case " ++ cino caseDoc ++ ":")
                               (emessage e)) ])))
  /\ (forall batch (w : World Ext),
        exists found w', processBatch C batch w = Some (Ok found, w')).
Proof.
  intros Hnull. split; [|split].
  - unfold detectChanges. cbn [significantFields compareFields].
    destruct Hnull as [H | H].
    + destruct old; try discriminate H; cbn;
        eexists (TypeError _); split; reflexivity.
    + destruct new; try discriminate H;
        destruct old; cbn; eexists (TypeError _); split; reflexivity.
  - intros caseDoc rest batchChanges w w1 e H.
    cbn [processBatch_from]. unfold bind at 1, try_catch, bind at 1.
    rewrite H. reflexivity.
  - intros batch w.
    destruct (safe_processBatch_from batch [] w) as (a & w' & H & _).
    exists a, w'. exact H.
Qed.

End WithCollaborators.

Import Samples ReferenceEngine ReferenceWorld.

(** C2 (the code departs from the claim).  Claim: a transport failure
    yields a failed outcome carrying the error text and leaves the
    subscription's counter and last-sent time untouched.  [sendMessage]
    catches the failure of the transport and returns [success: false], and
    [sendPersonalizedNotification] updates the subscription whatever the
    result says: with the transport refusing connections, the outcome has
    [success = false] and no error text, and the bookkeeping of the
    subscription goes from zero notifications, never sent, to one
    notification sent now. *)
Theorem C2_transport_failure_is_counted :
  let w := start transport_down in
  fst (respond (axios_post WhatsAppService.apiUrl "secret-key"
                  ["919876543210"] "Case 103: No changes detected")
         transport_down) = Throw refused
  /\ lookup "s1" (bookkeeping (ext w)) = Some (mkBookkeeping 0 None)
  /\ exists outcome w',
       sendPersonalizedNotification collaborators plain_message
         subscriber subscription changed_case w = Some (Ok outcome, w')
       /\ success outcome = false
       /\ error outcome = None
       /\ lookup "s1" (bookkeeping (ext w'))
          = Some (mkBookkeeping 1 (Some (time transport_down)))
       /\ posts (trace w') = 1.
Proof.
  cbv zeta. split; [reflexivity|]. split; [reflexivity|].
  eexists _, _. split; [vm_compute; reflexivity|]. repeat split.
Qed.

(** C3, counterexample.  Claim: a failing candidate selection makes the
    cycle fatal.  With the database refusing connections the first query
    throws, and the cycle returns status ['completed'] with [errorCount],
    [lastRunStatus] as before and without a single request to the
    transport. *)
Lemma C3_failed_selection_is_not_fatal :
  let w := start database_down in
  fst (respond (Case_find_due (time database_down - 7200000)) database_down)
  = Throw unreachable
  /\ exists r w',
       run_in w = Some (Ok r, w')
       /\ status r <> "error"
       /\ errorCount (service w') <> (errorCount (service w) + 1)%Z
       /\ lastRunStatus (service w') <> Some run_error
       /\ posts (trace w') = 0.
Proof.
  cbv zeta. split; [reflexivity|].
  eexists _, _. split; [vm_compute; reflexivity|].
  repeat split; discriminate.
Qed.

(** C3, as amended, with the database refusing connections. *)
Lemma C3_failed_selection_completes_empty_witness :
  exists w',
    run_in (start database_down)
    = Some (Ok (completed_without_cases "No cases to monitor"), w')
    /\ errorCount (service w') = 0%Z
    /\ posts (trace w') = 0.
Proof.
  destruct (C3_failed_selection_completes_empty (E := utc_engine)
              collaborators plain_message (start database_down)
              unreachable
              (mkWorld (service (entered (start database_down)))
                 database_down
                 (trace (entered (start database_down))
                  ++ [Called (Case_find_due (time database_down - 7200000))]))
              eq_refl eq_refl)
    as (w' & H & _ & _ & _ & He & Hp).
  exists w'. split; [exact H|]. split; [exact He | exact Hp].
Defined.

(** C4 (the code departs from the claim).  Claim: every normal completion
    sets [lastRunStatus] to success and [lastRunTime] to the start time,
    also when no candidate was found.  The branch for no candidate returns
    before the two assignments: after a failed cycle, a cycle that finds no
    case returns status ['completed'] and leaves [lastRunStatus] at [error]
    and [lastRunTime] unset; [isRunning] is false afterwards. *)
Theorem C4_empty_cycle_keeps_the_old_status :
  let w := mkWorld after_failure nothing_due [] in
  lastRunStatus (service w) = Some run_error
  /\ lastRunTime (service w) = None
  /\ exists r w',
       run_in w = Some (Ok r, w')
       /\ r = completed_without_cases "No cases to monitor"
       /\ status r = "completed"
       /\ lastRunStatus (service w') = Some run_error
       /\ lastRunTime (service w') = None
       /\ isRunning (service w') = false.
Proof.
  cbv zeta. split; [reflexivity|]. split; [reflexivity|].
  eexists _, _. split; [vm_compute; reflexivity|]. repeat split.
Qed.

(** C5, as amended, with [null] as the old snapshot. *)
Lemma C5_null_argument_is_contained_witness :
  (exists e,
      detectChanges (E := utc_engine) JNull hearing_set
      = ([Logger.error "Error in change detection:" (emessage e)], Throw e)
      /\ ename e = "TypeError")
  /\ (forall batch (w : World Store),
        exists found w',
          processBatch (E := utc_engine) collaborators batch w
          = Some (Ok found, w')).
Proof.
  destruct (C5_null_argument_is_contained (E := utc_engine) collaborators
              JNull hearing_set (or_introl eq_refl)) as (H1 & _ & H3).
  split; [exact H1 | exact H3].
Defined.

(** C8 at the seven sample cases with a batch size of three. *)
Lemma C8_batches_and_delays_witness :
  exists batches,
    createBatches seven_cases 3 = Some batches
    /\ List.concat batches = seven_cases
    /\ map (@List.length CaseDoc) batches = [3; 3; 1]
    /\ exists allChanges w',
         processBatches (E := utc_engine) collaborators batches 0
           (List.length batches) [] (start healthy)
         = Some (Ok allChanges, w')
         /\ delays (trace w') = 2.
Proof.
  destruct (C8_batches_and_delays (E := utc_engine) collaborators
              seven_cases 3 (start healthy) eq_refl)
    as (batches & H1 & H2 & _ & _ & (a & w' & segments & H5 & D & _) & H6).
  destruct (H6 eq_refl eq_refl) as (H7 & H8).
  exists batches. split; [exact H1|]. split; [exact H2|]. split; [exact H7|].
  exists a, w'. split; [exact H5|]. rewrite D, H8. reflexivity.
Defined.

(** C9 in a world whose cycle is in flight. *)
Lemma C9_reentrant_call_is_skipped_witness :
  exists r w',
    run_in (mkWorld (set_isRunning true idle) healthy []) = Some (Ok r, w')
    /\ r = skipped "already_running"
    /\ service w' = set_isRunning true idle
    /\ ext w' = healthy.
Proof.
  destruct (C9_reentrant_call_is_skipped (E := utc_engine) collaborators
              plain_message (mkWorld (set_isRunning true idle) healthy [])
              eq_refl) as (r & w' & H & Hr & _ & Hs & Hx & _).
  exists r, w'. split; [exact H|]. split; [exact Hr|]. split; assumption.
Defined.

(** A case whose stored document reads as [null] makes [detectChanges]
    throw; the batch logs it and still finds the change of the next case. *)
Example null_snapshot_is_skipped :
  exists e w1 found w',
    processCase (E := utc_engine) collaborators unreadable_case (start healthy)
    = Some (Throw e, w1)
    /\ ename e = "TypeError"
    /\ processBatch (E := utc_engine) collaborators
         [unreadable_case; case_doc "103"] (start healthy)
       = Some (Ok found, w')
    /\ map changed_cino found = ["103"]
    /\ map caseId found = ["id-103"].
Proof.
  do 4 eexists. split; [vm_compute; reflexivity|].
  split; [reflexivity|]. split; [vm_compute; reflexivity|].
  split; reflexivity.
Qed.

(** The whole cycle over the seven sample cases: three batches are
    processed, the delay is invoked twice and the success is recorded. *)
Example seven_cases_cycle :
  exists allChanges summary notifications duration w',
    run_in (start healthy)
    = Some (Ok (completed allChanges summary notifications duration), w')
    /\ delays (trace w') = 2
    /\ lastRunStatus (service w') = Some run_success
    /\ lastRunTime (service w') = Some (time healthy)
    /\ map success notifications = [true].
Proof.
  do 5 eexists. split; [vm_compute; reflexivity|]. repeat split.
Qed.

End MonitoringFacts.

(* ================================================================= *)
(** ** Laws of the change detector *)

Module DetectorLaws.
Import JS ChangeDetectionService Spec Measures ChangeDetectionFacts.

Section WithEngine.
Context {E : Engine}.

Lemma existsb_pointwise {A : Type} (p q : A -> bool) (l : list A) :
  (forall x, p x = q x) -> existsb p l = existsb q l.
Proof.
  intros H. induction l as [|x l IH]; cbn; [reflexivity|]. now rewrite H, IH.
Qed.

Lemma compareArrays_any (a b : jsval) :
  compareArrays a b = negb (list_length a =? list_length b)%nat.
Proof.
  unfold compareArrays, list_length.
  set (la := match a with JArr l => l | _ => [] end).
  set (lb := match b with JArr l => l | _ => [] end).
  replace (match a with JArr l => List.length l | _ => 0 end)
    with (List.length la) by (destruct a; reflexivity).
  replace (match b with JArr l => List.length l | _ => 0 end)
    with (List.length lb) by (destruct b; reflexivity).
  destruct (List.length la =? List.length lb)%nat eqn:H; cbn [negb].
  - apply Nat.eqb_eq in H. rewrite H. apply Nat.ltb_irrefl.
  - reflexivity.
Qed.

Lemma compareDates_sym (a b : jsval) : compareDates a b = compareDates b a.
Proof.
  unfold compareDates.
  destruct (normalizeDate a) as [[x|]|], (normalizeDate b) as [[y|]|];
    try reflexivity.
  now rewrite Z.eqb_sym.
Qed.

Lemma compareStrings_sym (a b : jsval) :
  compareStrings a b = compareStrings b a.
Proof. unfold compareStrings. now rewrite String.eqb_sym. Qed.

Lemma compareArrays_sym (a b : jsval) : compareArrays a b = compareArrays b a.
Proof. rewrite !compareArrays_any. now rewrite Nat.eqb_sym. Qed.

Lemma hasChange_compareField (f : string) (a b : jsval) :
  let a' := if nullish a then JStr EmptyString else a in
  let b' := if nullish b then JStr EmptyString else b in
  hasChange (compareField f a b)
  = if String.eqb f "nextHearingDate" || String.eqb f "firstHearingDate"
    then compareDates a' b'
    else if String.eqb f "listingHistory" then compareArrays a' b'
    else if String.eqb f "iaApplications" then compareArrays a' b'
    else compareStrings a' b'.
Proof.
  cbv zeta. unfold compareField.
  repeat match goal with
         | |- context [if ?c then _ else _] =>
             lazymatch c with
             | nullish _ => fail
             | _ => destruct c eqn:?
             end
         end; reflexivity.
Qed.

Lemma fieldChanged_sym (old new : jsval) (f : string) :
  fieldChanged old new f = fieldChanged new old f.
Proof.
  unfold fieldChanged. rewrite !hasChange_compareField. cbv zeta.
  repeat match goal with
         | |- context [if ?c then _ else _] =>
             lazymatch c with
             | nullish _ => fail
             | _ => destruct c
             end
         end;
    auto using compareDates_sym, compareArrays_sym, compareStrings_sym.
Qed.

(** X1.  Which fields are reported does not depend on the direction of the
    comparison: [detectChanges(a, b)] and [detectChanges(b, a)] report the
    same changed fields, the same critical fields and the same priority. *)
Theorem detection_is_symmetric (a b : jsval) :
  nullish a = false ->
  nullish b = false ->
  exists cs cs',
    snd (detectChanges a b) = Ok cs
    /\ snd (detectChanges b a) = Ok cs'
    /\ changedFields cs = changedFields cs'
    /\ criticalChanges cs = criticalChanges cs'
    /\ hasChanges cs = hasChanges cs'
    /\ notificationPriority cs = notificationPriority cs'.
Proof.
  intros Ha Hb.
  destruct (detectChanges_ok a b Ha Hb)
    as (cs & Hcs & H1 & _ & H3 & H4 & _ & H6).
  destruct (detectChanges_ok b a Hb Ha)
    as (cs' & Hcs' & H1' & _ & H3' & H4' & _ & H6').
  exists cs, cs'. split; [exact Hcs|]. split; [exact Hcs'|].
  destruct (compared_spec a b) as (S1 & S2 & S3 & _).
  destruct (compared_spec b a) as (S1' & S2' & S3' & _).
  assert (F : filter (fieldChanged a b) significantFields
              = filter (fieldChanged b a) significantFields).
  { apply filter_ext. intros f. apply fieldChanged_sym. }
  assert (X : existsb (fieldChanged a b) significantFields
              = existsb (fieldChanged b a) significantFields).
  { apply existsb_pointwise. intros f. apply fieldChanged_sym. }
  rewrite H1, H3, H4, H6, H1', H3', H4', H6'.
  rewrite !priority_precedence.
  rewrite S1, S2, S3, S1', S2', S3', F, X.
  repeat split.
  unfold expectedPriority. now rewrite !(fieldChanged_sym a b).
Qed.

Lemma compareDates_self (v : jsval) :
  compareDates v v
  = match v with JDate None => true | _ => false end.
Proof.
  unfold compareDates, normalizeDate, new_Date.
  destruct v as [| |b|n|s|[t|]|l|ps];
    cbn [truthy instanceof_Date negb];
    repeat match goal with
           | |- context [Date_parse ?s] => destruct (Date_parse s)
           | |- context [TimeClip ?n] => destruct (TimeClip n)
           | |- context [(?n =? 0)%Z] => destruct (n =? 0)%Z
           | |- context [String.eqb ?s EmptyString] =>
               destruct (String.eqb s EmptyString)
           | b : bool |- _ => destruct b
           end;
    cbn; rewrite ?Z.eqb_refl; reflexivity.
Qed.

Lemma compareStrings_self (v : jsval) : compareStrings v v = false.
Proof. unfold compareStrings. now rewrite String.eqb_refl. Qed.

Lemma compareArrays_self (v : jsval) : compareArrays v v = false.
Proof. rewrite compareArrays_any. now rewrite Nat.eqb_refl. Qed.

Lemma invalid_after_default (v : jsval) :
  match (if nullish v then JStr EmptyString else v) with
  | JDate None => true
  | _ => false
  end
  = match v with JDate None => true | _ => false end.
Proof. destruct v as [| | | | |[|]| |]; reflexivity. Qed.

(** X2.  Comparing a snapshot with itself reports a change exactly when one
    of its two hearing-date fields holds an Invalid Date object (whose time
    value, NaN, differs from itself); otherwise nothing is reported and the
    priority is [none]. *)
Theorem self_comparison (x : jsval) :
  nullish x = false ->
  exists cs,
    snd (detectChanges x x) = Ok cs
    /\ hasChanges cs = negb (hearing_dates_valid x)
    /\ (hearing_dates_valid x = true ->
        changedFields cs = [] /\ notificationPriority cs = none).
Proof.
  intros Hx.
  destruct (detectChanges_ok x x Hx Hx) as (cs & Hcs & H1 & _ & H3 & _ & _ & H6).
  destruct (compared_spec x x) as (S1 & _ & S3 & _).
  exists cs. split; [exact Hcs|].
  rewrite H1, H3, H6, priority_precedence, S1, S3.
  assert (D : forall f,
             fieldChanged x x f
             = if String.eqb f "nextHearingDate"
                  || String.eqb f "firstHearingDate"
               then match read x f with JDate None => true | _ => false end
               else false).
  { intros f. unfold fieldChanged. rewrite hasChange_compareField. cbv zeta.
    rewrite compareDates_self, compareArrays_self, compareStrings_self,
      invalid_after_default.
    repeat match goal with
           | |- context [if ?c then _ else _] => destruct c
           end; reflexivity. }
  unfold hearing_dates_valid, expectedPriority.
  cbn [significantFields existsb filter].
  rewrite !D. cbn [String.eqb Ascii.eqb Bool.eqb orb andb].
  destruct (read x "nextHearingDate") as [| | | | |[|]| |];
    destruct (read x "firstHearingDate") as [| | | | |[|]| |];
    cbn; split; try reflexivity; intros; try discriminate; split; reflexivity.
Qed.

(** X3.  On a ChangeSet returned by [detectChanges], immediate notification
    is required exactly when a critical field changed; and when something
    changed, exactly then the notification delay is at most five minutes. *)
Theorem immediate_iff_critical (a b : jsval) :
  nullish a = false ->
  nullish b = false ->
  exists cs,
    snd (detectChanges a b) = Ok cs
    /\ requiresImmediateNotification cs = hasCriticalChanges cs
    /\ (hasChanges cs = true ->
        (getNotificationDelay (notificationPriority cs) <=? 5)%Z
        = hasCriticalChanges cs).
Proof.
  intros Ha Hb.
  destruct (detectChanges_ok a b Ha Hb)
    as (cs & Hcs & H1 & H2 & _ & _ & _ & H6).
  exists cs. split; [exact Hcs|].
  unfold requiresImmediateNotification. rewrite H1, H2, H6.
  destruct (compared_spec a b) as (_ & _ & S3 & S4).
  assert (I : hasCriticalChanges (compared a b) = true ->
              hasChanges (compared a b) = true).
  { rewrite S3, S4. rewrite !existsb_exists.
    intros (f & Hf & _). apply filter_In in Hf. exists f. exact Hf. }
  unfold determineNotificationPriority.
  destruct (hasChanges (compared a b)) eqn:Hc; cbn [negb].
  - destruct (hasCriticalChanges (compared a b)).
    + destruct (includes _ _); [|destruct (includes _ _)];
        split; reflexivity.
    + destruct (includes _ _); split; reflexivity.
  - destruct (hasCriticalChanges (compared a b)).
    + discriminate (I eq_refl).
    + split; [reflexivity | discriminate].
Qed.

(** X4.  A list field ([listingHistory], [iaApplications]) is reported as
    changed exactly when the old and the new list differ in length, a value
    that is not an array (a missing field, [null]) counting as an empty
    list; the contents are never compared. *)
Theorem list_field_changed_iff_length_differs (f : string) (old new : jsval) :
  f = "listingHistory" \/ f = "iaApplications" ->
  hasChange (compareField f old new)
  = negb (list_length old =? list_length new)%nat.
Proof.
  intros Hf. rewrite hasChange_compareField. cbv zeta.
  assert (L : forall v,
             list_length (if nullish v then JStr EmptyString else v)
             = list_length v) by (intros []; reflexivity).
  destruct Hf as [-> | ->]; cbn [String.eqb Ascii.eqb Bool.eqb orb];
    now rewrite compareArrays_any, !L.
Qed.

End WithEngine.

Import Samples ReferenceEngine.

(** X1 at the priority scenario. *)
Lemma detection_is_symmetric_witness :
  exists cs cs',
    snd (detectChanges (E := utc_engine) hearing_unset hearing_set) = Ok cs
    /\ snd (detectChanges (E := utc_engine) hearing_set hearing_unset) = Ok cs'
    /\ changedFields cs = changedFields cs'
    /\ notificationPriority cs = notificationPriority cs'.
Proof.
  destruct (detection_is_symmetric (E := utc_engine) hearing_unset hearing_set
              eq_refl eq_refl) as (cs & cs' & H1 & H2 & H3 & _ & _ & H6).
  exists cs, cs'. repeat split; assumption.
Defined.

(** X2 at a snapshot with three listing entries. *)
Lemma self_comparison_witness :
  exists cs,
    snd (detectChanges (E := utc_engine) three_entries three_entries) = Ok cs
    /\ hasChanges cs = false.
Proof.
  destruct (self_comparison (E := utc_engine) three_entries eq_refl)
    as (cs & H1 & H2 & _).
  exists cs. split; [exact H1 | exact H2].
Defined.

(** X3 at the listing history going from three entries to two. *)
Lemma immediate_iff_critical_witness :
  exists cs,
    snd (detectChanges (E := utc_engine) three_entries two_entries) = Ok cs
    /\ requiresImmediateNotification cs = hasCriticalChanges cs.
Proof.
  destruct (immediate_iff_critical (E := utc_engine) three_entries two_entries
              eq_refl eq_refl) as (cs & H1 & H2 & _).
  exists cs. split; [exact H1 | exact H2].
Defined.

(** X4 at a missing list against a list of one entry. *)
Lemma list_field_changed_iff_length_differs_witness :
  hasChange (compareField (E := utc_engine) "iaApplications"
               JUndefined (JArr [entry1]))
  = true.
Proof.
  exact (list_field_changed_iff_length_differs (E := utc_engine)
           "iaApplications" JUndefined (JArr [entry1]) (or_intror eq_refl)).
Defined.

End DetectorLaws.

(* ================================================================= *)
(** ** Laws of the fingerprints *)

Module FingerprintLaws.
Import JS ChangeDetectionService Spec Measures.

(** *** The order of strings *)

Lemma ascii_compare_refl (c : ascii) : Ascii.compare c c = Eq.
Proof. unfold Ascii.compare. apply N.compare_refl. Qed.

Lemma string_compare_trans (a : string) :
  forall b c,
    String.compare a b <> Gt -> String.compare b c <> Gt ->
    String.compare a c <> Gt.
Proof.
  induction a as [|x a IH]; intros [|y b] [|z c]; cbn; try congruence.
  unfold Ascii.compare.
  destruct (N.compare_spec (N_of_ascii x) (N_of_ascii y)) as [Hxy|Hxy|Hxy];
    destruct (N.compare_spec (N_of_ascii y) (N_of_ascii z)) as [Hyz|Hyz|Hyz];
    destruct (N.compare_spec (N_of_ascii x) (N_of_ascii z)) as [Hxz|Hxz|Hxz];
    try congruence; try lia; intros H1 H2.
  apply (IH b c H1 H2).
Qed.

Lemma leb_trans (a b c : string) :
  String.leb a b = true -> String.leb b c = true -> String.leb a c = true.
Proof.
  unfold String.leb. intros H1 H2.
  pose proof (string_compare_trans a b c) as T.
  destruct (String.compare a b), (String.compare b c), (String.compare a c);
    try reflexivity; try discriminate;
    exfalso; apply T; congruence.
Qed.

(** *** Sorting an array of strings *)

Section WithEngine.
Context {E : Engine}.

Lemma le_text s t : le (JStr s) (JStr t) <-> String.leb s t = true.
Proof. reflexivity. Qed.

Lemma sort_insert_perm (x : jsval) (l : list jsval) :
  Permutation (x :: l) (sort_insert x l).
Proof.
  induction l as [|y l IH]; cbn; [reflexivity|].
  destruct (sort_le y x); [|reflexivity].
  rewrite perm_swap. now constructor.
Qed.

Lemma sort_insert_text (x : jsval) (l : list jsval) :
  is_text x -> Forall is_text l -> Forall is_text (sort_insert x l).
Proof.
  intros Hx Hl. eapply Permutation_Forall; [apply sort_insert_perm|].
  now constructor.
Qed.

Lemma sort_insert_sorted (x : jsval) (l : list jsval) :
  is_text x -> Forall is_text l ->
  StronglySorted le l -> StronglySorted le (sort_insert x l).
Proof.
  intros [s ->] Hl Hs.
  induction Hs as [|y l Hs IH Hy]; cbn.
  - repeat constructor.
  - inversion Hl as [|? ? [t ->] Hl']; subst.
    cbn [sort_le ToString]. destruct (String.leb t s) eqn:Hts.
    + constructor; [apply IH; assumption|].
      eapply Permutation_Forall; [apply sort_insert_perm|].
      constructor; [exact Hts | exact Hy].
    + assert (Hst : String.leb s t = true).
      { destruct (String.leb_total s t) as [H|H]; [exact H | congruence]. }
      constructor; [constructor; assumption|].
      constructor; [exact Hst|].
      rewrite Forall_forall in *. intros z Hz.
      destruct (Hl' z Hz) as [u ->]. specialize (Hy _ Hz).
      apply le_text. apply le_text in Hy. eapply leb_trans; eassumption.
Qed.

Lemma sort_from (l acc : list jsval) :
  Forall is_text l -> Forall is_text acc -> StronglySorted le acc ->
  let r := fold_left (fun acc x => sort_insert x acc) l acc in
  Permutation (l ++ acc) r /\ Forall is_text r /\ StronglySorted le r.
Proof.
  revert acc. induction l as [|x l IH]; intros acc Hl Hacc Hs; cbn.
  - split; [reflexivity | split; assumption].
  - inversion Hl as [|? ? Hx Hl']; subst.
    destruct (IH (sort_insert x acc) Hl'
                (sort_insert_text x acc Hx Hacc)
                (sort_insert_sorted x acc Hx Hacc Hs)) as (P & T & S).
    split; [|split; assumption].
    rewrite <- P. rewrite <- sort_insert_perm.
    now rewrite Permutation_middle.
Qed.

Lemma sorted_unique (l1 : list jsval) :
  forall l2,
    Forall is_text l1 ->
    StronglySorted le l1 -> StronglySorted le l2 ->
    Permutation l1 l2 -> l1 = l2.
Proof.
  induction l1 as [|a l1 IH]; intros l2 T S1 S2 P.
  - now apply Permutation_nil in P.
  - destruct l2 as [|b l2].
    { apply Permutation_sym, Permutation_nil in P. discriminate. }
    inversion S1 as [|? ? S1' H1]; subst.
    inversion S2 as [|? ? S2' H2]; subst.
    inversion T as [|? ? [s ->] T']; subst.
    assert (Tb : is_text b).
    { pose proof (Permutation_Forall P T) as T2.
      inversion T2; assumption. }
    destruct Tb as [t ->].
    assert (Hab : JStr s = JStr t).
    { assert (I1 : In (JStr t) (JStr s :: l1))
        by (eapply Permutation_in; [symmetry; exact P | now left]).
      assert (I2 : In (JStr s) (JStr t :: l2))
        by (eapply Permutation_in; [exact P | now left]).
      destruct I1 as [I1 | I1]; [congruence|].
      destruct I2 as [I2 | I2]; [congruence|].
      rewrite Forall_forall in H1, H2.
      specialize (H1 _ I1). specialize (H2 _ I2).
      f_equal. apply String.leb_antisym; [exact H1 | exact H2]. }
    rewrite <- Hab in *. f_equal.
    apply IH; try assumption.
    eapply Permutation_cons_inv. exact P.
Qed.

(** Sorting an array of strings gives the same array for every order of its
    elements. *)
Lemma sort_permutation (l l' : list jsval) :
  Forall is_text l -> Permutation l l' -> sort l = sort l'.
Proof.
  intros T P. unfold sort.
  assert (T' : Forall is_text l') by (eapply Permutation_Forall; eassumption).
  destruct (sort_from l [] T (Forall_nil _) (SSorted_nil _)) as (P1 & T1 & S1).
  destruct (sort_from l' [] T' (Forall_nil _) (SSorted_nil _)) as (P2 & _ & S2).
  cbv zeta in *. rewrite app_nil_r in P1, P2.
  apply sorted_unique; try assumption.
  now rewrite <- P1, <- P2.
Qed.


(** *** What the service's fingerprint reads *)

(** The normalised value stored for a field, or the exception. *)
Lemma normalizeFields_ext (a b : jsval) (fields : list string) :
  (forall f, In f fields ->
     match getField a f with Ok v => normalizeValue v | Throw e => Throw e end
     = match getField b f with Ok v => normalizeValue v | Throw e => Throw e end) ->
  normalizeFields a fields = normalizeFields b fields.
Proof.
  induction fields as [|f rest IH]; intros H; cbn [normalizeFields].
  - reflexivity.
  - rewrite IH by (intros g Hg; apply H; now right).
    specialize (H f (or_introl eq_refl)).
    destruct (getField a f) as [va|ea], (getField b f) as [vb|eb];
      first [ rewrite H; reflexivity
            | rewrite <- H; reflexivity
            | injection H as ->; reflexivity ].
Qed.

Lemma generateDataHash_ext (a b : jsval) :
  (forall f, In f significantFields ->
     match getField a f with Ok v => normalizeValue v | Throw e => Throw e end
     = match getField b f with Ok v => normalizeValue v | Throw e => Throw e end) ->
  generateDataHash a = generateDataHash b.
Proof.
  intros H. unfold generateDataHash, dataString.
  now rewrite (normalizeFields_ext a b significantFields H).
Qed.

(** X5.  The fingerprint of the change detection service reads the eight
    significant fields only: two records that agree on them have the same
    fingerprint (and log the same), whatever their other fields hold. *)
Theorem hash_reads_significant_fields_only (a b : jsval) :
  (forall f, In f significantFields -> getField a f = getField b f) ->
  generateDataHash a = generateDataHash b.
Proof.
  intros H. apply generateDataHash_ext. intros f Hf. now rewrite (H f Hf).
Qed.

Lemma stringify_object_like (item : jsval) :
  typeof_object item = true -> exists s, stringify None item = Some s.
Proof.
  destruct item as [| | | | |[t|]| |]; intros H; try discriminate H;
    cbn; eexists; reflexivity.
Qed.

(** X6.  The fingerprint does not depend on the order of the entries of an
    array field whose entries are records: two records that agree on the
    other significant fields and hold the same entries in a different order
    have the same fingerprint. *)
Theorem hash_ignores_order_of_entries (a b : jsval) (f : string)
  (l l' : list jsval) :
  (forall g, In g significantFields -> g <> f -> getField a g = getField b g) ->
  getField a f = Ok (JArr l) ->
  getField b f = Ok (JArr l') ->
  forallb typeof_object l = true ->
  Permutation l l' ->
  generateDataHash a = generateDataHash b.
Proof.
  intros Hother Ha Hb Hobj P.
  apply generateDataHash_ext. intros g Hg.
  destruct (string_dec g f) as [-> | Hne].
  - rewrite Ha, Hb. cbn [normalizeValue]. do 2 f_equal.
    apply sort_permutation; [|now apply Permutation_map].
    rewrite Forall_forall. intros v Hv.
    apply in_map_iff in Hv. destruct Hv as (item & <- & Hitem).
    rewrite forallb_forall in Hobj. rewrite (Hobj item Hitem).
    destruct (stringify_object_like item (Hobj item Hitem)) as [s ->].
    now exists s.
  - now rewrite (Hother g Hg Hne).
Qed.

(** *** The shape of the fingerprint *)

Lemma hexdigit_length (n : Z) :
  (0 <= n < 16)%Z -> String.length (hexdigit n) = 1.
Proof.
  intros H. unfold hexdigit.
  assert (K : Z.to_nat n < 16) by lia.
  revert K. generalize (Z.to_nat n). intros k Hk.
  do 16 (destruct k as [|k]; [reflexivity|]). lia.
Qed.

Lemma length_append (s t : string) :
  String.length (s ++ t) = String.length s + String.length t.
Proof. induction s as [|c s IH]; cbn; [reflexivity | now rewrite IH]. Qed.

Lemma hex2_length (n : Z) :
  (0 <= n < 256)%Z -> String.length (hex2 n) = 2.
Proof.
  intros H. unfold hex2. rewrite length_append.
  rewrite !hexdigit_length; [reflexivity | |].
  - apply Z.mod_pos_bound. lia.
  - split; [apply Z.div_pos; lia | apply Z.div_lt_upper_bound; lia].
Qed.

Lemma le_bytes_range (n : nat) :
  forall x, Forall (fun b => (0 <= b < 256)%Z) (MD5.le_bytes n x)
            /\ List.length (MD5.le_bytes n x) = n.
Proof.
  induction n as [|n IH]; intros x; cbn.
  - split; [constructor | reflexivity].
  - destruct (IH (x / 256)%Z) as (F & L). split.
    + constructor; [apply Z.mod_pos_bound; lia | exact F].
    + now rewrite L.
Qed.

Lemma concat_hex_length (bs : list Z) :
  Forall (fun b => (0 <= b < 256)%Z) bs ->
  String.length (String.concat EmptyString (map hex2 bs))
  = 2 * List.length bs.
Proof.
  induction 1 as [|b bs Hb Hbs IH]; [reflexivity|].
  cbn [map List.length].
  destruct bs as [|b' bs'].
  - change (String.concat EmptyString (hex2 b :: map hex2 []))
      with (hex2 b).
    rewrite hex2_length by exact Hb. reflexivity.
  - change (String.concat EmptyString (hex2 b :: map hex2 (b' :: bs')))
      with (hex2 b ++ EmptyString
            ++ String.concat EmptyString (map hex2 (b' :: bs'))).
    rewrite !length_append, IH, hex2_length by exact Hb.
    cbn [String.length List.length]. lia.
Qed.

(** An MD5 digest in hexadecimal has 32 characters. *)
Lemma md5_hex_length (s : string) : String.length (MD5.md5_hex s) = 32.
Proof.
  unfold MD5.md5_hex, MD5.digest_bytes.
  set (st := fold_left MD5.block _ MD5.init).
  destruct (le_bytes_range 4 (MD5.sA st)) as (FA & LA).
  destruct (le_bytes_range 4 (MD5.sB st)) as (FB & LB).
  destruct (le_bytes_range 4 (MD5.sC st)) as (FC & LC).
  destruct (le_bytes_range 4 (MD5.sD st)) as (FD & LD).
  rewrite concat_hex_length.
  - rewrite !length_app, LA, LB, LC, LD. reflexivity.
  - repeat (apply Forall_app; split); assumption.
Qed.

Lemma normalizeFields_total (x : jsval) (fields : list string) :
  nullish x = false ->
  if forallb (fun f => negb (invalid_date (read x f))) fields
  then exists props, normalizeFields x fields = Ok props
  else exists e, normalizeFields x fields = Throw e.
Proof.
  intros Hx. induction fields as [|f rest IH]; cbn [forallb normalizeFields].
  - eexists; reflexivity.
  - rewrite (ChangeDetectionFacts.getField_read x f Hx).
    destruct (read x f) as [| | | | |[t|]|l|ps]; cbn [invalid_date negb andb];
      try (eexists; reflexivity);
      cbn [normalizeValue];
      destruct (forallb _ rest); destruct IH as [r ->]; eexists; reflexivity.
Qed.

(** X7.  [generateDataHash] never throws: its result is a 32-character
    digest when the record can be read and none of its significant fields
    holds an Invalid Date object, and the empty string otherwise (the
    exception of the property read or of [toISOString] is logged and
    swallowed). *)
Theorem hash_is_a_digest_or_empty (x : jsval) :
  String.length (snd (generateDataHash x)) = (if hashable x then 32 else 0)
  /\ List.length (fst (generateDataHash x)) = (if hashable x then 0 else 1).
Proof.
  unfold hashable, generateDataHash, dataString.
  destruct (nullish x) eqn:Hx; cbn [negb andb].
  - destruct x; try discriminate Hx; split; reflexivity.
  - pose proof (normalizeFields_total x significantFields Hx) as T.
    destruct (forallb _ significantFields).
    + destruct T as [props ->]. cbn [stringify snd fst].
      split; [apply md5_hex_length | reflexivity].
    + destruct T as [e ->]. split; reflexivity.
Qed.

End WithEngine.

Import Samples ReferenceEngine.

(** X5 at two snapshots that differ in the raw response only. *)
Lemma hash_reads_significant_fields_only_witness :
  generateDataHash (E := utc_engine)
    (JObj [ ("caseStatus", JStr "Pending"); ("rawApiResponse", JStr "<html>1</html>") ])
  = generateDataHash (E := utc_engine)
      (JObj [ ("rawApiResponse", JStr "<html>2</html>"); ("caseStatus", JStr "Pending") ]).
Proof.
  apply hash_reads_significant_fields_only.
  intros f H. cbn in H.
  repeat (destruct H as [<- | H]; [reflexivity|]). contradiction.
Defined.

(** X6 at the three listing entries and their reordering. *)
Lemma hash_ignores_order_of_entries_witness :
  generateDataHash (E := utc_engine) three_entries
  = generateDataHash (E := utc_engine) reordered_entries.
Proof.
  apply (hash_ignores_order_of_entries three_entries reordered_entries
           "listingHistory" [entry1; entry2; entry3] [entry3; entry1; entry2]).
  - intros g H Hne. cbn in H.
    repeat (destruct H as [<- | H]; [try reflexivity; now elim Hne|]).
    contradiction.
  - reflexivity.
  - reflexivity.
  - reflexivity.
  - apply Permutation_sym. apply (Permutation_cons_app [entry1; entry2] [] entry3).
    reflexivity.
Defined.

End FingerprintLaws.

(* ================================================================= *)
(** ** Laws of the Case model's change history *)

Module CaseModelLaws.
Import JS Spec Measures.
Import CaseModel.

Lemma collectChanges_spec (this newData : jsval) (t : Z) :
  nullish this = false -> nullish newData = false ->
  forall fields changes,
    collectChanges this newData t fields changes
    = Ok (changes
          ++ map (entry_of this newData t)
               (filter (differs this newData) fields))%list.
Proof.
  intros Ha Hb fields.
  induction fields as [|f rest IH]; intros changes; cbn [collectChanges].
  - cbn. now rewrite app_nil_r.
  - rewrite (ChangeDetectionFacts.getField_read _ f Ha),
      (ChangeDetectionFacts.getField_read _ f Hb), IH.
    cbn [filter]. unfold differs at 2.
    destruct (serialised_differently (read this f) (read newData f));
      cbn [map]; [now rewrite <- app_assoc | reflexivity].
Qed.

Lemma collectChanges_length (this newData : jsval) (t : Z) :
  forall fields changes found,
    collectChanges this newData t fields changes = Ok found ->
    List.length found <= List.length changes + List.length fields.
Proof.
  intros fields.
  induction fields as [|f rest IH]; intros changes found; cbn [collectChanges].
  - intros [= <-]. cbn. lia.
  - destruct (getField this f); [|discriminate].
    destruct (getField newData f); [|discriminate].
    intros H. apply IH in H.
    destruct (serialised_differently _ _); rewrite ?length_app in H;
      cbn [List.length] in *; lia.
Qed.

Lemma slice_last_length {A : Type} (n : nat) (l : list A) :
  List.length (slice_last n l) = Nat.min n (List.length l).
Proof. unfold slice_last. rewrite length_skipn. lia. Qed.

Lemma slice_last_keeps_suffix {A : Type} (n : nat) (old new : list A) :
  List.length new <= n ->
  exists older, slice_last n (old ++ new) = (older ++ new)%list.
Proof.
  intros H. unfold slice_last. rewrite skipn_app, length_app.
  exists (skipn (List.length old + List.length new - n) old).
  f_equal.
  replace (List.length old + List.length new - n - List.length old) with 0
    by lia.
  reflexivity.
Qed.

(** X8.  Whenever [detectAndRecordChanges] returns, it reports at most six
    changes; when it reports none the document is untouched; when it
    reports some, they are the newest entries of [changeHistory], which
    keeps the last fifty entries at most, so that a history of at most fifty
    entries stays so, and [previousDataHash] takes the value of
    [dataHash], which is left as it was. *)
Theorem history_is_capped (this : Document) (newData : jsval) (t : Z)
  (changes : list HistoryEntry) (this' : Document) :
  detectAndRecordChanges this newData t = Ok (changes, this') ->
  List.length changes <= 6
  /\ (changes = [] -> this' = this)
  /\ (changes <> [] ->
      (exists older, changeHistory this' = older ++ changes)%list
      /\ List.length (changeHistory this')
         = Nat.min 50 (List.length (changeHistory this) + List.length changes)
      /\ previousDataHash this' = dataHash this
      /\ dataHash this' = dataHash this
      /\ data this' = data this)
  /\ (List.length (changeHistory this) <= 50 ->
      List.length (changeHistory this') <= 50).
Proof.
  unfold detectAndRecordChanges.
  destruct (collectChanges (data this) newData t fieldsToCheck [])
    as [found|e] eqn:Hc; [|discriminate].
  pose proof (collectChanges_length _ _ _ _ _ _ Hc) as Hlen.
  cbn [List.length fieldsToCheck] in Hlen.
  destruct (Nat.ltb_spec 0 (List.length found)) as [Hpos | Hzero].
  - intros [= <- <-]. cbn [changeHistory previousDataHash dataHash data].
    split; [lia|].
    split; [intros ->; cbn in Hpos; lia|].
    assert (K : List.length
                  (if (50 <? List.length (changeHistory this ++ found))%nat
                   then slice_last 50 (changeHistory this ++ found)
                   else (changeHistory this ++ found)%list)
                = Nat.min 50 (List.length (changeHistory this)
                              + List.length found)).
    { destruct (Nat.ltb_spec 50 (List.length (changeHistory this ++ found)))
        as [H|H]; rewrite ?slice_last_length; rewrite length_app in *; lia. }
    split.
    + intros _. split; [|split; [exact K | repeat split]].
      destruct (50 <? _)%nat.
      * apply slice_last_keeps_suffix. lia.
      * now exists (changeHistory this).
    + intros H. rewrite K. lia.
  - intros [= <- <-].
    assert (found = []) by (destruct found; [reflexivity | cbn in Hzero; lia]).
    subst found.
    split; [cbn; lia|]. split; [reflexivity|].
    split; [congruence | tauto].
Qed.

(** X9.  On a readable document and readable new data,
    [detectAndRecordChanges] reports, in the order of its field list, the
    fields whose JSON serialisations differ, each with the old and the new
    value; in particular it reports nothing and leaves the document as it is
    when the new data are the document's own. *)
Theorem reported_fields (this : Document) (newData : jsval) (t : Z) :
  nullish (data this) = false ->
  nullish newData = false ->
  (exists changes this',
      detectAndRecordChanges this newData t = Ok (changes, this')
      /\ changes
         = map (entry_of (data this) newData t)
             (filter (differs (data this) newData) fieldsToCheck))
  /\ detectAndRecordChanges this (data this) t = Ok ([], this).
Proof.
  intros Ha Hb. split.
  - unfold detectAndRecordChanges.
    rewrite (collectChanges_spec _ _ t Ha Hb). cbn [app].
    destruct (0 <? _)%nat; eexists _, _; split; reflexivity.
  - unfold detectAndRecordChanges.
    rewrite (collectChanges_spec _ _ t Ha Ha). cbn [app].
    assert (N : forall fields,
               filter (differs (data this) (data this)) fields = []).
    { induction fields as [|f r IH]; [reflexivity|]. cbn [filter].
      unfold differs at 1, serialised_differently.
      destruct (stringify None (read (data this) f));
        [rewrite String.eqb_refl|]; exact IH. }
    rewrite N. reflexivity.
Qed.

Import Samples.

(** X8 at a history of forty-nine entries and three changed fields. *)
Lemma history_is_capped_witness :
  exists changes this',
    detectAndRecordChanges busy_document changed_data 1735689600000
    = Ok (changes, this')
    /\ List.length changes = 3
    /\ List.length (changeHistory this') = 50
    /\ previousDataHash this' = JStr "0f343b0931126a20f133d67c2b018a3b".
Proof.
  assert (H : detectAndRecordChanges busy_document changed_data 1735689600000
              = Ok (map (entry_of (data busy_document) changed_data
                           1735689600000)
                      [ "caseStatus"; "nextHearingDate"; "listingHistory" ],
                    mkDocument (data busy_document)
                      (skipn 2 (changeHistory busy_document)
                       ++ map (entry_of (data busy_document) changed_data
                                 1735689600000)
                            [ "caseStatus"; "nextHearingDate";
                              "listingHistory" ])
                      (dataHash busy_document) (dataHash busy_document)))
    by (vm_compute; reflexivity).
  destruct (history_is_capped _ _ _ _ _ H) as (_ & _ & H3 & _).
  destruct H3 as (_ & L & P & _); [discriminate|].
  eexists _, _. split; [exact H|]. split; [reflexivity|].
  split; [exact L | exact P].
Defined.

(** X9 at the same document and data. *)
Lemma reported_fields_witness :
  detectAndRecordChanges busy_document (data busy_document) 1735689600000
  = Ok ([], busy_document).
Proof.
  exact (proj2 (reported_fields busy_document changed_data 1735689600000
                  eq_refl eq_refl)).
Defined.

End CaseModelLaws.

(* ================================================================= *)
(** ** Laws of the messaging service *)

Module WhatsAppLaws.
Import JS Comp Domain Spec Measures CompFacts.
Import WhatsAppService.
Local Open Scope comp_scope.

(** *** Phone numbers *)

Lemma digits_fixed (s : string) :
  all_digits s = true ->
  string_of_list_ascii (filter is_digit (list_ascii_of_string s)) = s.
Proof.
  intros H. unfold all_digits in H.
  rewrite forallb_filter_id by exact H.
  apply string_of_list_ascii_of_string.
Qed.

Lemma indian_mobile_shape (s : string) :
  indian_mobile s = true ->
  String.length s = 12 /\ starts_with "91" s = true /\ all_digits s = true.
Proof.
  unfold indian_mobile, all_digits. intros H.
  apply andb_prop in H. destruct H as (H & Hd).
  apply andb_prop in H. destruct H as (H & _).
  apply andb_prop in H. destruct H as (Hl & Hp).
  apply Nat.eqb_eq in Hl. auto.
Qed.

(** X10.  A number accepted by [validatePhoneNumber] comes out as twelve
    digits beginning with 91, and validating the result again returns it
    unchanged. *)
Theorem accepted_numbers_are_canonical (phoneNumber clean : string) :
  validatePhoneNumber phoneNumber = Ok clean ->
  String.length clean = 12
  /\ all_digits clean = true
  /\ starts_with "91" clean = true
  /\ validatePhoneNumber clean = Ok clean.
Proof.
  unfold validatePhoneNumber at 1.
  destruct (String.eqb phoneNumber EmptyString); [discriminate|].
  match goal with
  | |- context [negb (indian_mobile ?c)] => remember c as c0 eqn:Hc0
  end.
  clear Hc0.
  destruct (indian_mobile c0) eqn:Hm; cbn [negb]; [|discriminate].
  intros [= <-].
  destruct (indian_mobile_shape _ Hm) as (Hl & Hp & Hd).
  repeat split; try assumption.
  unfold validatePhoneNumber.
  destruct (String.eqb c0 EmptyString) eqn:He.
  { apply String.eqb_eq in He. rewrite He in Hl. discriminate Hl. }
  rewrite (digits_fixed c0 Hd), Hp. cbn [negb andb]. now rewrite Hm.
Qed.

Lemma length_of_list (s : string) :
  List.length (list_ascii_of_string s) = String.length s.
Proof. induction s as [|c s IH]; cbn; [reflexivity | now rewrite IH]. Qed.

Lemma prefixed_91 (s : string) : starts_with "91" ("91" ++ s) = true.
Proof. unfold starts_with. cbn. now destruct s. Qed.

(** X11.  For a number of ten digits, [validatePhoneNumber] prefixes 91 and
    accepts it when it begins with a digit from 6 to 9 and not with 91, and
    rejects it otherwise: a ten-digit number that itself begins with 91 is
    taken to carry the country code already and fails the length test. *)
Theorem ten_digit_numbers (phoneNumber : string) :
  String.length phoneNumber = 10 ->
  all_digits phoneNumber = true ->
  validatePhoneNumber phoneNumber
  = if negb (starts_with "91" phoneNumber) && mobile_lead phoneNumber
    then Ok ("91" ++ phoneNumber)
    else Throw (Error ("Invalid phone number format: " ++ phoneNumber)).
Proof.
  intros Hl Hd. unfold validatePhoneNumber.
  destruct (String.eqb phoneNumber EmptyString) eqn:He.
  { apply String.eqb_eq in He. rewrite He in Hl. discriminate Hl. }
  rewrite (digits_fixed _ Hd), Hl, Nat.eqb_refl.
  destruct (starts_with "91" phoneNumber) eqn:Hp; cbn [negb andb].
  - unfold indian_mobile. rewrite Hl. reflexivity.
  - unfold indian_mobile, mobile_lead.
    change (String.length ("91" ++ phoneNumber))
      with (S (S (String.length phoneNumber))).
    rewrite Hl. cbn [Nat.eqb andb].
    rewrite prefixed_91.
    change (String.get 2 ("91" ++ phoneNumber))
      with (String.get 0 phoneNumber).
    change (list_ascii_of_string ("91" ++ phoneNumber))
      with ("9"%char :: "1"%char :: list_ascii_of_string phoneNumber).
    cbn [forallb andb]. unfold all_digits in Hd. rewrite Hd.
    change (is_digit "9") with true. change (is_digit "1") with true.
    cbn [andb]. rewrite andb_true_r.
    destruct (String.get 0 phoneNumber) as [c|]; [|reflexivity].
    destruct ((54 <=? code c)%Z && (code c <=? 57)%Z); reflexivity.
Qed.

(** X10 at a number written with a country code and separators. *)
Lemma accepted_numbers_are_canonical_witness :
  validatePhoneNumber "919876543210" = Ok "919876543210".
Proof.
  exact (proj2 (proj2 (proj2
    (accepted_numbers_are_canonical "+91 98765-43210" "919876543210"
       eq_refl)))).
Defined.

(** X11 at a mobile number that begins with 91. *)
Lemma ten_digit_numbers_witness :
  validatePhoneNumber "9123456789"
  = Throw (Error "Invalid phone number format: 9123456789").
Proof.
  exact (ten_digit_numbers "9123456789" eq_refl eq_refl).
Defined.


(** *** Sending *)

Lemma posts_app (t u : list Event) : posts (t ++ u) = posts t + posts u.
Proof. unfold posts. now rewrite filter_app, length_app. Qed.


Section WithCollaborators.
Context {E : Engine} {Ext : Type} (C : Collaborators Ext).

(** What [sendMessage] does with an API key: it never throws, appends to
    the trace at most one request and no delay, reports success only for
    the request that the transport accepted, and reports the error of the
    one that it refused. *)
Lemma sendMessage_with_key (key : string) (numbers : list string)
  (message : string) (w : World Ext) :
  configured C key ->
  exists r w' added,
    sendMessage C numbers message w = Some (Ok r, w')
    /\ service w' = service w
    /\ trace w' = (trace w ++ added)%list
    /\ delays added = 0
    /\ posts added <= 1
    /\ (send_success r = true ->
        posts added = 1
        /\ exists clean,
             validateAll numbers = Ok clean
             /\ answer C (axios_post apiUrl key clean message) (ext w)
                = (Ok (response r), ext w'))
    /\ (send_success r = false -> send_error r <> None)
    /\ (numbers = [] \/ (exists e, validateAll numbers = Throw e) ->
        posts added = 0 /\ ext w' = ext w /\ send_success r = false)
    /\ (forall clean e x,
          numbers <> [] ->
          validateAll numbers = Ok clean ->
          answer C (axios_post apiUrl key clean message) (ext w)
          = (Throw e, x) ->
          send_success r = false /\ send_error r = Some (emessage e)).
Proof.
  intros (Hkey & Hne). unfold sendMessage. rewrite Hkey, Hne.
  destruct numbers as [|n rest].
  - eexists _, _, [_]. split; [reflexivity|].
    cbn [service trace ext send_success send_error].
    split; [reflexivity|]. split; [reflexivity|].
    split; [reflexivity|]. split; [cbn; lia|].
    split; [discriminate|]. split; [discriminate|].
    split; [now intros _|]. intros clean e x Hn. congruence.
  - cbn [List.length Nat.eqb].
    destruct (validateAll (n :: rest)) as [clean|e] eqn:Hv.
    + unfold try_catch, bind, of_result, ret, call, log, emit, modify.
      cbn [service ext trace].
      destruct (answer C (axios_post apiUrl key clean message) (ext w))
        as [[resp|e] x] eqn:Ha; cbn [service ext trace].
      * eexists _, _, [_; _]. split; [reflexivity|].
        cbn [service trace ext send_success send_error response].
        split; [reflexivity|].
        split; [now rewrite <- app_assoc|].
        split; [reflexivity|]. split; [cbn; lia|].
        split; [intros _; split; [reflexivity | now exists clean]|].
        split; [discriminate|].
        split.
        -- intros [Hx | [e' Hx]]; discriminate Hx.
        -- intros clean' e x' _ Hc Hr. injection Hc as <-.
           rewrite Ha in Hr. discriminate Hr.
      * eexists _, _, [_; _]. split; [reflexivity|].
        cbn [service trace ext send_success send_error response].
        split; [reflexivity|].
        split; [now rewrite <- app_assoc|].
        split; [reflexivity|]. split; [cbn; lia|].
        split; [discriminate|].
        split; [discriminate|].
        split.
        -- intros [Hx | [e' Hx]]; discriminate Hx.
        -- intros clean' e' x' _ Hc Hr. injection Hc as <-.
           rewrite Ha in Hr. injection Hr as <- _. now split.
    + unfold try_catch, bind, of_result, throw, ret, log, emit, modify.
      eexists _, _, [_]. split; [reflexivity|].
      cbn [service trace ext send_success send_error].
      split; [reflexivity|]. split; [reflexivity|].
      split; [reflexivity|]. split; [cbn; lia|].
      split; [discriminate|]. split; [discriminate|].
      split; [now intros _|]. intros clean e' x _ Hc. discriminate Hc.
Qed.


(** X12.  With an API key, [sendMessage] never throws and issues at most
    one request; when the list of numbers is empty or one of the numbers is
    not valid, it issues none, leaves the outside world as it is and returns
    a failure. *)
Theorem invalid_number_blocks_the_request (key : string)
  (numbers : list string) (message : string) (w : World Ext) :
  configured C key ->
  exists r w',
    sendMessage C numbers message w = Some (Ok r, w')
    /\ posts (trace w') <= posts (trace w) + 1
    /\ (send_success r = true -> posts (trace w') = posts (trace w) + 1)
    /\ (numbers = [] \/ (exists e, validateAll numbers = Throw e) ->
        posts (trace w') = posts (trace w)
        /\ ext w' = ext w
        /\ send_success r = false).
Proof.
  intros H.
  destruct (sendMessage_with_key key numbers message w H)
    as (r & w' & added & H1 & _ & T & _ & P & Hs & _ & Hi & _).
  exists r, w'. split; [exact H1|]. rewrite T, posts_app.
  split; [lia|]. split.
  - intros S. destruct (Hs S) as (P1 & _). lia.
  - intros Hn. destruct (Hi Hn) as (P0 & X & S). repeat split; [lia | | ]; assumption.
Qed.





(** X14.  With an API key, [sendTestMessage] never throws.  It reports
    success only after one request that the transport accepted, for the
    validated target number and the test text, and it returns the
    transport's response; every failure that it reports carries an error
    text, and when the transport refuses the request the report is a
    failure with the transport's error text: unlike the other senders, it
    reads [result.success]. *)
Theorem test_message_reports_the_transport (key : string)
  (recipientNumbers : list string) (testNumber : option string)
  (w : World Ext) :
  configured C key ->
  exists r w',
    sendTestMessage C recipientNumbers testNumber w = Some (Ok r, w')
    /\ (test_success r = true ->
        posts (trace w') = posts (trace w) + 1
        /\ exists number clean,
             test_target recipientNumbers testNumber = Some number
             /\ validatePhoneNumber number = Ok clean
             /\ answer C
                  (axios_post apiUrl key [clean]
                     (testMessage (clock C (ext w)))) (ext w)
                = (Ok (test_response r), ext w'))
    /\ (test_success r = false -> test_error r <> None)
    /\ (forall number clean e x,
          test_target recipientNumbers testNumber = Some number ->
          validatePhoneNumber number = Ok clean ->
          answer C
            (axios_post apiUrl key [clean] (testMessage (clock C (ext w))))
            (ext w)
          = (Throw e, x) ->
          test_success r = false /\ test_error r = Some (emessage e)).
Proof.
  intros Hkey. unfold sendTestMessage, try_catch.
  fold (test_target recipientNumbers testNumber).
  destruct (test_target recipientNumbers testNumber) as [number|].
  2:{ eexists _, _. split; [reflexivity|].
      split; [discriminate|]. split; [discriminate|].
      intros number clean e x Hn. discriminate Hn. }
  destruct (String.eqb number EmptyString) eqn:Hempty.
  { apply String.eqb_eq in Hempty. subst number.
    eexists _, _. split; [reflexivity|].
    split; [discriminate|]. split; [discriminate|].
    intros number clean e x Hn Hv. injection Hn as <-. discriminate Hv. }
  unfold bind at 1, now.
  destruct (sendMessage_with_key key [number] (testMessage (clock C (ext w)))
              w Hkey)
    as (r & w1 & added & H1 & _ & T1 & _ & _ & Hs & E1 & _ & Hr).
  unfold bind at 1. rewrite H1.
  assert (V : forall clean,
             validatePhoneNumber number = Ok clean ->
             validateAll [number] = Ok [clean]).
  { intros clean Hv. cbn [validateAll]. now rewrite Hv. }
  assert (V' : forall l,
             validateAll [number] = Ok l ->
             exists clean, l = [clean] /\ validatePhoneNumber number = Ok clean).
  { intros l. cbn [validateAll].
    destruct (validatePhoneNumber number) as [clean|e]; [|discriminate].
    intros Hl. injection Hl as <-. now exists clean. }
  destruct (send_success r) eqn:Hsuccess.
  - destruct (Hs eq_refl) as (P1 & l & Hl & Ha).
    destruct (V' l Hl) as (clean & -> & Hv).
    eexists _, _. split; [reflexivity|].
    cbn [trace ext test_success test_error test_response].
    split.
    + intros _. split.
      * rewrite T1, !posts_app, P1. cbn. lia.
      * exists number, clean. now repeat split.
    + split; [discriminate|].
      intros number' clean' e x Hn Hv' Hx.
      injection Hn as <-. rewrite Hv in Hv'. injection Hv' as <-.
      rewrite Ha in Hx. discriminate Hx.
  - eexists _, _. split; [reflexivity|].
    cbn [trace ext test_success test_error test_response].
    split; [discriminate|]. split; [discriminate|].
    intros number' clean e x Hn Hv Hx. injection Hn as <-.
    destruct (Hr [clean] e x ltac:(discriminate) (V clean Hv) Hx)
      as (_ & He).
    split; [reflexivity|]. cbn [emessage]. now rewrite He.
Qed.

End WithCollaborators.

Import Samples ReferenceEngine ReferenceWorld.

(** X12 at a list whose second number is too short. *)
Lemma invalid_number_blocks_the_request_witness :
  exists r w',
    sendMessage collaborators ["9876543210"; "12345"] "Hearing tomorrow"
      (start healthy) = Some (Ok r, w')
    /\ posts (trace w') = 0
    /\ send_success r = false.
Proof.
  destruct (invalid_number_blocks_the_request collaborators "secret-key"
              ["9876543210"; "12345"] "Hearing tomorrow" (start healthy)
              (conj eq_refl eq_refl))
    as (r & w' & H & _ & _ & H3).
  destruct H3 as (P & _ & S).
  { right. eexists. reflexivity. }
  exists r, w'. split; [exact H|]. split; [exact P | exact S].
Defined.


(** With the transport refusing every connection, both recipients are still
    reported as delivered. *)
Example refused_messages_are_reported_delivered :
  exists results w',
    sendToAllRecipients (E := utc_engine) collaborators
      ["9876543210"; " 9876500000 "] "Hearing tomorrow" (start transport_down)
    = Some (Ok results, w')
    /\ map delivered results = [true; true]
    /\ posts (trace w') = 2
    /\ delays (trace w') = 2.
Proof.
  eexists _, _. split; [vm_compute; reflexivity|]. repeat split.
Qed.

(** X14 with the transport refusing every connection. *)
Lemma test_message_reports_the_transport_witness :
  exists r w',
    sendTestMessage (E := utc_engine) collaborators ["9876543210"] None
      (start transport_down) = Some (Ok r, w')
    /\ test_success r = false
    /\ test_error r = Some "connect ECONNREFUSED 198.38.87.182:80".
Proof.
  destruct (test_message_reports_the_transport (E := utc_engine) collaborators
              "secret-key" ["9876543210"] None (start transport_down)
              (conj eq_refl eq_refl)) as (r & w' & H & _ & _ & Hr).
  destruct (Hr "9876543210" "919876543210" refused transport_down
              eq_refl eq_refl eq_refl) as (S & M).
  exists r, w'. split; [exact H|]. split; [exact S | exact M].
Defined.

End WhatsAppLaws.

(* ================================================================= *)
(** ** Properties of the client of the court's server *)

Module ApiLaws.
Import JS Comp ApiService Measures.

Lemma requests_app (h k : list Event) :
  requests (h ++ k) = requests h + requests k.
Proof. unfold requests. now rewrite filter_app, length_app. Qed.

Lemma waits_app (h k : list Event) : waits (h ++ k) = (waits h ++ waits k)%list.
Proof.
  induction h as [|[c|ms|l] h IH]; cbn; [reflexivity | | | ]; now rewrite ?IH.
Qed.

Section WithServer.
Context {Ext : Type}.
Variable makeRequest : string -> Ext -> Result jsval * Ext.
Variable extract : jsval -> string -> Result jsval.

#[local] Abbreviation attemptFrom := (attemptFrom makeRequest extract).
#[local] Abbreviation fetchSingleCase := (fetchSingleCase makeRequest extract).
#[local] Abbreviation fetchCaseData := (fetchCaseData makeRequest extract).
#[local] Abbreviation fetchEach := (fetchEach makeRequest extract).

(** One iteration of the loop of [fetchSingleCase] makes one request; it
    either ends the loop without waiting, or goes on with the next attempt,
    after the backoff when the request or the parsing threw. *)
Lemma attempt_step (remaining : nat) (attempt : Z) (cino : string)
  (n : Net Ext) :
  (exists r n',
      attemptFrom (S remaining) attempt cino n = Some (r, n')
      /\ requests (history n') = requests (history n) + 1
      /\ waits (history n') = waits (history n))
  \/ (exists n1,
        attemptFrom (S remaining) attempt cino n
        = attemptFrom remaining (attempt + 1)%Z cino n1
        /\ requests (history n1) = requests (history n) + 1
        /\ (waits (history n1) = waits (history n)
            \/ attempt <> retryAttempts
               /\ waits (history n1)
                  = (waits (history n) ++ [1000 * 2 ^ (attempt - 1)]%Z)%list)).
Proof.
  cbn [ApiService.attemptFrom].
  cbv beta iota delta [bind try_catch request parseHtmlToJson of_result note
                       delay modify ret throw].
  cbn [server history].
  destruct (makeRequest cino (server n)) as [[response|e] x] eqn:Hr.
  - destruct (truthy response && truthy (data_of response)).
    + destruct (extract (data_of response) cino) as [caseData|e].
      * left. eexists _, _. split; [reflexivity|]. cbn [history].
        rewrite !requests_app, !waits_app. cbn.
        rewrite !app_nil_r. repeat split; lia.
      * cbn [server history].
        destruct (attempt =? retryAttempts)%Z eqn:Ha.
        -- left. eexists _, _. split; [reflexivity|]. cbn [history].
           rewrite !requests_app, !waits_app. cbn.
           rewrite !app_nil_r. repeat split; lia.
        -- right. cbn [server history].
           eexists. split; [reflexivity|]. cbn [history].
           rewrite !requests_app, !waits_app. cbn. rewrite !app_nil_r.
           split; [lia|]. right. split; [|reflexivity].
           now apply Z.eqb_neq.
    + right. eexists. split; [reflexivity|]. cbn [history].
      rewrite !requests_app, !waits_app. cbn. rewrite !app_nil_r.
      split; [lia|]. now left.
  - cbn [server history].
    destruct (attempt =? retryAttempts)%Z eqn:Ha.
    + left. eexists _, _. split; [reflexivity|]. cbn [history].
      rewrite !requests_app, !waits_app. cbn.
      rewrite !app_nil_r. repeat split; lia.
    + right. cbn [server history].
      eexists. split; [reflexivity|]. cbn [history].
      rewrite !requests_app, !waits_app. cbn. rewrite !app_nil_r.
      split; [lia|]. right. split; [|reflexivity].
      now apply Z.eqb_neq.
Qed.


Lemma attempt_refused (remaining : nat) (attempt : Z) (cino : string)
  (n : Net Ext) (e : Exn) (x : Ext) :
  makeRequest cino (server n) = (Throw e, x) ->
  exists n1,
    requests (history n1) = requests (history n) + 1
    /\ (attempt = retryAttempts ->
        attemptFrom (S remaining) attempt cino n = Some (Throw e, n1)
        /\ waits (history n1) = waits (history n))
    /\ (attempt <> retryAttempts ->
        exists n2,
          attemptFrom (S remaining) attempt cino n
          = attemptFrom remaining (attempt + 1)%Z cino n2
          /\ requests (history n2) = requests (history n) + 1
          /\ waits (history n2)
             = (waits (history n) ++ [1000 * 2 ^ (attempt - 1)]%Z)%list).
Proof.
  intros Hr. cbn [ApiService.attemptFrom].
  cbv beta iota delta [bind try_catch request parseHtmlToJson of_result note
                       delay modify ret throw].
  cbn [server history]. rewrite Hr. cbn [server history].
  eexists (mkNet x _). split; [|split].
  2:{ intros ->. rewrite Z.eqb_refl. split; [reflexivity|].
      cbn [history]. rewrite !waits_app. cbn. now rewrite !app_nil_r. }
  - cbn [history]. rewrite !requests_app. cbn. lia.
  - intros Ha. apply Z.eqb_neq in Ha. rewrite Ha.
    eexists. split; [reflexivity|]. cbn [history].
    rewrite !requests_app, !waits_app. cbn. rewrite !app_nil_r.
    split; [lia | reflexivity].
Qed.

Lemma attempt_blank (remaining : nat) (attempt : Z) (cino : string)
  (n : Net Ext) (response : jsval) (x : Ext) :
  makeRequest cino (server n) = (Ok response, x) ->
  truthy response && truthy (data_of response) = false ->
  attemptFrom (S remaining) attempt cino n
  = attemptFrom remaining (attempt + 1)%Z cino
      (mkNet x (history n ++ [Requested cino])).
Proof.
  intros Hr Hd. cbn [ApiService.attemptFrom].
  cbv beta iota delta [bind try_catch request parseHtmlToJson of_result note
                       delay modify ret throw].
  cbn [server history]. now rewrite Hr, Hd.
Qed.

Lemma fetchSingleCase_bounded (cino : string) (n : Net Ext) :
  exists r n',
    fetchSingleCase cino n = Some (r, n')
    /\ requests (history n) + 1 <= requests (history n')
    /\ requests (history n') <= requests (history n) + 3
    /\ exists first second : bool,
         waits (history n')
         = (waits (history n)
            ++ (if first then [1000%Z] else [])
            ++ (if second then [2000%Z] else []))%list.
Proof.
  unfold ApiService.fetchSingleCase.
  change (Z.to_nat retryAttempts) with 3.
  destruct (attempt_step 2 1 cino n)
    as [(r & n' & H & R & W) | (n1 & H1 & R1 & W1)].
  { exists r, n'. split; [exact H|]. split; [lia|]. split; [lia|].
    exists false, false. cbn. now rewrite app_nil_r. }
  rewrite H1. change (1 + 1)%Z with 2%Z.
  assert (W1' : exists first : bool,
            waits (history n1)
            = (waits (history n) ++ (if first then [1000%Z] else []))%list).
  { destruct W1 as [W1 | [_ W1]].
    - exists false. now rewrite app_nil_r.
    - exists true. exact W1. }
  clear W1. destruct W1' as (first & W1).
  destruct (attempt_step 1 2 cino n1)
    as [(r & n' & H & R & W) | (n2 & H2 & R2 & W2)].
  { exists r, n'. split; [exact H|]. split; [lia|]. split; [lia|].
    exists first, false. now rewrite W, W1, app_nil_r. }
  rewrite H2. change (2 + 1)%Z with 3%Z.
  assert (W2' : exists second : bool,
            waits (history n2)
            = (waits (history n)
               ++ (if first then [1000%Z] else [])
               ++ (if second then [2000%Z] else []))%list).
  { destruct W2 as [W2 | [_ W2]].
    - exists false. now rewrite W2, W1, app_nil_r.
    - exists true. now rewrite W2, W1, <- app_assoc. }
  clear W2. destruct W2' as (second & W2).
  destruct (attempt_step 0 3 cino n2)
    as [(r & n' & H & R & W) | (n3 & H3 & R3 & W3)].
  { exists r, n'. split; [exact H|]. split; [lia|]. split; [lia|].
    exists first, second. now rewrite W. }
  rewrite H3. cbn [ApiService.attemptFrom]. unfold ret.
  eexists _, _. split; [reflexivity|]. split; [lia|]. split; [lia|].
  destruct W3 as [W3 | [W3 _]]; [|now contradiction W3].
  exists first, second. now rewrite W3.
Qed.

Lemma returned_or_threw (cino : string) (x : Ext) :
  attempt_returned makeRequest extract cino x = true ->
  attempt_threw makeRequest extract cino x = false.
Proof.
  unfold attempt_returned, attempt_threw.
  destruct (makeRequest cino x) as [[response|e] x']; [|discriminate].
  destruct (truthy response && truthy (data_of response)); [|reflexivity].
  destruct (extract (data_of response) cino); [reflexivity | discriminate].
Qed.

(** One iteration of the loop of [fetchSingleCase], by the outcome of its
    attempt. *)
Lemma attempt_exact (remaining : nat) (attempt : Z) (cino : string)
  (n : Net Ext) :
  (attempt_returned makeRequest extract cino (server n) = true ->
   exists v n',
     attemptFrom (S remaining) attempt cino n = Some (Ok v, n')
     /\ requests (history n') = requests (history n) + 1
     /\ waits (history n') = waits (history n))
  /\ (attempt_threw makeRequest extract cino (server n) = true ->
      (attempt = retryAttempts ->
       exists e n',
         attemptFrom (S remaining) attempt cino n = Some (Throw e, n')
         /\ requests (history n') = requests (history n) + 1
         /\ waits (history n') = waits (history n))
      /\ (attempt <> retryAttempts ->
          exists n1,
            attemptFrom (S remaining) attempt cino n
            = attemptFrom remaining (attempt + 1)%Z cino n1
            /\ server n1 = snd (makeRequest cino (server n))
            /\ requests (history n1) = requests (history n) + 1
            /\ waits (history n1)
               = (waits (history n) ++ [1000 * 2 ^ (attempt - 1)]%Z)%list))
  /\ (attempt_returned makeRequest extract cino (server n) = false ->
      attempt_threw makeRequest extract cino (server n) = false ->
      exists n1,
        attemptFrom (S remaining) attempt cino n
        = attemptFrom remaining (attempt + 1)%Z cino n1
        /\ server n1 = snd (makeRequest cino (server n))
        /\ requests (history n1) = requests (history n) + 1
        /\ waits (history n1) = waits (history n)).
Proof.
  unfold attempt_returned, attempt_threw.
  cbn [ApiService.attemptFrom].
  cbv beta iota delta [bind try_catch request parseHtmlToJson of_result note
                       delay modify ret throw].
  cbn [server history].
  destruct (makeRequest cino (server n)) as [[response|e] x] eqn:Hr;
    cbn [snd].
  - destruct (truthy response && truthy (data_of response)); cbn [andb].
    + destruct (extract (data_of response) cino) as [caseData|e].
      * split; [|split; intros; discriminate].
        intros _. eexists _, _. split; [reflexivity|]. cbn [history].
        rewrite !requests_app, !waits_app. cbn. rewrite !app_nil_r.
        split; [lia | reflexivity].
      * split; [discriminate|]. split; [|intros _ H; discriminate H].
        intros _. cbn [server history]. split.
        -- intros ->. rewrite Z.eqb_refl.
           eexists _, _. split; [reflexivity|]. cbn [history].
           rewrite !requests_app, !waits_app. cbn. rewrite !app_nil_r.
           split; [lia | reflexivity].
        -- intros Ha. apply Z.eqb_neq in Ha. rewrite Ha.
           cbn [server history]. eexists. split; [reflexivity|].
           cbn [server history]. split; [reflexivity|].
           rewrite !requests_app, !waits_app. cbn. rewrite !app_nil_r.
           split; [lia | reflexivity].
    + split; [discriminate|]. split; [discriminate|].
      intros _ _. eexists. split; [reflexivity|]. cbn [server history].
      split; [reflexivity|].
      rewrite !requests_app, !waits_app. cbn. rewrite !app_nil_r.
      split; [lia | reflexivity].
  - split; [discriminate|]. split; [|intros _ H; discriminate H].
    intros _. cbn [server history]. split.
    + intros ->. rewrite Z.eqb_refl.
      eexists _, _. split; [reflexivity|]. cbn [history].
      rewrite !requests_app, !waits_app. cbn. rewrite !app_nil_r.
      split; [lia | reflexivity].
    + intros Ha. apply Z.eqb_neq in Ha. rewrite Ha.
      cbn [server history]. eexists. split; [reflexivity|].
      cbn [server history]. split; [reflexivity|].
      rewrite !requests_app, !waits_app. cbn. rewrite !app_nil_r.
      split; [lia | reflexivity].
Qed.

(** X15.  [fetchSingleCase] always terminates, after one to three
    requests to the server: one when the first attempt returns, two when
    the second does, three otherwise.  The only waits it takes are the
    backoffs after an attempt that threw: 1000 milliseconds exactly when
    the first attempt threw, then 2000 milliseconds exactly when a second
    attempt was made and threw; an empty response and a third attempt that
    throws are followed by no wait. *)
Theorem at_most_three_requests (cino : string) (n : Net Ext) :
  let x0 := server n in
  let x1 := snd (makeRequest cino x0) in
  let returned := attempt_returned makeRequest extract cino in
  let threw := attempt_threw makeRequest extract cino in
  exists r n',
    fetchSingleCase cino n = Some (r, n')
    /\ requests (history n) + 1 <= requests (history n')
    /\ requests (history n') <= requests (history n) + 3
    /\ requests (history n')
       = requests (history n)
         + (if returned x0 then 1 else if returned x1 then 2 else 3)
    /\ waits (history n')
       = (waits (history n)
          ++ (if threw x0 then [1000%Z] else [])
          ++ (if negb (returned x0) && threw x1 then [2000%Z] else []))%list.
Proof.
  cbv zeta. unfold ApiService.fetchSingleCase.
  change (Z.to_nat retryAttempts) with 3.
  destruct (attempt_exact 2 1 cino n) as (R0 & T0 & B0).
  destruct (attempt_returned makeRequest extract cino (server n)) eqn:Hr0.
  { rewrite (returned_or_threw _ _ Hr0).
    destruct (R0 eq_refl) as (v & n' & H & R & W).
    exists (Ok v), n'. split; [exact H|]. rewrite R, W. cbn [negb andb app].
    rewrite app_nil_r. repeat split; lia. }
  cbn [negb andb].
  assert (Step1 : exists n1,
             attemptFrom 3 1 cino n = attemptFrom 2 2 cino n1
             /\ server n1 = snd (makeRequest cino (server n))
             /\ requests (history n1) = requests (history n) + 1
             /\ waits (history n1)
                = (waits (history n)
                   ++ (if attempt_threw makeRequest extract cino (server n)
                       then [1000%Z] else []))%list).
  { destruct (attempt_threw makeRequest extract cino (server n)) eqn:Ht0.
    - destruct (T0 eq_refl) as (_ & Go).
      destruct Go as (n1 & H & S1 & R & W); [discriminate|].
      exists n1. repeat split; assumption.
    - destruct (B0 eq_refl eq_refl) as (n1 & H & S1 & R & W).
      exists n1. rewrite app_nil_r. repeat split; assumption. }
  destruct Step1 as (n1 & -> & S1 & R1 & W1). rewrite <- S1.
  destruct (attempt_exact 1 2 cino n1) as (R1' & T1 & B1).
  destruct (attempt_returned makeRequest extract cino (server n1)) eqn:Hr1.
  { rewrite (returned_or_threw _ _ Hr1).
    destruct (R1' eq_refl) as (v & n' & H & R & W).
    exists (Ok v), n'. split; [exact H|]. rewrite R, W, R1, W1.
    rewrite app_nil_r. repeat split; lia. }
  assert (Step2 : exists n2,
             attemptFrom 2 2 cino n1 = attemptFrom 1 3 cino n2
             /\ requests (history n2) = requests (history n1) + 1
             /\ waits (history n2)
                = (waits (history n1)
                   ++ (if attempt_threw makeRequest extract cino (server n1)
                       then [2000%Z] else []))%list).
  { destruct (attempt_threw makeRequest extract cino (server n1)) eqn:Ht1.
    - destruct (T1 eq_refl) as (_ & Go).
      destruct Go as (n2 & H & _ & R & W); [discriminate|].
      exists n2. repeat split; assumption.
    - destruct (B1 eq_refl eq_refl) as (n2 & H & _ & R & W).
      exists n2. rewrite app_nil_r. repeat split; assumption. }
  destruct Step2 as (n2 & -> & R2 & W2).
  destruct (attempt_exact 0 3 cino n2) as (R2' & T2 & B2).
  destruct (attempt_returned makeRequest extract cino (server n2)) eqn:Hr2.
  { destruct (R2' eq_refl) as (v & n' & H & R & W).
    exists (Ok v), n'. split; [exact H|]. rewrite R, W, R2, W2, R1, W1.
    rewrite <- app_assoc. repeat split; lia. }
  destruct (attempt_threw makeRequest extract cino (server n2)) eqn:Ht2.
  - destruct (T2 eq_refl) as (Stop & _).
    destruct (Stop eq_refl) as (e & n' & H & R & W).
    exists (Throw e), n'. split; [exact H|]. rewrite R, W, R2, W2, R1, W1.
    rewrite <- app_assoc. repeat split; lia.
  - destruct (B2 eq_refl eq_refl) as (n3 & H & _ & R & W).
    rewrite H. cbn [ApiService.attemptFrom]. unfold ret.
    eexists _, _. split; [reflexivity|]. rewrite R, W, R2, W2, R1, W1.
    rewrite <- app_assoc. repeat split; lia.
Qed.

(** X16.  When every request for the case fails, [fetchSingleCase] makes
    three requests, waits one second and then two seconds between them, and
    throws the error of the third request, leaving the server as that
    request left it. *)
Theorem persistent_failure_is_rethrown (cino : string) (n : Net Ext) :
  (forall x, exists e x', makeRequest cino x = (Throw e, x')) ->
  let x1 := snd (makeRequest cino (server n)) in
  let x2 := snd (makeRequest cino x1) in
  exists e n',
    fetchSingleCase cino n = Some (Throw e, n')
    /\ makeRequest cino x2 = (Throw e, server n')
    /\ requests (history n') = requests (history n) + 3
    /\ waits (history n') = (waits (history n) ++ [1000; 2000]%Z)%list.
Proof.
  intros Hfail. cbv zeta.
  assert (Threw : forall x, attempt_threw makeRequest extract cino x = true).
  { intros x. unfold attempt_threw. now destruct (Hfail x) as (e & x' & ->). }
  unfold ApiService.fetchSingleCase.
  change (Z.to_nat retryAttempts) with 3.
  destruct (attempt_exact 2 1 cino n) as (_ & T0 & _).
  destruct (T0 (Threw _)) as (_ & Go0).
  destruct Go0 as (n1 & -> & S1 & R1 & W1); [discriminate|].
  change (1 + 1)%Z with 2%Z.
  destruct (attempt_exact 1 2 cino n1) as (_ & T1 & _).
  destruct (T1 (Threw _)) as (_ & Go1).
  destruct Go1 as (n2 & -> & S2 & R2 & W2); [discriminate|].
  change (2 + 1)%Z with 3%Z.
  rewrite <- S1, <- S2.
  cbn [ApiService.attemptFrom].
  cbv beta iota delta [bind try_catch request parseHtmlToJson of_result
                       note delay modify ret throw].
  cbn [server history].
  destruct (Hfail (server n2)) as (e & x & Hr).
  rewrite Hr. cbn [server history]. rewrite Z.eqb_refl.
  exists e. eexists. split; [reflexivity|]. cbn [server history].
  split; [reflexivity|].
  rewrite !requests_app, !waits_app, R2, W2, R1, W1. cbn.
  rewrite !app_nil_r. split; [lia|]. now rewrite <- app_assoc.
Qed.

(** X17.  When every response for the case is empty, [fetchSingleCase]
    repeats the request at once, without any backoff, and returns [null]
    after the third. *)
Theorem empty_responses_are_retried_at_once (cino : string) (n : Net Ext) :
  (forall x, exists response x',
      makeRequest cino x = (Ok response, x')
      /\ truthy response && truthy (data_of response) = false) ->
  exists n',
    fetchSingleCase cino n = Some (Ok JNull, n')
    /\ requests (history n') = requests (history n) + 3
    /\ waits (history n') = waits (history n).
Proof.
  intros Hblank. unfold ApiService.fetchSingleCase.
  change (Z.to_nat retryAttempts) with 3.
  destruct (Hblank (server n)) as (r1 & x1 & Hr1 & Hd1).
  rewrite (attempt_blank 2 1 cino n r1 x1 Hr1 Hd1).
  match goal with |- context [attemptFrom 2 _ cino ?m] => set (n1 := m) end.
  destruct (Hblank (server n1)) as (r2 & x2 & Hr2 & Hd2).
  rewrite (attempt_blank 1 _ cino n1 r2 x2 Hr2 Hd2).
  match goal with |- context [attemptFrom 1 _ cino ?m] => set (n2 := m) end.
  destruct (Hblank (server n2)) as (r3 & x3 & Hr3 & Hd3).
  rewrite (attempt_blank 0 _ cino n2 r3 x3 Hr3 Hd3).
  cbn [ApiService.attemptFrom]. unfold ret.
  eexists. split; [reflexivity|]. subst n1 n2. cbn [history].
  rewrite !requests_app, !waits_app. cbn. rewrite !app_nil_r.
  split; [lia | reflexivity].
Qed.

Lemma fetchEach_spec (cinos todo : list string) :
  forall results n,
    exists added n',
      fetchEach cinos todo (results, n)
      = Some (Ok tt, ((results ++ added)%list, n'))
      /\ Forall (fun v => truthy v = true) added
      /\ List.length added <= List.length todo
      /\ requests (history n')
         <= requests (history n) + 3 * List.length todo.
Proof.
  induction todo as [|cino rest IH]; intros results n.
  - exists [], n. cbn. rewrite app_nil_r.
    repeat split; first [constructor | lia].
  - cbn [ApiService.fetchEach].
    cbv beta iota delta [bind try_catch lift note modify set_local ret].
    cbn [fst snd server history].
    match goal with
    | |- context [ApiService.fetchSingleCase _ _ cino ?m] =>
        destruct (fetchSingleCase_bounded cino m) as (r & n1 & H & _ & R & _);
        cbn [history] in R; rewrite requests_app in R; cbn in R
    end.
    rewrite H.
    destruct r as [caseData|e].
    + destruct (truthy caseData) eqn:Ht;
        destruct (indexOf cinos cino <? Z.of_nat (List.length cinos) - 1)%Z;
        cbv beta iota delta [delay modify ret]; cbn [fst snd server history];
        match goal with
        | |- context [ApiService.fetchEach _ _ cinos rest (?acc, ?m)] =>
            destruct (IH acc m) as (added & n' & H2 & F2 & L2 & R2)
        end;
        rewrite H2; cbn [history] in R2;
        rewrite ?requests_app in R2; cbn in R2.
      * exists (caseData :: added), n'. rewrite <- app_assoc.
        split; [reflexivity|]. split; [now constructor|].
        cbn [List.length]. split; lia.
      * exists (caseData :: added), n'. rewrite <- app_assoc.
        split; [reflexivity|]. split; [now constructor|].
        cbn [List.length]. split; lia.
      * exists added, n'. split; [reflexivity|]. split; [exact F2|].
        cbn [List.length]. split; lia.
      * exists added, n'. split; [reflexivity|]. split; [exact F2|].
        cbn [List.length]. split; lia.
    + cbn [fst snd server history].
      match goal with
      | |- context [ApiService.fetchEach _ _ cinos rest (?acc, ?m)] =>
          destruct (IH acc m) as (added & n' & H2 & F2 & L2 & R2)
      end.
      rewrite H2. cbn [history] in R2. rewrite ?requests_app in R2.
      cbn in R2.
      exists added, n'. split; [reflexivity|]. split; [exact F2|].
      cbn [List.length]. split; lia.
Qed.

(** X18.  [fetchCaseData] never throws, whatever the server and the
    parser do; it returns only records that are truthy, at most one per
    requested case, and makes at most three requests per case. *)
Theorem bulk_fetch_never_throws (cinos : list string) (n : Net Ext) :
  exists results n',
    fetchCaseData cinos n = Some (Ok results, n')
    /\ Forall (fun v => truthy v = true) results
    /\ List.length results <= List.length cinos
    /\ requests (history n')
       <= requests (history n) + 3 * List.length cinos.
Proof.
  unfold ApiService.fetchCaseData, with_local, bind, local.
  destruct (fetchEach_spec cinos cinos [] n) as (added & n' & H & F & L & R).
  rewrite H. cbn [fst snd app]. now exists added, n'.
Qed.

End WithServer.

(** X16 at a server whose errors carry the number of the request. *)
Lemma persistent_failure_is_rethrown_witness :
  exists n',
    ApiService.fetchSingleCase failing cino_only "123456" (mkNet 0%Z [])
    = Some (Throw (Error "request 3 timed out"), n')
    /\ requests (history n') = 3
    /\ waits (history n') = [1000; 2000]%Z.
Proof.
  destruct (persistent_failure_is_rethrown failing cino_only "123456"
              (mkNet 0%Z []))
    as (e & n' & H & He & R & W).
  { intros x. now eexists _, _. }
  injection He as <- _.
  exists n'. split; [exact H|]. split; [exact R | exact W].
Defined.

(** X17 at a server that answers with an empty body. *)
Lemma empty_responses_are_retried_at_once_witness :
  exists n',
    ApiService.fetchSingleCase blank cino_only "123456" (mkNet tt [])
    = Some (Ok JNull, n')
    /\ requests (history n') = 3
    /\ waits (history n') = [].
Proof.
  apply (empty_responses_are_retried_at_once blank cino_only "123456"
           (mkNet tt [])).
  intros x. eexists _, x. split; reflexivity.
Defined.

End ApiLaws.

(* ================================================================= *)
(** ** Properties of the monitoring cycle *)

Module CycleLaws.
Import JS Comp Domain ChangeDetectionService Spec Measures.
Import CompFacts ChangeDetectionFacts MonitoringFacts.
Import WhatsAppService MonitoringService.
Local Open Scope comp_scope.

(** *** Batches *)

Lemma createBatches_from_stuck {A : Type} (cases : list A) (size : Z) :
  (size <= 0)%Z -> cases <> [] ->
  forall fuel i batches,
    (i <= 0)%Z -> createBatches_from fuel cases size i batches = None.
Proof.
  intros Hs Hc fuel.
  assert (Hlen : (0 < Z.of_nat (List.length cases))%Z).
  { destruct cases; [congruence | cbn [List.length]; lia]. }
  induction fuel as [|fuel IH]; intros i batches Hi; cbn [createBatches_from];
    destruct (Z.ltb_spec i (Z.of_nat (List.length cases))); try lia.
  - reflexivity.
  - apply IH. lia.
Qed.

(** X19.  With a batch size of zero or less and at least one case,
    the loop of [createBatches] never ends, however long it runs: the
    index never reaches the length of the list. *)
Theorem nonpositive_batch_size_never_returns {A : Type} (cases : list A)
  (size : Z) :
  (size <= 0)%Z -> cases <> [] ->
  (forall fuel, createBatches_from fuel cases size 0 [] = None)
  /\ createBatches cases size = None.
Proof.
  intros Hs Hc. split.
  - intros fuel. apply createBatches_from_stuck; [assumption | assumption | lia].
  - unfold createBatches. apply createBatches_from_stuck;
      [assumption | assumption | lia].
Qed.

(** *** The summary *)

Section WithEngine.
Context {E : Engine}.

Lemma detectChanges_readable (old new : jsval) (cs : ChangeSet) :
  snd (detectChanges old new) = Ok cs ->
  nullish old = false /\ nullish new = false.
Proof.
  intros H.
  destruct (nullish old) eqn:Ho.
  - exfalso. unfold detectChanges in H.
    cbn [significantFields compareFields] in H.
    destruct old; try discriminate Ho; cbn in H; discriminate H.
  - split; [reflexivity|].
    destruct (nullish new) eqn:Hn; [|reflexivity].
    exfalso. unfold detectChanges in H.
    cbn [significantFields compareFields] in H.
    destruct new; try discriminate Hn; destruct old; cbn in H;
      discriminate H.
Qed.

Lemma detected_priority (c : ChangeData) :
  detected c ->
  notificationPriority (changes c) <> none
  /\ hasCriticalChanges (changes c)
     = match notificationPriority (changes c) with
       | urgent | high => true
       | _ => false
       end.
Proof.
  intros (old & new & Hd & Hc).
  destruct (detectChanges_readable old new _ Hd) as (Ho & Hn).
  destruct (detectChanges_ok old new Ho Hn)
    as (cs & Hcs & H1 & H2 & _ & _ & _ & H6).
  rewrite Hd in Hcs. injection Hcs as <-.
  rewrite H6, H2. rewrite H1 in Hc.
  unfold determineNotificationPriority. rewrite Hc. cbn [negb].
  destruct (hasCriticalChanges (compared old new)).
  - destruct (includes _ _); [|destruct (includes _ _)];
      split; [discriminate | reflexivity | discriminate | reflexivity
             | discriminate | reflexivity].
  - destruct (includes _ _); split; try discriminate; reflexivity.
Qed.

Lemma summary_of_detected (allChanges : list ChangeData)
  (results : list NotificationOutcome) :
  Forall detected allChanges ->
  let summary := generateSummary allChanges results in
  (count_urgent summary + count_high summary + count_medium summary
   + count_low summary = totalChanges summary)%Z
  /\ (summary_criticalChanges summary
      = count_urgent summary + count_high summary)%Z.
Proof.
  intros F. cbv zeta.
  unfold generateSummary, count_priority.
  cbn [count_urgent count_high count_medium count_low totalChanges
       summary_criticalChanges].
  induction F as [|c rest Hc F IH]; [split; reflexivity|].
  destruct (detected_priority c Hc) as (Hp & Hcrit).
  cbn [filter]. rewrite Hcrit.
  destruct (notificationPriority (changes c)); try congruence;
    cbn [List.length]; lia.
Qed.

Lemma outcomes_partition (allChanges : list ChangeData)
  (results : list NotificationOutcome) :
  (notificationsSent (generateSummary allChanges results)
   + notificationsFailed (generateSummary allChanges results)
   = Z.of_nat (List.length results))%Z.
Proof.
  unfold generateSummary. cbn [notificationsSent notificationsFailed].
  induction results as [|r rest IH]; [reflexivity|].
  cbn [filter]. destruct (success r); cbn [negb List.length]; lia.
Qed.

End WithEngine.

(** *** Cases and batches *)

Section WithCollaborators.
Context {E : Engine} {Ext : Type} (C : Collaborators Ext).
Variable render : User -> Subscription -> ChangeData -> Z -> Result string.

Lemma logged_value {A : Type} (r : list Logger.Line * A) (w : World Ext) :
  exists w', logged (Ext := Ext) r w = Some (Ok (snd r), w').
Proof.
  destruct r as [lines a]. unfold logged. cbn [fst snd]. revert w.
  induction lines as [|l rest IH]; intros w; cbn [fold_right].
  - now exists w.
  - unfold bind, log, emit, modify. apply IH.
Qed.

Lemma bind_inv {S A B : Type} (m : M S A) (k : A -> M S B) s b s' :
  bind m k s = Some (Ok b, s') ->
  exists a s1, m s = Some (Ok a, s1) /\ k a s1 = Some (Ok b, s').
Proof.
  unfold bind. destruct (m s) as [[[a|e] s1]|]; intros H;
    [now exists a, s1 | discriminate H | discriminate H].
Qed.

Lemma rethrow_inv {S A : Type} (m : M S A) (pre : Exn -> M S unit) s a s' :
  try_catch m (fun e => pre e ;; throw e) s = Some (Ok a, s') ->
  m s = Some (Ok a, s').
Proof.
  unfold try_catch, bind, throw.
  destruct (m s) as [[[a0|e] s1]|]; intros H;
    [exact H | | discriminate H].
  destruct (pre e s1) as [[[u|e'] s2]|]; discriminate H.
Qed.

(** What [processCase] returns is a change that [detectChanges] reported
    for the case. *)
Lemma processCase_detected (caseDoc : CaseDoc) (w w' : World Ext)
  (c : ChangeData) :
  processCase C caseDoc w = Some (Ok (Some c), w') ->
  detected c /\ changed_cino c = cino caseDoc /\ caseId c = _id caseDoc.
Proof.
  intros H. unfold processCase in H. apply rethrow_inv in H.
  apply bind_inv in H as (newCaseData & w1 & _ & H).
  destruct (negb (truthy newCaseData)).
  { apply bind_inv in H as (u & w2 & _ & H). discriminate H. }
  apply bind_inv in H as (t & w2 & _ & H).
  apply bind_inv in H as (u & w3 & _ & H).
  apply bind_inv in H as (r & w4 & Hl & H).
  apply bind_inv in H as (changeResult & w5 & Hr & H).
  destruct (logged_value (detectChanges (toObject caseDoc) newCaseData) w3)
    as (w4' & Hl').
  rewrite Hl' in Hl. injection Hl as <- _.
  destruct (snd (detectChanges (toObject caseDoc) newCaseData))
    as [cs|e] eqn:Hd; [|discriminate Hr].
  injection Hr as <- _.
  destruct (hasChanges cs) eqn:Hc; [|discriminate H].
  apply bind_inv in H as (updatedCase & w6 & _ & H).
  injection H as <- _.
  cbn [changes changed_cino caseId]. split; [|split; reflexivity].
  now exists (toObject caseDoc), newCaseData.
Qed.

Lemma processBatch_from_detected (batch : list CaseDoc) :
  forall batchChanges (w w' : World Ext) found,
    processBatch_from C batch batchChanges w = Some (Ok found, w') ->
    exists added,
      found = (batchChanges ++ added)%list
      /\ Forall detected added
      /\ List.length added <= List.length batch
      /\ incl (map changed_cino added) (map cino batch).
Proof.
  induction batch as [|caseDoc rest IH]; intros batchChanges w w' found H.
  - injection H as <- _. exists []. rewrite app_nil_r.
    split; [reflexivity|]. split; [constructor|].
    split; [cbn; lia | apply incl_nil_l].
  - cbn [processBatch_from] in H.
    apply bind_inv in H as (acc & w1 & Hstep & H).
    apply IH in H as (added & -> & F & L & I).
    unfold try_catch, bind at 1 in Hstep.
    destruct (processCase C caseDoc w) as [[[[c|]|e] w0]|] eqn:Hp;
      try discriminate Hstep.
    + injection Hstep as <- _.
      destruct (processCase_detected caseDoc w w0 c Hp) as (D & Hcino & _).
      exists (c :: added). rewrite <- app_assoc.
      split; [reflexivity|]. split; [now constructor|].
      cbn [List.length map]. split; [lia|].
      rewrite Hcino. apply incl_cons; [now left|].
      now apply incl_tl.
    + injection Hstep as <- _. exists added.
      split; [reflexivity|]. split; [exact F|].
      cbn [List.length map]. split; [lia | now apply incl_tl].
    + unfold bind, log, emit, modify, ret in Hstep.
      injection Hstep as <- _. exists added.
      split; [reflexivity|]. split; [exact F|].
      cbn [List.length map]. split; [lia | now apply incl_tl].
Qed.

Lemma processBatches_detected (remaining : list (list CaseDoc)) :
  forall i n allChanges (w w' : World Ext) found,
    Forall detected allChanges ->
    processBatches C remaining i n allChanges w = Some (Ok found, w') ->
    Forall detected found.
Proof.
  induction remaining as [|batch rest IH];
    intros i n allChanges w w' found F H.
  - injection H as <- _. exact F.
  - cbn [processBatches] in H.
    apply bind_inv in H as (u & w1 & _ & H).
    apply bind_inv in H as (batchChanges & w2 & Hb & H).
    apply bind_inv in H as (u' & w3 & _ & H).
    apply IH in H; [exact H|].
    apply processBatch_from_detected in Hb as (added & -> & Fa & _).
    apply Forall_app. split; [exact F | exact Fa].
Qed.


(** Every outcome of a cycle entered with a positive batch size, with the
    summary that it returns. *)
Lemma cycle_summary (w : World Ext) :
  isRunning (service w) = false ->
  (0 < batchSize (service w))%Z ->
  exists r w',
    runMonitoringCycle C render w = Some (Ok r, w')
    /\ ((exists message, r = completed_without_cases message)
        \/ (exists allChanges notifications duration,
              r = completed allChanges
                    (generateSummary allChanges notifications)
                    notifications duration
              /\ Forall detected allChanges)).
Proof.
  intros Hidle Hsize. rewrite (run_entered C render w Hidle).
  unfold try_finally, try_catch, cycleBody.
  destruct (safe_getCasesToCheck C (entered w)) as (cases & w1 & H1 & S1 & _).
  rewrite (bind_ok _ _ _ _ _ H1).
  destruct (List.length cases =? 0)%nat.
  - cbn. eexists _, _. split; [reflexivity|]. left. now eexists.
  - match goal with
    | |- context [bind (log ?l) _] =>
        destruct (safe_log l w1) as (u & w2 & H2 & S2 & _)
    end.
    rewrite (bind_ok _ _ _ _ _ H2).
    unfold bind at 1, this. rewrite S2, S1.
    change (batchSize (service (entered w))) with (batchSize (service w)).
    rewrite (createBatches_chunks cases _ Hsize).
    match goal with
    | |- context [processBatches C ?bs 0 ?n []] =>
        destruct (processBatches_delays C bs 0 n [] w2 eq_refl)
          as (allChanges & w3 & H3 & S3 & _)
    end.
    rewrite (bind_ok _ _ _ _ _ H3).
    apply processBatches_detected in H3; [|constructor].
    destruct (safe_processNotifications C render allChanges w3)
      as (results & w4 & H4 & S4 & _).
    rewrite (bind_ok _ _ _ _ _ H4).
    match goal with
    | |- context [logCycleSummary C ?st ?sm] =>
        destruct (safe_logCycleSummary C st sm w4) as (u' & w5 & H5 & S5 & _)
    end.
    rewrite (bind_ok _ _ _ _ _ H5).
    cbn. eexists _, _. split; [reflexivity|].
    right. do 3 eexists. split; [reflexivity | exact H3].
Qed.

(** X21.  A cycle entered with a positive batch size never ends in the
    error state, whatever the database, the court's server and the
    messaging transport do: it returns normally with the busy flag
    released, the run counted and the error counter as it was. *)
Theorem entered_cycle_never_fails (w : World Ext) :
  isRunning (service w) = false ->
  (0 < batchSize (service w))%Z ->
  exists r w',
    runMonitoringCycle C render w = Some (Ok r, w')
    /\ status r = "completed"
    /\ isRunning (service w') = false
    /\ runCount (service w') = (runCount (service w) + 1)%Z
    /\ errorCount (service w') = errorCount (service w).
Proof.
  intros Hidle Hsize.
  destruct (cycle_outcomes C render w Hidle Hsize)
    as (r & w' & H & R & N & Er & Hr).
  exists r, w'. split; [exact H|]. split; [|now repeat split].
  destruct Hr as [(m & -> & _) | (a & s & n & d & -> & _)]; reflexivity.
Qed.

(** X22.  In the summary of a completed cycle the counts by priority add
    up to the total number of changes, the critical changes are the urgent
    and the high ones, the notifications sent and failed add up to the
    outcomes, and every reported change has [hasChanges] set. *)
Theorem cycle_summary_adds_up (w : World Ext) :
  isRunning (service w) = false ->
  (0 < batchSize (service w))%Z ->
  exists r w',
    runMonitoringCycle C render w = Some (Ok r, w')
    /\ forall allChanges summary notifications duration,
         r = completed allChanges summary notifications duration ->
         totalChanges summary = Z.of_nat (List.length allChanges)
         /\ (count_urgent summary + count_high summary
             + count_medium summary + count_low summary
             = totalChanges summary)%Z
         /\ (summary_criticalChanges summary
             = count_urgent summary + count_high summary)%Z
         /\ (notificationsSent summary + notificationsFailed summary
             = Z.of_nat (List.length notifications))%Z
         /\ Forall (fun c => hasChanges (changes c) = true) allChanges.
Proof.
  intros Hidle Hsize.
  destruct (cycle_summary w Hidle Hsize) as (r & w' & H & Hr).
  exists r, w'. split; [exact H|].
  intros allChanges summary notifications duration ->.
  destruct Hr as [(m & Hm) | (a & n & d & Hc & F)]; [discriminate Hm|].
  injection Hc as -> -> -> _.
  destruct (summary_of_detected a n F) as (P1 & P2).
  split; [reflexivity|]. split; [exact P1|]. split; [exact P2|].
  split; [apply outcomes_partition|].
  eapply Forall_impl; [|exact F]. now intros c (old & new & _ & Hh).
Qed.

(** *** Notifications *)

Lemma notifySubscribers_nobody (subscriptions : list Subscription)
  (changeData : ChangeData) s :
  forallb nobody_to_notify subscriptions = true ->
  notifySubscribers C render subscriptions changeData s = Some (Ok tt, s).
Proof.
  induction subscriptions as [|sub rest IH]; intros H; [reflexivity|].
  cbn [forallb] in H. apply andb_prop in H as (Hs & Hr).
  cbn [notifySubscribers]. unfold nobody_to_notify in Hs.
  destruct (userId sub) as [user|]; [|now apply IH].
  destruct (isActive user); [discriminate Hs | now apply IH].
Qed.

(** X23.  When a changed case has subscriptions but none of them has an
    active user, [processNotifications] sends nothing and returns no
    outcome, and still asks for the notification counter of the case to be
    increased by the number of subscriptions. *)
Theorem subscriptions_are_counted_not_deliveries (changeData : ChangeData)
  (subscriptions : list Subscription) (x : Ext) (w : World Ext) :
  answer C (UserCase_find_active (changed_cino changeData)) (ext w)
  = (Ok subscriptions, x) ->
  subscriptions <> [] ->
  forallb nobody_to_notify subscriptions = true ->
  exists w' tail,
    processNotifications C render [changeData] w = Some (Ok [], w')
    /\ trace w'
       = (trace w
          ++ [ Called (UserCase_find_active (changed_cino changeData));
               Called (Case_recordNotification (caseId changeData)
                         (clock C x)
                         (Z.of_nat (List.length subscriptions))) ]
          ++ tail)%list
    /\ posts tail = 0.
Proof.
  intros Ha Hne Hnobody.
  unfold processNotifications, with_local. unfold bind at 1.
  cbn [notifyChanges]. unfold bind at 1, try_catch, bind at 1, lift at 1.
  unfold call at 1. cbn [fst snd]. rewrite Ha.
  destruct subscriptions as [|sub rest]; [congruence|].
  cbn [List.length Nat.eqb].
  unfold bind at 1. rewrite (notifySubscribers_nobody _ _ _ Hnobody).
  unfold bind at 1, lift at 1, now. cbn [fst snd ext service trace].
  unfold lift, call. cbn [fst snd ext service trace].
  match goal with
  | |- context [answer C ?q x] => destruct (answer C q x) as [[[]|e] x1]
  end.
  - eexists _, []. split; [reflexivity|]. cbn [snd trace].
    rewrite <- app_assoc. split; reflexivity.
  - cbn [fst snd ext service trace]. eexists _, [_].
    split; [reflexivity|]. cbn [snd trace].
    rewrite <- !app_assoc. split; reflexivity.
Qed.

End WithCollaborators.

Import Samples ReferenceEngine ReferenceWorld.

(** X19 at the seven sample cases with a batch size of minus two. *)
Lemma nonpositive_batch_size_never_returns_witness :
  createBatches seven_cases (-2) = None.
Proof.
  apply (nonpositive_batch_size_never_returns seven_cases (-2));
    [lia | discriminate].
Defined.

(** X21 in the reference world with the transport refusing connections. *)
Lemma entered_cycle_never_fails_witness :
  exists r w',
    run_in (start transport_down) = Some (Ok r, w')
    /\ status r = "completed"
    /\ errorCount (service w') = 0%Z.
Proof.
  destruct (entered_cycle_never_fails (E := utc_engine) collaborators
              plain_message (start transport_down) eq_refl eq_refl)
    as (r & w' & H & Hs & _ & _ & He).
  exists r, w'. split; [exact H|]. split; [exact Hs | exact He].
Defined.

(** X22 in the reference world. *)
Lemma cycle_summary_adds_up_witness :
  exists r w',
    run_in (start healthy) = Some (Ok r, w')
    /\ forall allChanges summary notifications duration,
         r = completed allChanges summary notifications duration ->
         (notificationsSent summary + notificationsFailed summary
          = Z.of_nat (List.length notifications))%Z.
Proof.
  destruct (cycle_summary_adds_up (E := utc_engine) collaborators
              plain_message (start healthy) eq_refl eq_refl)
    as (r & w' & H & Hr).
  exists r, w'. split; [exact H|].
  intros a s n d Heq. now destruct (Hr a s n d Heq) as (_ & _ & _ & P & _).
Defined.

(** X23 at the subscriptions of the dormant store. *)
Lemma subscriptions_are_counted_not_deliveries_witness :
  exists w' tail,
    processNotifications collaborators plain_message
      [changed_case] (start dormant) = Some (Ok [], w')
    /\ trace w'
       = ([ Called (UserCase_find_active "103");
            Called (Case_recordNotification "id-103" 1735689600000 2) ]
          ++ tail)%list
    /\ posts tail = 0.
Proof.
  exact (subscriptions_are_counted_not_deliveries
           collaborators plain_message changed_case _ dormant (start dormant)
           eq_refl ltac:(discriminate) eq_refl).
Defined.

(** The cycle over the seven sample cases reports the one changed case,
    of low priority, and one notification sent. *)
Example seven_cases_summary :
  exists allChanges summary notifications duration w',
    run_in (start healthy)
    = Some (Ok (completed allChanges summary notifications duration), w')
    /\ map changed_cino allChanges = ["103"]
    /\ totalChanges summary = 1%Z
    /\ count_high summary = 1%Z
    /\ summary_criticalChanges summary = 1%Z
    /\ notificationsSent summary = 1%Z.
Proof.
  do 5 eexists. split; [vm_compute; reflexivity|]. repeat split.
Qed.

End CycleLaws.

(* ================================================================= *)
(** ** Properties of the older comparison service *)

Module ComparisonLaws.
Import JS DataComparisonService Measures.

Lemma dedup_spec (ks : list string) :
  forall seen,
    NoDup (dedup seen ks)
    /\ forall x, In x (dedup seen ks) <-> In x ks /\ ~ In x seen.
Proof.
  induction ks as [|k r IH]; intros seen; cbn [dedup].
  - split; [constructor|]. intros x. cbn. tauto.
  - destruct (existsb (String.eqb k) seen) eqn:Hk.
    + destruct (IH seen) as (N & I). split; [exact N|].
      intros x. rewrite I. cbn [In].
      apply existsb_exists in Hk as (y & Hy & Heq).
      apply String.eqb_eq in Heq. subst y.
      split; [tauto|]. intros [[<- | Hx] Hn]; [contradiction | tauto].
    + destruct (IH (k :: seen)) as (N & I).
      assert (Hnot : ~ In k seen).
      { intros Hin.
        assert (existsb (String.eqb k) seen = true) as Ht.
        { apply existsb_exists. exists k. split; [exact Hin|].
          apply String.eqb_refl. }
        congruence. }
      split.
      * constructor; [|exact N]. rewrite I. cbn [In]. tauto.
      * intros x. cbn [In]. rewrite I. cbn [In].
        destruct (string_dec k x) as [<- | Hne]; tauto.
Qed.

Lemma count_spec (s : Summary) (c : Change) :
  totalChanges (count s c) = totalChanges s
  /\ counted (count s c)
     = (counted s + if known_type (type c) then 1 else 0)%Z
  /\ caseNumbers (count s c) = (caseNumbers s ++ [caseNumber c])%list.
Proof.
  unfold count, known_type, counted. cbn [existsb].
  destruct (String.eqb (type c) "NEW_CASE");
    [cbn; repeat split; lia|].
  destruct (String.eqb (type c) "STATUS_CHANGE");
    [cbn; repeat split; lia|].
  destruct (String.eqb (type c) "HEARING_DATE_CHANGE");
    [cbn; repeat split; lia|].
  destruct (String.eqb (type c) "ORDER_UPDATE");
    [cbn; repeat split; lia|].
  destruct (String.eqb (type c) "GENERAL_UPDATE");
    cbn; repeat split; lia.
Qed.

Lemma fold_count_spec (changes : list Change) :
  forall s,
    let s' := fold_left count changes s in
    totalChanges s' = totalChanges s
    /\ counted s'
       = (counted s
          + Z.of_nat (List.length
                        (filter (fun c => known_type (type c)) changes)))%Z
    /\ caseNumbers s' = (caseNumbers s ++ map caseNumber changes)%list.
Proof.
  induction changes as [|c rest IH]; intros s; cbn [fold_left].
  - cbn. rewrite app_nil_r. repeat split. lia.
  - destruct (IH (count s c)) as (T & K & N).
    destruct (count_spec s c) as (T1 & K1 & N1).
    cbv zeta in *. rewrite T, K, N, T1, K1, N1. cbn [filter map].
    rewrite <- app_assoc. split; [reflexivity|]. split; [|reflexivity].
    destruct (known_type (type c)); cbn [List.length]; lia.
Qed.

(** X24.  In the summary of [getChangesSummary] the total is the number
    of changes, the five counts by type add up to the number of changes of
    a known type, and the case numbers are those of the changes, each one
    once. *)
Theorem changes_summary_adds_up (changes : list Change) :
  let summary := getChangesSummary changes in
  totalChanges summary = Z.of_nat (List.length changes)
  /\ counted summary
     = Z.of_nat (List.length
                   (filter (fun c => known_type (type c)) changes))
  /\ NoDup (caseNumbers summary)
  /\ forall number,
       In number (caseNumbers summary)
       <-> In number (map caseNumber changes).
Proof.
  cbv zeta. unfold getChangesSummary.
  destruct (fold_count_spec changes
              (mkSummary (Z.of_nat (List.length changes)) 0 0 0 0 0 []))
    as (T & K & N).
  cbv zeta in *. unfold counted in *.
  cbn [totalChanges newCases statusChanges hearingDateChanges orderUpdates
       generalUpdates caseNumbers] in *.
  rewrite T, N. cbn [app].
  destruct (dedup_spec (map caseNumber changes) []) as (D & I).
  split; [reflexivity|]. split; [rewrite K; lia|]. split; [exact D|].
  intros number. rewrite I. cbn [In]. tauto.
Qed.

Section WithEngine.
Context {E : Engine}.

(** X25.  The date comparison of the older service agrees with the one of
    the change detector on Date objects and missing values; on two truthy
    values of which one is not a Date object, such as the date strings the
    detector accepts, it throws a TypeError. *)
Theorem older_comparison_needs_dates (date1 date2 : jsval) :
  (date_or_missing date1 && date_or_missing date2 = true ->
   compareDates date1 date2
   = Ok (ChangeDetectionService.compareDates date1 date2))
  /\ (truthy date1 && truthy date2 = true ->
      date_or_missing date1 && date_or_missing date2 = false ->
      exists e, compareDates date1 date2 = Throw e /\ ename e = "TypeError").
Proof.
  split.
  - intros H. apply andb_prop in H as (H1 & H2).
    unfold compareDates, ChangeDetectionService.compareDates,
      ChangeDetectionService.normalizeDate.
    destruct date1 as [| |b1|n1|s1|t1|l1|o1]; cbn in H1 |- *;
      try discriminate H1; try rewrite H1;
      destruct date2 as [| |b2|n2|s2|t2|l2|o2]; cbn in H2 |- *;
      try discriminate H2; try rewrite H2; cbn; reflexivity.
  - intros Ht Hd. apply andb_prop in Ht as (T1 & T2).
    unfold compareDates. rewrite T1, T2. cbn [negb andb orb].
    destruct date1 as [| |b1|n1|s1|t1|l1|o1];
      try (eexists; split; reflexivity);
      destruct date2 as [| |b2|n2|s2|t2|l2|o2];
      try (eexists; split; reflexivity);
      cbn in Hd, T1, T2; congruence.
Qed.

End WithEngine.

Import Samples ReferenceEngine.

(** X25 at two equal dates, and at a date string against a Date. *)
Lemma older_comparison_needs_dates_witness :
  compareDates (JDate (Some 1735689600000%Z)) (JDate (Some 1735689600000%Z))
  = Ok false
  /\ exists e,
       compareDates (JStr "2025-01-01") (JDate (Some 1735689600000%Z))
       = Throw e
       /\ ename e = "TypeError".
Proof.
  split.
  - exact (proj1 (older_comparison_needs_dates (E := utc_engine)
                    (JDate (Some 1735689600000%Z))
                    (JDate (Some 1735689600000%Z))) eq_refl).
  - exact (proj2 (older_comparison_needs_dates (E := utc_engine)
                    (JStr "2025-01-01") (JDate (Some 1735689600000%Z)))
             eq_refl eq_refl).
Defined.

End ComparisonLaws.
